(** * EnvironmentQueueConsumer: the per-environment task-run dispatcher

    A shallow embedding of [environmentQueueConsumer.server.ts] (the class
    [EnvironmentQueueConsumer]) and of the part of
    [eventRepository.server.ts] it calls ([recordEvent]), followed by the
    properties of the dispatcher that the specification states.

    Conventions of the embedding:
    - JavaScript strings are [string]; [>] on strings is the lexicographic
      order on code units, which is [String.compare] on ASCII text;
    - numbers that the program only uses as integers (attempt numbers,
      counters, millisecond timestamps) are [Z]; a [Date] is its
      millisecond timestamp;
    - [x | undefined] and [x | null] are [option x];
    - a JavaScript [Map] is an association list in insertion order;
    - an [async] method is a function from the world to a completion
      (returned value or thrown exception) and the new world; what the
      method awaits from a collaborator that is not part of the class (the
      queue, the clock, the identifier generators, a failing call) is an
      explicit input of the call. *)

From Stdlib Require Import ZArith List String Ascii Bool Lia.
From Stdlib Require Import DecimalString Permutation.
Import ListNotations.

#[local] Set Warnings "-register-all".

Open Scope string_scope.
Open Scope Z_scope.

(** ** Values *)

(** JSON values, as stored in the queue message and in trace attributes. *)
Inductive Json : Type :=
| JNull
| JBool (b : bool)
| JNum (z : Z)
| JStr (s : string)
| JArr (items : list Json)
| JObj (fields : list (string * Json)).

(** An object literal or [Attributes] bag: its entries in the order in
    which the keys were inserted. JavaScript lists the keys of an object in
    that order, except the keys that are array indices (["0"], ["1"], ...):
    those it lists first, in ascending order. *)
Definition Attributes := list (string * Json).

Fixpoint lookup {A : Type} (k : string) (o : list (string * A)) : option A :=
  match o with
  | [] => None
  | (k', v) :: rest => if String.eqb k k' then Some v else lookup k rest
  end.

(** [o[k] = v] on an object or [m.set(k, v)] on a [Map]: an existing key
    keeps its position, a new key goes last. *)
Fixpoint set {A : Type} (k : string) (v : A) (o : list (string * A))
  : list (string * A) :=
  match o with
  | [] => [(k, v)]
  | (k', v') :: rest =>
      if String.eqb k k' then (k, v) :: rest else (k', v') :: set k v rest
  end.

(** [{ ...a, ...b }] *)
Definition spread {A : Type} (a b : list (string * A)) : list (string * A) :=
  fold_left (fun acc kv => set (fst kv) (snd kv) acc) b a.

(** [a > b] on strings. *)
Definition string_gt (a b : string) : bool :=
  match String.compare a b with Gt => true | _ => false end.

(** Template-literal rendering of an integer. *)
Definition string_of_Z (z : Z) : string :=
  NilZero.string_of_int (Z.to_int z).

(** ** Rows of the store *)

Record RetryOptions : Type := mkRetryOptions {
  maxAttempts : option Z;
  factor : option Z;
  minTimeoutInMs : option Z;
  maxTimeoutInMs : option Z;
  randomize : option bool
}.

Record BackgroundWorkerTask : Type := mkTask {
  task_id : string;
  task_slug : string;
  task_filePath : string;
  task_exportName : string;
  task_workerId : string;
  task_retryConfig : option Json
}.

Record BackgroundWorker : Type := mkWorker {
  bw_id : string;
  bw_friendlyId : string;
  bw_version : string;
  bw_runtimeEnvironmentId : string;
  bw_tasks : list BackgroundWorkerTask
}.

Record TaskRun : Type := mkRun {
  run_id : string;
  run_friendlyId : string;
  run_taskIdentifier : string;
  run_queue : string;
  run_payload : string;
  run_payloadType : string;
  run_context : Json;
  run_traceContext : list (string * string);
  run_createdAt : Z;
  run_tags : list string;
  run_lockedAt : option Z;
  run_lockedById : option string;
  run_lockedToVersionId : option string
}.

Inductive AttemptStatus : Type := PENDING | EXECUTING | PAUSED | FAILED | CANCELED | COMPLETED.

Record TaskRunAttempt : Type := mkAttempt {
  att_id : string;
  att_friendlyId : string;
  att_number : Z;
  att_taskRunId : string;
  att_status : AttemptStatus;
  att_createdAt : Z;
  att_startedAt : option Z;
  att_completedAt : option Z;
  att_backgroundWorkerId : string;
  att_backgroundWorkerTaskId : string;
  att_queueId : string;
  att_output : option string;
  att_outputType : option string;
  att_error : option Json
}.

Record TaskQueue : Type := mkQueue {
  q_id : string;
  q_friendlyId : string;
  q_name : string;
  q_runtimeEnvironmentId : string
}.

(** ** The authenticated environment *)

Record Organization : Type := mkOrg {
  org_id : string;
  org_slug : string;
  org_title : string
}.

Record Project : Type := mkProject {
  proj_id : string;
  proj_externalRef : string;
  proj_slug : string;
  proj_name : string
}.

Record AuthenticatedEnvironment : Type := mkEnv {
  env_id : string;
  env_slug : string;
  env_type : string;
  env_organizationId : string;
  env_projectId : string;
  env_organization : Organization;
  env_project : Project
}.

(** ** Messages *)

(** A message handed out by the queue: [messageId] is the id of the run. *)
Record QueueMessage : Type := mkMessage {
  msg_messageId : string;
  msg_data : Json
}.

(** The parsed body: [{ type: "EXECUTE", taskIdentifier }]. *)
Record MessageBodyT : Type := mkBody {
  body_taskIdentifier : string
}.

(** [MessageBody.safeParse]: a discriminated union on ["type"] with the one
    variant ["EXECUTE"], whose [taskIdentifier] is a string. [None] is
    [{ success: false }]. *)
Definition MessageBody_safeParse (data : Json) : option MessageBodyT :=
  match data with
  | JObj fields =>
      match lookup "type" fields with
      | Some (JStr "EXECUTE") =>
          match lookup "taskIdentifier" fields with
          | Some (JStr t) => Some (mkBody t)
          | _ => None
          end
      | _ => None
      end
  | _ => None
  end.

(** The execution descriptor built by the dispatch loop (and echoed back by
    the worker on completion). *)
Record ExecTask : Type := mkExecTask {
  et_id : string; et_filePath : string; et_exportName : string }.
Record ExecAttempt : Type := mkExecAttempt {
  ea_id : string; ea_number : Z; ea_startedAt : Z;
  ea_backgroundWorkerId : string; ea_backgroundWorkerTaskId : string;
  ea_status : AttemptStatus }.
Record ExecRun : Type := mkExecRun {
  er_id : string; er_payload : string; er_payloadType : string;
  er_context : Json; er_createdAt : Z; er_tags : list string }.
Record ExecQueue : Type := mkExecQueue { eq_id : string; eq_name : string }.
Record ExecEnvironment : Type := mkExecEnv {
  ee_id : string; ee_slug : string; ee_type : string }.
Record ExecOrganization : Type := mkExecOrg {
  eo_id : string; eo_slug : string; eo_name : string }.
Record ExecProject : Type := mkExecProject {
  ep_id : string; ep_ref : string; ep_slug : string; ep_name : string }.

Record TaskRunExecution : Type := mkExecution {
  ex_task : ExecTask;
  ex_attempt : ExecAttempt;
  ex_run : ExecRun;
  ex_queue : ExecQueue;
  ex_environment : ExecEnvironment;
  ex_organization : ExecOrganization;
  ex_project : ExecProject
}.

Record ExecutePayload : Type := mkPayload {
  pl_execution : TaskRunExecution;
  pl_traceContext : list (string * string)
}.

(** [BACKGROUND_WORKER_MESSAGE { backgroundWorkerId,
      data: { type: "EXECUTE_RUNS", payloads } }] *)
Record BackgroundWorkerMessage : Type := mkOutMessage {
  out_backgroundWorkerId : string;
  out_payloads : list ExecutePayload
}.

(** The completion reported by the worker. *)
Inductive TaskRunExecutionResult : Type :=
| Success (id : string) (output : option string) (outputType : string)
| Failure (id : string) (error : Json) (retry : option Z).

(** ** Trace events (eventRepository) *)

Record CreatableEvent : Type := mkEvent {
  ev_traceId : string;
  ev_spanId : string;
  ev_parentId : option string;
  ev_tracestate : option string;
  ev_message : string;
  ev_serviceName : string;
  ev_serviceNamespace : string;
  ev_level : string;
  ev_kind : option string;
  ev_status : string;
  ev_startTime : Z;
  ev_isPartial : bool;
  ev_duration : Z;
  ev_environmentId : string;
  ev_environmentType : string;
  ev_organizationId : string;
  ev_projectId : string;
  ev_projectRef : string;
  ev_runId : string;
  ev_taskSlug : string;
  ev_queueId : option string;
  ev_queueName : option string;
  ev_properties : Attributes;
  ev_metadata : Attributes;
  ev_style : Attributes;
  ev_output : option Attributes
}.

Record TraceAttributes : Type := mkTraceAttributes {
  ta_attemptId : option string;
  ta_isError : option bool;
  ta_runId : option string;
  ta_output : option Attributes;
  ta_metadata : option Attributes;
  ta_properties : option Attributes;
  ta_style : option Attributes;
  ta_queueId : option string;
  ta_queueName : option string
}.

Record TraceEventOptions : Type := mkTraceEventOptions {
  teo_kind : option string;
  teo_context : option (list (string * string));
  teo_spanIdSeed : option string;
  teo_attributes : TraceAttributes;
  teo_environment : AuthenticatedEnvironment;
  teo_taskSlug : string;
  teo_startTime : option Z;
  teo_endTime : option Z
}.

(** ** The store

    Modelled from the spec: the relational store ([prisma]) is a
    collaborator whose code is not part of the dispatcher; the spec
    consumes it as a CRUD surface over runs, attempts, queues and workers.
    It is modelled as tables of rows with unique ids: a read returns the
    first matching row, an insert with an id already present is refused, an
    update of a missing row returns [null], and a transaction applies all of
    its writes or none. *)

Record Store : Type := mkStore {
  taskRun : list TaskRun;
  taskRunAttempt : list TaskRunAttempt;
  taskQueue : list TaskQueue;
  backgroundWorker : list BackgroundWorker
}.

(** [prisma.taskRun.findUnique({ where: { id } })] *)
Definition taskRun_findUnique (db : Store) (id : string) : option TaskRun :=
  find (fun r => String.eqb (run_id r) id) (taskRun db).

Definition with_lock (lockedAt : option Z) (lockedById : option string)
  (r : TaskRun) : TaskRun :=
  mkRun (run_id r) (run_friendlyId r) (run_taskIdentifier r) (run_queue r)
        (run_payload r) (run_payloadType r) (run_context r)
        (run_traceContext r) (run_createdAt r) (run_tags r)
        lockedAt lockedById (run_lockedToVersionId r).

Definition with_taskRun (runs : list TaskRun) (db : Store) : Store :=
  mkStore runs (taskRunAttempt db) (taskQueue db) (backgroundWorker db).

Definition with_taskRunAttempt (atts : list TaskRunAttempt) (db : Store)
  : Store :=
  mkStore (taskRun db) atts (taskQueue db) (backgroundWorker db).

(** [prisma.taskRun.update({ where: { id }, data: { lockedAt, lockedById } })]:
    the new table and the updated row, [None] when there is no such row. *)
Definition taskRun_update (db : Store) (id : string)
  (lockedAt : option Z) (lockedById : option string)
  : option (Store * TaskRun) :=
  match taskRun_findUnique db id with
  | None => None
  | Some r =>
      let r' := with_lock lockedAt lockedById r in
      Some (with_taskRun
              (map (fun x => if String.eqb (run_id x) id
                             then with_lock lockedAt lockedById x else x)
                   (taskRun db)) db,
            r')
  end.

(** [include: { attempts: { take: 1, orderBy: { number: "desc" } } }]: the
    attempts of the run, the one with the greatest number first, cut to one
    row. *)
Definition attemptsOf (db : Store) (runId : string) : list TaskRunAttempt :=
  filter (fun a => String.eqb (att_taskRunId a) runId) (taskRunAttempt db).

Fixpoint greatest (l : list TaskRunAttempt) : option TaskRunAttempt :=
  match l with
  | [] => None
  | a :: rest =>
      match greatest rest with
      | Some b => if att_number a <? att_number b then Some b else Some a
      | None => Some a
      end
  end.

Definition lastAttempts (db : Store) (runId : string) : list TaskRunAttempt :=
  match greatest (attemptsOf db runId) with
  | Some a => [a]
  | None => []
  end.

(** [prisma.taskQueue.findUnique({ where: { runtimeEnvironmentId_name } })] *)
Definition taskQueue_findUnique (db : Store) (envId name : string)
  : option TaskQueue :=
  find (fun q => String.eqb (q_runtimeEnvironmentId q) envId
                 && String.eqb (q_name q) name) (taskQueue db).

(** [prisma.taskRunAttempt.create({ data })]: [None] when the id is taken. *)
Definition taskRunAttempt_create (db : Store) (a : TaskRunAttempt)
  : option Store :=
  if existsb (fun x => String.eqb (att_id x) (att_id a)) (taskRunAttempt db)
  then None
  else Some (with_taskRunAttempt (taskRunAttempt db ++ [a]) db).

(** [prisma.taskRunAttempt.delete({ where: { id } })]: [None] when there is
    no such row. *)
Definition taskRunAttempt_delete (db : Store) (id : string) : option Store :=
  if existsb (fun x => String.eqb (att_id x) id) (taskRunAttempt db)
  then Some (with_taskRunAttempt
               (filter (fun x => negb (String.eqb (att_id x) id))
                       (taskRunAttempt db)) db)
  else None.

(** [prisma.backgroundWorker.findUnique({ where: { friendlyId,
    runtimeEnvironmentId }, include: { tasks: true } })] *)
Definition backgroundWorker_findUnique (db : Store) (friendlyId envId : string)
  : option BackgroundWorker :=
  find (fun b => String.eqb (bw_friendlyId b) friendlyId
                 && String.eqb (bw_runtimeEnvironmentId b) envId)
       (backgroundWorker db).

(** The [backgroundWorkerTask] relation of an attempt. *)
Definition backgroundWorkerTask_findUnique (db : Store) (id : string)
  : option BackgroundWorkerTask :=
  find (fun t => String.eqb (task_id t) id)
       (flat_map bw_tasks (backgroundWorker db)).

(** ** The dispatcher and the world around it *)

(** A JavaScript number that is an integer or [NaN]. *)
Inductive JsNumber : Type := NaN | Num (z : Z).

Definition js_sub (a : option JsNumber) (b : Z) : JsNumber :=
  match a with
  | Some (Num z) => Num (z - b)
  | _ => NaN
  end.

Definition is_zero (a : option JsNumber) : bool :=
  match a with
  | Some (Num z) => z =? 0
  | _ => false
  end.

Record EnvironmentQueueConsumerOptions : Type := mkOptions {
  maximumItemsPerTrace : Z;
  traceTimeoutSeconds : Z
}.

(** A span is named by the order in which the tracer started it; the context
    [trace.setSpan(ROOT_CONTEXT, span)] is the root context carrying that
    span. *)
Definition Span := nat.
Inductive Context : Type := ContextWithSpan (s : Span).

(** The fields of [EnvironmentQueueConsumer]. *)
Record EnvironmentQueueConsumer : Type := mkConsumer {
  env : AuthenticatedEnvironment;
  _backgroundWorkers : list (string * BackgroundWorker);
  _enabled : bool;
  _options : EnvironmentQueueConsumerOptions;
  _perTraceCountdown : option JsNumber;
  _lastNewTrace : option Z;
  _currentSpanContext : option Context;
  _taskFailures : Z;
  _taskSuccesses : Z;
  _currentSpan : option Span;
  _endSpanInNextIteration : bool
}.

(** The constructor: [options.x ?? default]. *)
Definition new_EnvironmentQueueConsumer (e : AuthenticatedEnvironment)
  (maxItems timeout : option Z) : EnvironmentQueueConsumer :=
  mkConsumer e [] false
    (mkOptions (match maxItems with Some n => n | None => 1000 end)
               (match timeout with Some n => n | None => 60 end))
    None None None 0 0 None false.

(** What the tracer ([@opentelemetry/api]) was asked to do, oldest first. *)
Inductive SpanEvent : Type :=
| StartSpan (s : Span) (name : string) (environmentId : string)
| SetAttribute (s : Span) (key : string) (value : Z)
| RecordException (s : Span) (message : string)
| EndSpan (s : Span).

(** Modelled from the spec: the queue client ([marqs]) is a collaborator
    whose code is not part of the dispatcher; the spec consumes dequeue, ack,
    nack (with an optional future visibility) and heartbeat as a contract.
    What it hands out is an input of the call ([dequeued]); what it did on
    behalf of the dispatcher is logged, oldest first. *)
Inductive QueueAction : Type :=
| Acknowledged (messageId : string)
| Nacked (messageId : string) (retryAt : option Z)
| Heartbeat (messageId : string) (seconds : Z).

(** The collaborator calls an [await] can see rejected. *)
Inductive Call : Type :=
| DequeueMessageInEnv
| AcknowledgeMessage
| NackMessage
| HeartbeatMessage
| TaskRunFindUnique
| TaskRunUpdate
| TaskQueueFindUnique
| TaskRunAttemptCreate
| TaskRunAttemptUpdate
| TaskRunAttemptFindUnique
| BackgroundWorkerFindUnique
| Transaction
| SenderSend.

Record World : Type := mkWorld {
  consumer : EnvironmentQueueConsumer;
  (** whether the queue client [marqs] is configured ([marqs?.]) *)
  marqs : bool;
  prisma : Store;
  queue : list QueueAction;
  (** messages [_sender.send] delivered *)
  sent : list BackgroundWorkerMessage;
  tracer : list SpanEvent;
  (** pending [setTimeout(() => this.#doWork(), ms)] *)
  timers : list Z;
  (** the batch of [eventRepository] *)
  events : list CreatableEvent;
  (** rejections of a [#doWork()] promise that nobody awaits *)
  unhandledRejections : list string
}.

(** What one call observes of its collaborators. *)
Record Ambient : Type := mkAmbient {
  (** [Date.now()], [new Date()] *)
  now : Z;
  (** the calls that reject, with the error *)
  rejects : Call -> option string;
  (** the message [dequeueMessageInEnv] hands out *)
  dequeued : option QueueMessage;
  (** the lock update resolves to [null] *)
  lockUpdateFails : bool;
  (** [stop()] runs while the iteration is suspended, before the abort check *)
  stopRequested : bool;
  (** the id the store gives the new attempt *)
  freshAttemptId : string;
  (** [generateFriendlyId("attempt")] *)
  freshFriendlyId : string;
  (** [generateTraceId()], [generateSpanId()] *)
  randomTraceId : string;
  randomSpanId : string
}.

(** Field updates. *)
Definition set_consumer (c : EnvironmentQueueConsumer) (w : World) : World :=
  mkWorld c (marqs w) (prisma w) (queue w) (sent w) (tracer w) (timers w)
          (events w) (unhandledRejections w).
Definition set_prisma (db : Store) (w : World) : World :=
  mkWorld (consumer w) (marqs w) db (queue w) (sent w) (tracer w) (timers w)
          (events w) (unhandledRejections w).
Definition set_queue (q : list QueueAction) (w : World) : World :=
  mkWorld (consumer w) (marqs w) (prisma w) q (sent w) (tracer w) (timers w)
          (events w) (unhandledRejections w).
Definition set_sent (s : list BackgroundWorkerMessage) (w : World) : World :=
  mkWorld (consumer w) (marqs w) (prisma w) (queue w) s (tracer w) (timers w)
          (events w) (unhandledRejections w).
Definition set_tracer (t : list SpanEvent) (w : World) : World :=
  mkWorld (consumer w) (marqs w) (prisma w) (queue w) (sent w) t (timers w)
          (events w) (unhandledRejections w).
Definition set_timers (t : list Z) (w : World) : World :=
  mkWorld (consumer w) (marqs w) (prisma w) (queue w) (sent w) (tracer w) t
          (events w) (unhandledRejections w).
Definition set_events (e : list CreatableEvent) (w : World) : World :=
  mkWorld (consumer w) (marqs w) (prisma w) (queue w) (sent w) (tracer w)
          (timers w) e (unhandledRejections w).
Definition set_unhandledRejections (u : list string) (w : World) : World :=
  mkWorld (consumer w) (marqs w) (prisma w) (queue w) (sent w) (tracer w)
          (timers w) (events w) u.

Definition set_backgroundWorkers (m : list (string * BackgroundWorker))
  (c : EnvironmentQueueConsumer) : EnvironmentQueueConsumer :=
  mkConsumer (env c) m (_enabled c) (_options c) (_perTraceCountdown c)
    (_lastNewTrace c) (_currentSpanContext c) (_taskFailures c)
    (_taskSuccesses c) (_currentSpan c) (_endSpanInNextIteration c).
Definition set_enabled (b : bool) (c : EnvironmentQueueConsumer)
  : EnvironmentQueueConsumer :=
  mkConsumer (env c) (_backgroundWorkers c) b (_options c)
    (_perTraceCountdown c) (_lastNewTrace c) (_currentSpanContext c)
    (_taskFailures c) (_taskSuccesses c) (_currentSpan c)
    (_endSpanInNextIteration c).
Definition set_perTraceCountdown (n : option JsNumber)
  (c : EnvironmentQueueConsumer) : EnvironmentQueueConsumer :=
  mkConsumer (env c) (_backgroundWorkers c) (_enabled c) (_options c) n
    (_lastNewTrace c) (_currentSpanContext c) (_taskFailures c)
    (_taskSuccesses c) (_currentSpan c) (_endSpanInNextIteration c).
Definition set_lastNewTrace (t : option Z) (c : EnvironmentQueueConsumer)
  : EnvironmentQueueConsumer :=
  mkConsumer (env c) (_backgroundWorkers c) (_enabled c) (_options c)
    (_perTraceCountdown c) t (_currentSpanContext c) (_taskFailures c)
    (_taskSuccesses c) (_currentSpan c) (_endSpanInNextIteration c).
Definition set_currentSpanContext (x : option Context)
  (c : EnvironmentQueueConsumer) : EnvironmentQueueConsumer :=
  mkConsumer (env c) (_backgroundWorkers c) (_enabled c) (_options c)
    (_perTraceCountdown c) (_lastNewTrace c) x (_taskFailures c)
    (_taskSuccesses c) (_currentSpan c) (_endSpanInNextIteration c).
Definition set_taskFailures (n : Z) (c : EnvironmentQueueConsumer)
  : EnvironmentQueueConsumer :=
  mkConsumer (env c) (_backgroundWorkers c) (_enabled c) (_options c)
    (_perTraceCountdown c) (_lastNewTrace c) (_currentSpanContext c) n
    (_taskSuccesses c) (_currentSpan c) (_endSpanInNextIteration c).
Definition set_taskSuccesses (n : Z) (c : EnvironmentQueueConsumer)
  : EnvironmentQueueConsumer :=
  mkConsumer (env c) (_backgroundWorkers c) (_enabled c) (_options c)
    (_perTraceCountdown c) (_lastNewTrace c) (_currentSpanContext c)
    (_taskFailures c) n (_currentSpan c) (_endSpanInNextIteration c).
Definition set_currentSpan (s : option Span) (c : EnvironmentQueueConsumer)
  : EnvironmentQueueConsumer :=
  mkConsumer (env c) (_backgroundWorkers c) (_enabled c) (_options c)
    (_perTraceCountdown c) (_lastNewTrace c) (_currentSpanContext c)
    (_taskFailures c) (_taskSuccesses c) s (_endSpanInNextIteration c).
Definition set_endSpanInNextIteration (b : bool)
  (c : EnvironmentQueueConsumer) : EnvironmentQueueConsumer :=
  mkConsumer (env c) (_backgroundWorkers c) (_enabled c) (_options c)
    (_perTraceCountdown c) (_lastNewTrace c) (_currentSpanContext c)
    (_taskFailures c) (_taskSuccesses c) (_currentSpan c) b.

(** ** Asynchronous methods

    A completion is a returned value or a thrown exception (a rejected
    promise); the effects made before a throw stay in the world. *)

Inductive Completion (A : Type) : Type :=
| Returned (a : A)
| Threw (e : string).
Arguments Returned {A} a.
Arguments Threw {A} e.

Definition Async (A : Type) : Type := World -> Completion A * World.

Definition ret {A : Type} (a : A) : Async A := fun w => (Returned a, w).

Definition throw {A : Type} (e : string) : Async A := fun w => (Threw e, w).

Definition bind {A B : Type} (m : Async A) (k : A -> Async B) : Async B :=
  fun w =>
    match m w with
    | (Returned a, w') => k a w'
    | (Threw e, w') => (Threw e, w')
    end.

Declare Scope async_scope.
Delimit Scope async_scope with async.
Notation "x <- m ;; k" := (bind m (fun x => k))
  (at level 61, m at next level, right associativity) : async_scope.
Notation "m ;; k" := (bind m (fun _ => k))
  (at level 61, right associativity) : async_scope.
Open Scope async_scope.

(** [this] *)
Definition this : Async EnvironmentQueueConsumer :=
  fun w => (Returned (consumer w), w).

Definition update (f : EnvironmentQueueConsumer -> EnvironmentQueueConsumer)
  : Async unit :=
  fun w => (Returned tt, set_consumer (f (consumer w)) w).

(** [await] a collaborator call: it rejects when the ambient says so. *)
Definition await (inp : Ambient) (c : Call) : Async unit :=
  match rejects inp c with
  | Some e => throw e
  | None => ret tt
  end.

(** [try { body } catch (e) { handler } finally { final }] *)
Definition try_catch_finally {A : Type} (body : Async A)
  (handler : string -> Async A) (final : Async unit) : Async A :=
  fun w =>
    let '(r, w1) :=
      match body w with
      | (Returned a, w') => (Returned a, w')
      | (Threw e, w') => handler e w'
      end in
    match final w1 with
    | (Returned _, w2) => (r, w2)
    | (Threw e, w2) => (Threw e, w2)
    end.

(** A promise nobody awaits: a rejection is left unhandled. *)
Definition detach (m : Async unit) (w : World) : World :=
  match m w with
  | (Returned _, w') => w'
  | (Threw e, w') =>
      set_unhandledRejections (unhandledRejections w' ++ [e]) w'
  end.

(** *** Collaborators *)

(** [await marqs?.dequeueMessageInEnv(this.env)]; a pending [stop()] runs
    while the call is suspended. *)
Definition marqs_dequeueMessageInEnv (inp : Ambient)
  : Async (option QueueMessage) :=
  (if stopRequested inp then update (set_enabled false) else ret tt) ;;
  fun w =>
    if marqs w then (await inp DequeueMessageInEnv ;; ret (dequeued inp)) w
    else (Returned None, w).

(** [await marqs?.acknowledgeMessage(messageId)] *)
Definition marqs_acknowledgeMessage (inp : Ambient) (messageId : string)
  : Async unit :=
  fun w =>
    if marqs w then
      (await inp AcknowledgeMessage ;;
       fun w' => (Returned tt,
                  set_queue (queue w' ++ [Acknowledged messageId]) w')) w
    else (Returned tt, w).

(** [await marqs?.nackMessage(messageId, retryAt)] *)
Definition marqs_nackMessage (inp : Ambient) (messageId : string)
  (retryAt : option Z) : Async unit :=
  fun w =>
    if marqs w then
      (await inp NackMessage ;;
       fun w' => (Returned tt,
                  set_queue (queue w' ++ [Nacked messageId retryAt]) w')) w
    else (Returned tt, w).

(** [await marqs?.heartbeatMessage(messageId, seconds)] *)
Definition marqs_heartbeatMessage (inp : Ambient) (messageId : string)
  (seconds : Z) : Async unit :=
  fun w =>
    if marqs w then
      (await inp HeartbeatMessage ;;
       fun w' => (Returned tt,
                  set_queue (queue w' ++ [Heartbeat messageId seconds]) w')) w
    else (Returned tt, w).

(** [setTimeout(() => this.#doWork(), ms)] *)
Definition setTimeout_doWork (ms : Z) : Async unit :=
  fun w => (Returned tt, set_timers (timers w ++ [ms]) w).

(** [await prisma.taskRun.findUnique(...)] *)
Definition prisma_taskRun_findUnique (inp : Ambient) (id : string)
  : Async (option TaskRun) :=
  await inp TaskRunFindUnique ;;
  fun w => (Returned (taskRun_findUnique (prisma w) id), w).

(** [await prisma.taskRun.update(...)] of the lock step: the locked run with
    its last attempt, or [null]. *)
Definition prisma_taskRun_update_lock (inp : Ambient) (id lockedById : string)
  : Async (option (TaskRun * list TaskRunAttempt)) :=
  await inp TaskRunUpdate ;;
  fun w =>
    if lockUpdateFails inp then (Returned None, w)
    else
      match taskRun_update (prisma w) id (Some (now inp)) (Some lockedById) with
      | None => (Returned None, w)
      | Some (db', r) =>
          (Returned (Some (r, lastAttempts db' id)), set_prisma db' w)
      end.

(** [await prisma.taskQueue.findUnique(...)] *)
Definition prisma_taskQueue_findUnique (inp : Ambient) (envId name : string)
  : Async (option TaskQueue) :=
  await inp TaskQueueFindUnique ;;
  fun w => (Returned (taskQueue_findUnique (prisma w) envId name), w).

(** [await prisma.taskRunAttempt.create({ data })] *)
Definition prisma_taskRunAttempt_create (inp : Ambient) (a : TaskRunAttempt)
  : Async TaskRunAttempt :=
  await inp TaskRunAttemptCreate ;;
  fun w =>
    match taskRunAttempt_create (prisma w) a with
    | Some db' => (Returned a, set_prisma db' w)
    | None => (Threw "Unique constraint failed on the fields: (`id`)", w)
    end.

(** [await prisma.$transaction([taskRun.update(unlock),
    taskRunAttempt.delete])]: both writes or none. *)
Definition prisma_transaction_unlock_delete (inp : Ambient)
  (runId attemptId : string) : Async unit :=
  await inp Transaction ;;
  fun w =>
    match taskRun_update (prisma w) runId None None with
    | None => (Threw "Record to update not found.", w)
    | Some (db1, _) =>
        match taskRunAttempt_delete db1 attemptId with
        | None => (Threw "Record to delete does not exist.", w)
        | Some db2 => (Returned tt, set_prisma db2 w)
        end
    end.

(** [await this._sender.send("BACKGROUND_WORKER_MESSAGE", message)] *)
Definition sender_send (inp : Ambient) (m : BackgroundWorkerMessage)
  : Async unit :=
  await inp SenderSend ;;
  fun w => (Returned tt, set_sent (sent w ++ [m]) w).

(** [tracer.startSpan("EnvironmentQueueConsumer.doWork()", ...)] *)
Definition isStart (e : SpanEvent) : bool :=
  match e with StartSpan _ _ _ => true | _ => false end.

Definition tracer_startSpan (name : string) : Async Span :=
  fun w =>
    let s := List.length (filter isStart (tracer w)) in
    (Returned s,
     set_tracer (tracer w ++ [StartSpan s name (env_id (env (consumer w)))]) w).

Definition span_emit (e : SpanEvent) : Async unit :=
  fun w => (Returned tt, set_tracer (tracer w ++ [e]) w).

(** ** The methods of [EnvironmentQueueConsumer] *)

(** [#getLatestBackgroundWorker]: [workers.reduce] without an initial value
    starts from the first worker. *)
Definition getLatestBackgroundWorker (c : EnvironmentQueueConsumer)
  : option BackgroundWorker :=
  match map snd (_backgroundWorkers c) with
  | [] => None
  | first :: rest =>
      Some (fold_left
              (fun acc curr =>
                 if string_gt (bw_version acc) (bw_version curr)
                 then acc else curr)
              rest first)
  end.

(** Step 4 of the iteration: [existingTaskRun.lockedToVersionId ?
    this._backgroundWorkers.get(...) : this.#getLatestBackgroundWorker()];
    the empty string is falsy. *)
Definition selectBackgroundWorker (c : EnvironmentQueueConsumer)
  (existingTaskRun : TaskRun) : option BackgroundWorker :=
  match run_lockedToVersionId existingTaskRun with
  | Some v =>
      if String.eqb v "" then getLatestBackgroundWorker c
      else lookup v (_backgroundWorkers c)
  | None => getLatestBackgroundWorker c
  end.

(** Step 5: [backgroundWorker.tasks.find((task) => task.slug ===
    existingTaskRun.taskIdentifier)] *)
Definition findBackgroundTask (backgroundWorker : BackgroundWorker)
  (existingTaskRun : TaskRun) : option BackgroundWorkerTask :=
  find (fun task => String.eqb (task_slug task)
                      (run_taskIdentifier existingTaskRun))
       (bw_tasks backgroundWorker).

(** Step 9: [lockedTaskRun.attempts[0] ? lockedTaskRun.attempts[0].number + 1
    : 1] *)
Definition nextAttemptNumber (attempts : list TaskRunAttempt) : Z :=
  match attempts with
  | a :: _ => att_number a + 1
  | [] => 1
  end.

(** Step 10: the execution descriptor. *)
Definition buildExecution (c : EnvironmentQueueConsumer)
  (backgroundWorker : BackgroundWorker) (backgroundTask : BackgroundWorkerTask)
  (lockedTaskRun : TaskRun) (queue : TaskQueue)
  (taskRunAttempt : TaskRunAttempt) : TaskRunExecution :=
  mkExecution
    (mkExecTask (task_slug backgroundTask) (task_filePath backgroundTask)
                (task_exportName backgroundTask))
    (mkExecAttempt (att_friendlyId taskRunAttempt) (att_number taskRunAttempt)
       (match att_startedAt taskRunAttempt with
        | Some t => t
        | None => att_createdAt taskRunAttempt
        end)
       (bw_id backgroundWorker) (task_id backgroundTask) EXECUTING)
    (mkExecRun (run_friendlyId lockedTaskRun) (run_payload lockedTaskRun)
       (run_payloadType lockedTaskRun) (run_context lockedTaskRun)
       (run_createdAt lockedTaskRun) (run_tags lockedTaskRun))
    (mkExecQueue (q_friendlyId queue) (q_name queue))
    (mkExecEnv (env_id (env c)) (env_slug (env c)) (env_type (env c)))
    (mkExecOrg (org_id (env_organization (env c)))
       (org_slug (env_organization (env c)))
       (org_title (env_organization (env c))))
    (mkExecProject (proj_id (env_project (env c)))
       (proj_externalRef (env_project (env c)))
       (proj_slug (env_project (env c))) (proj_name (env_project (env c)))).

(** The message of step 11. *)
Definition buildMessage (c : EnvironmentQueueConsumer)
  (backgroundWorker : BackgroundWorker) (backgroundTask : BackgroundWorkerTask)
  (lockedTaskRun : TaskRun) (queue : TaskQueue)
  (taskRunAttempt : TaskRunAttempt) : BackgroundWorkerMessage :=
  mkOutMessage (bw_friendlyId backgroundWorker)
    [mkPayload
       (buildExecution c backgroundWorker backgroundTask lockedTaskRun queue
                       taskRunAttempt)
       (run_traceContext lockedTaskRun)].

(** [this._currentSpan?.recordException(e)] *)
Definition recordExceptionOnCurrentSpan (e : string) : Async unit :=
  c <- this ;;
  match _currentSpan c with
  | Some s => span_emit (RecordException s e)
  | None => ret tt
  end.

(** The handler of the [catch] clause of step 11. *)
Definition onSendFailure (inp : Ambient) (message : QueueMessage)
  (lockedTaskRun : TaskRun) (taskRunAttempt : TaskRunAttempt) (e : string)
  : Async unit :=
  recordExceptionOnCurrentSpan e ;;
  update (set_endSpanInNextIteration true) ;;
  prisma_transaction_unlock_delete inp (run_id lockedTaskRun)
    (att_id taskRunAttempt) ;;
  marqs_nackMessage inp (msg_messageId message) None.

(** [#doWorkInternal] *)
Definition doWorkInternal (inp : Ambient) : Async unit :=
  message <- marqs_dequeueMessageInEnv inp ;;
  match message with
  | None => setTimeout_doWork 1000
  | Some message =>
  match MessageBody_safeParse (msg_data message) with
  | None =>
      marqs_acknowledgeMessage inp (msg_messageId message) ;;
      setTimeout_doWork 100
  | Some messageBody =>
  existingTaskRun <- prisma_taskRun_findUnique inp (msg_messageId message) ;;
  match existingTaskRun with
  | None =>
      marqs_acknowledgeMessage inp (msg_messageId message) ;;
      setTimeout_doWork 100
  | Some existingTaskRun =>
  c <- this ;;
  match selectBackgroundWorker c existingTaskRun with
  | None =>
      marqs_acknowledgeMessage inp (msg_messageId message) ;;
      setTimeout_doWork 100
  | Some backgroundWorker =>
  match findBackgroundTask backgroundWorker existingTaskRun with
  | None =>
      marqs_acknowledgeMessage inp (msg_messageId message) ;;
      setTimeout_doWork 100
  | Some backgroundTask =>
  lockedTaskRun <- prisma_taskRun_update_lock inp (msg_messageId message)
                     (task_id backgroundTask) ;;
  match lockedTaskRun with
  | None =>
      marqs_acknowledgeMessage inp (msg_messageId message) ;;
      setTimeout_doWork 100
  | Some (lockedTaskRun, attempts) =>
  queue <- prisma_taskQueue_findUnique inp (env_id (env c))
             (run_queue lockedTaskRun) ;;
  match queue with
  | None =>
      marqs_nackMessage inp (msg_messageId message) None ;;
      setTimeout_doWork 1000
  | Some queue =>
  c' <- this ;;
  if negb (_enabled c') then
    marqs_nackMessage inp (msg_messageId message) None
  else
  taskRunAttempt <-
    prisma_taskRunAttempt_create inp
      (mkAttempt (freshAttemptId inp) (freshFriendlyId inp)
         (nextAttemptNumber attempts) (run_id lockedTaskRun) EXECUTING
         (now inp) (Some (now inp)) None (task_workerId backgroundTask)
         (task_id backgroundTask) (q_id queue) None None None) ;;
  try_catch_finally
    (sender_send inp
       (buildMessage c' backgroundWorker backgroundTask lockedTaskRun queue
                     taskRunAttempt))
    (onSendFailure inp message lockedTaskRun taskRunAttempt)
    (setTimeout_doWork 100)
  end end end end end end end.

(** The test of [#doWork] for an expired trace window. [||] evaluates its
    operands in order: [this._lastNewTrace!.getTime()] throws a [TypeError]
    when the countdown is not [0] and no window was ever opened. *)
Definition traceExpired (inp : Ambient) : Async bool :=
  c <- this ;;
  if is_zero (_perTraceCountdown c) then ret true
  else
    match _lastNewTrace c with
    | None =>
        throw "TypeError: Cannot read properties of undefined (reading 'getTime')"
    | Some opened =>
        ret ((now inp - opened >? traceTimeoutSeconds (_options c) * 1000)
             || (match _currentSpanContext c with None => true | _ => false end)
             || _endSpanInNextIteration c)
    end.

(** The body of the [if] of [#doWork]: close the current span, open a new
    one, reset the window. *)
Definition newTrace (inp : Ambient) : Async unit :=
  c <- this ;;
  match _currentSpan c with
  | Some s =>
      span_emit (SetAttribute s "tasks.period.failures" (_taskFailures c)) ;;
      span_emit (SetAttribute s "tasks.period.successes" (_taskSuccesses c)) ;;
      span_emit (EndSpan s)
  | None => ret tt
  end ;;
  s <- tracer_startSpan "EnvironmentQueueConsumer.doWork()" ;;
  update (set_currentSpan (Some s)) ;;
  update (set_currentSpanContext (Some (ContextWithSpan s))) ;;
  update (fun c => set_perTraceCountdown
                     (Some (Num (maximumItemsPerTrace (_options c)))) c) ;;
  update (set_lastNewTrace (Some (now inp))) ;;
  update (set_taskFailures 0) ;;
  update (set_taskSuccesses 0) ;;
  update (set_endSpanInNextIteration false).

(** The [if] statement of [#doWork]: "Check if the trace has expired". *)
Definition checkTraceWindow (inp : Ambient) : Async unit :=
  expired <- traceExpired inp ;;
  if expired then newTrace inp else ret tt.

(** [this._perTraceCountdown = this._perTraceCountdown! - 1] *)
Definition countDown : Async unit :=
  update (fun c => set_perTraceCountdown
                     (Some (js_sub (_perTraceCountdown c) 1)) c).

(** [#doWork] *)
Definition doWork (inp : Ambient) : Async unit :=
  c <- this ;;
  if negb (_enabled c) then ret tt
  else
    checkTraceWindow inp ;;
    doWorkInternal inp ;;
    countDown.

(** [#enable]; the promise of [#doWork()] is not awaited. *)
Definition enable (inp : Ambient) (w : World) : World :=
  if _enabled (consumer w) then w
  else
    let c := consumer w in
    let c := set_enabled true c in
    let c := set_perTraceCountdown
               (Some (Num (maximumItemsPerTrace (_options c)))) c in
    let c := set_lastNewTrace (Some (now inp)) c in
    let c := set_taskFailures 0 c in
    let c := set_taskSuccesses 0 c in
    detach (doWork inp) (set_consumer c w).

(** [registerBackgroundWorker] *)
Definition registerBackgroundWorker (inp : Ambient) (id : string)
  : Async unit :=
  await inp BackgroundWorkerFindUnique ;;
  c <- this ;;
  fun w =>
    match backgroundWorker_findUnique (prisma w) id (env_id (env c)) with
    | None => (Returned tt, w)
    | Some backgroundWorker =>
        (update (fun c => set_backgroundWorkers
                   (set (bw_id backgroundWorker) backgroundWorker
                        (_backgroundWorkers c)) c) ;;
         fun w' => (Returned tt, enable inp w')) w
    end.

(** [stop] *)
Definition stop : Async unit := update (set_enabled false).

(** [taskHeartbeat] *)
Definition taskHeartbeat (inp : Ambient) (workerId id : string)
  (seconds : option Z) : Async unit :=
  await inp TaskRunAttemptFindUnique ;;
  fun w =>
    match find (fun a => String.eqb (att_friendlyId a) id)
               (taskRunAttempt (prisma w)) with
    | None => (Returned tt, w)
    | Some taskRunAttempt =>
        marqs_heartbeatMessage inp (att_taskRunId taskRunAttempt)
          (match seconds with Some s => s | None => 60 end) w
    end.

(** A pending timer fires: [#doWork()] runs, and nobody awaits it. *)
Fixpoint remove_nth {A : Type} (k : nat) (l : list A) : list A :=
  match l, k with
  | [], _ => []
  | _ :: rest, O => rest
  | x :: rest, S k' => x :: remove_nth k' rest
  end.

(** The iteration is run in one piece, as when no other handler comes in
    before it ends; only a [stop()] at the dequeue is seen inside it
    ([stopRequested]). Iterations that start while another one waits for
    the queue are the matter of [turn], further down. *)
Definition fireTimer (inp : Ambient) (k : nat) (w : World) : World :=
  match nth_error (timers w) k with
  | None => w
  | Some _ => detach (doWork inp) (set_timers (remove_nth k (timers w)) w)
  end.

(** ** Recording trace events ([EventRepository]) *)

(** What the two files import from [@trigger.dev/core/v3],
    [@opentelemetry/semantic-conventions], [node:crypto] and [Date], and
    whose code is not part of them: the attribute-name constants, the
    flattening of an object into attributes, the retry schema and defaults,
    the run-context schema, SHA-1 and the ISO rendering of a date. *)
Record Imports : Type := mkImports {
  ENVIRONMENT_ID : string;
  ENVIRONMENT_TYPE : string;
  ORGANIZATION_ID : string;
  PROJECT_ID : string;
  PROJECT_REF : string;
  RUN_ID : string;
  TASK_SLUG : string;
  STYLE_ICON : string;
  STYLE : string;
  METADATA : string;
  SERVICE_NAME : string;
  SERVICE_NAMESPACE : string;
  flattenAttributes : Attributes -> string -> Attributes;
  defaultRetryOptions : RetryOptions;
  (** [RetryOptions.parse]; [None] when it throws *)
  RetryOptions_parse : Json -> option RetryOptions;
  (** [TaskRunContext.parse(execution)], as the fields of the context *)
  TaskRunContext_parse : TaskRunExecution -> Attributes;
  (** the bytes of [createHash("sha1").update(a).update(b).digest()] *)
  sha1 : string -> list Z;
  toISOString : Z -> string
}.

(** Truthiness of a stored JSON value. *)
Definition truthy (j : Json) : bool :=
  match j with
  | JNull => false
  | JBool b => b
  | JNum z => negb (z =? 0)
  | JStr s => negb (String.eqb s "")
  | JArr _ => true
  | JObj _ => true
  end.

Definition json_of_option_string (o : option string) : Json :=
  match o with Some s => JStr s | None => JNull end.
Definition json_of_option_Z (o : option Z) : Json :=
  match o with Some z => JNum z | None => JNull end.
Definition json_of_option_bool (o : option bool) : Json :=
  match o with Some b => JBool b | None => JNull end.

(** [s.split("-")] *)
Fixpoint split_dash (s : string) : list string :=
  match s with
  | EmptyString => [EmptyString]
  | String c rest =>
      if Ascii.eqb c "-"%char then EmptyString :: split_dash rest
      else
        match split_dash rest with
        | [] => [String c EmptyString]
        | p :: ps => String c p :: ps
        end
  end.

(** [parseTraceparent]: the trace id and the span id. *)
Definition parseTraceparent (traceparent : option string)
  : option (string * string) :=
  match traceparent with
  | None => None
  | Some t =>
      if String.eqb t "" then None
      else
        match split_dash t with
        | [version; traceId; spanId; flags] =>
            if String.eqb version "00" then Some (traceId, spanId) else None
        | _ => None
        end
  end.

(** [extractContextFromCarrier] *)
Definition extractContextFromCarrier (carrier : list (string * string))
  : option (string * string) * option string :=
  (parseTraceparent (lookup "traceparent" carrier),
   lookup "tracestate" carrier).

Definition hexDigit (n : Z) : string :=
  match n with
  | 0 => "0" | 1 => "1" | 2 => "2" | 3 => "3" | 4 => "4" | 5 => "5"
  | 6 => "6" | 7 => "7" | 8 => "8" | 9 => "9" | 10 => "a" | 11 => "b"
  | 12 => "c" | 13 => "d" | 14 => "e" | _ => "f"
  end.

(** [val.toString(16).padStart(2, "0")] for a byte. *)
Definition hexByte (val : Z) : string :=
  hexDigit (val / 16) ++ hexDigit (val mod 16).

(** [stripAttributePrefix] *)
Definition stripAttributePrefix (attributes : Attributes) (prefix : string)
  : Attributes :=
  fold_left
    (fun result kv =>
       if String.prefix prefix (fst kv)
       then set (substring (String.length prefix + 1)
                           (String.length (fst kv)) (fst kv))
                (snd kv) result
       else set (fst kv) (snd kv) result)
    attributes [].

Section WithImports.

Variable core : Imports.

(** [#generateDeterministicSpanId]: the first 8 bytes of the digest, in
    hexadecimal. *)
Definition generateDeterministicSpanId (traceId seed : string) : string :=
  let buffer := sha1 core (traceId ++ seed) in
  fold_left (fun hexString i => hexString ++ hexByte (nth i buffer 0))
            (seq 0 8) "".

(** The event [recordEvent] builds, or the error it throws. *)
Definition buildEvent (inp : Ambient) (message : string)
  (options : TraceEventOptions) : Completion CreatableEvent :=
  let propagatedContext :=
    extractContextFromCarrier
      (match teo_context options with Some c => c | None => [] end) in
  let startTime :=
    match teo_startTime options with Some t => t | None => now inp end in
  let durationInMs :=
    match teo_endTime options with
    | Some endTime => endTime - startTime
    | None => 100
    end in
  let traceId :=
    match fst propagatedContext with
    | Some (traceId, _) => traceId
    | None => randomTraceId inp
    end in
  let parentId := option_map snd (fst propagatedContext) in
  let tracestate := snd propagatedContext in
  let spanId :=
    match teo_spanIdSeed options with
    | Some seed =>
        if String.eqb seed "" then randomSpanId inp
        else generateDeterministicSpanId traceId seed
    | None => randomSpanId inp
    end in
  let environment := teo_environment options in
  let attributes := teo_attributes options in
  let metadata :=
    spread
      (spread []
         [(ENVIRONMENT_ID core, JStr (env_id environment));
          (ENVIRONMENT_TYPE core, JStr (env_type environment));
          (ORGANIZATION_ID core, JStr (env_organizationId environment));
          (PROJECT_ID core, JStr (env_projectId environment));
          (PROJECT_REF core,
           JStr (proj_externalRef (env_project environment)));
          (RUN_ID core, json_of_option_string (ta_runId attributes));
          (TASK_SLUG core, JStr (teo_taskSlug options));
          (SERVICE_NAME core, JStr "api server");
          (SERVICE_NAMESPACE core, JStr "trigger.dev")])
      (match ta_metadata attributes with Some m => m | None => [] end) in
  let style := [(STYLE_ICON core, JStr "play")] in
  match ta_runId attributes with
  | None => Threw "runId is required"
  | Some runId =>
      if String.eqb runId "" then Threw "runId is required"
      else
        Returned
          (mkEvent traceId spanId parentId tracestate message "api server"
             "trigger.dev" "TRACE" (teo_kind options) "OK" startTime false
             (durationInMs * 1000000) (env_id environment)
             (env_type environment) (env_organizationId environment)
             (env_projectId environment)
             (proj_externalRef (env_project environment)) runId
             (teo_taskSlug options) (ta_queueId attributes)
             (ta_queueName attributes)
             (spread
                (spread style (flattenAttributes core metadata (METADATA core)))
                (match ta_properties attributes with
                 | Some p => p
                 | None => []
                 end))
             metadata
             (stripAttributePrefix style (STYLE core))
             None)
  end.

(** [recordEvent]: the event goes to the batch of the flush scheduler. *)
Definition recordEvent (inp : Ambient) (message : string)
  (options : TraceEventOptions) : Async CreatableEvent :=
  fun w =>
    match buildEvent inp message options with
    | Threw e => (Threw e, w)
    | Returned event => (Returned event, set_events (events w ++ [event]) w)
    end.

(** ** Completion of a run *)

(** [{ ...defaultRetryOptions, ...RetryOptions.parse(retryConfig) }]: a key
    the stored configuration leaves out keeps its default. *)
Definition mergeRetryOptions (defaults parsed : RetryOptions) : RetryOptions :=
  let pick {A : Type} (p d : option A) :=
    match p with Some v => Some v | None => d end in
  mkRetryOptions
    (pick (maxAttempts parsed) (maxAttempts defaults))
    (pick (factor parsed) (factor defaults))
    (pick (minTimeoutInMs parsed) (minTimeoutInMs defaults))
    (pick (maxTimeoutInMs parsed) (maxTimeoutInMs defaults))
    (pick (randomize parsed) (randomize defaults)).

(** [#generateMetadataAttributesForNextAttempt] *)
Definition generateMetadataAttributesForNextAttempt
  (execution : TaskRunExecution) : Attributes :=
  let context := TaskRunContext_parse core execution in
  let context :=
    set "attempt"
        (JObj [("number", JNum (ea_number (ex_attempt execution) + 1))])
        context in
  flattenAttributes core context "ctx".

Definition with_completion (status : AttemptStatus) (completedAt : Z)
  (output outputType : option string) (error : option Json)
  (a : TaskRunAttempt) : TaskRunAttempt :=
  mkAttempt (att_id a) (att_friendlyId a) (att_number a) (att_taskRunId a)
    status (att_createdAt a) (att_startedAt a) (Some completedAt)
    (att_backgroundWorkerId a) (att_backgroundWorkerTaskId a) (att_queueId a)
    output outputType error.

(** [await prisma.taskRunAttempt.update({ where: { friendlyId }, data,
    include: { taskRun: true, backgroundWorkerTask: true } })]: the updated
    attempt with its run and its task; it rejects when a row is missing. *)
Definition prisma_taskRunAttempt_update (inp : Ambient) (friendlyId : string)
  (f : TaskRunAttempt -> TaskRunAttempt)
  : Async (TaskRunAttempt * TaskRun * BackgroundWorkerTask) :=
  await inp TaskRunAttemptUpdate ;;
  fun w =>
    let db := prisma w in
    match find (fun a => String.eqb (att_friendlyId a) friendlyId)
               (taskRunAttempt db) with
    | None => (Threw "Record to update not found.", w)
    | Some a =>
        match taskRun_findUnique db (att_taskRunId a),
              backgroundWorkerTask_findUnique db
                (att_backgroundWorkerTaskId a) with
        | Some r, Some t =>
            (Returned (f a, r, t),
             set_prisma
               (with_taskRunAttempt
                  (map (fun x => if String.eqb (att_id x) (att_id a)
                                 then f x else x)
                       (taskRunAttempt db)) db) w)
        | _, _ => (Threw "Record to update not found.", w)
        end
    end.

(** [retryConfig?.maxAttempts ? `Retry N/MAX delay` : `Retry #N delay`] *)
Definition retryMessage (retryConfig : option RetryOptions)
  (execution : TaskRunExecution) : string :=
  let n := ea_number (ex_attempt execution) in
  match retryConfig with
  | Some rc =>
      match maxAttempts rc with
      | Some m =>
          if m =? 0 then "Retry #" ++ string_of_Z n ++ " delay"
          else "Retry " ++ string_of_Z n ++ "/" ++ string_of_Z (m - 1)
               ++ " delay"
      | None => "Retry #" ++ string_of_Z n ++ " delay"
      end
  | None => "Retry #" ++ string_of_Z n ++ " delay"
  end.

(** The options [taskRunCompleted] hands to [recordEvent]. *)
Definition retryEventOptions (c : EnvironmentQueueConsumer)
  (retryConfig : option RetryOptions) (retryAt : Z)
  (execution : TaskRunExecution) (taskRunAttempt : TaskRunAttempt)
  (taskRun : TaskRun) : TraceEventOptions :=
  let field {A : Type} (get : RetryOptions -> option A) : option A :=
    match retryConfig with Some rc => get rc | None => None end in
  mkTraceEventOptions None (Some (run_traceContext taskRun))
    (Some ("retry-" ++ string_of_Z (att_number taskRunAttempt + 1)))
    (mkTraceAttributes None None (Some (att_taskRunId taskRunAttempt)) None
       (Some (generateMetadataAttributesForNextAttempt execution))
       (Some [("retryAt", JStr (toISOString core retryAt));
              ("factor", json_of_option_Z (field factor));
              ("maxAttempts", json_of_option_Z (field maxAttempts));
              ("minTimeoutInMs", json_of_option_Z (field minTimeoutInMs));
              ("maxTimeoutInMs", json_of_option_Z (field maxTimeoutInMs));
              ("randomize", json_of_option_bool (field randomize))])
       (Some [("icon", JStr "schedule-attempt")])
       (Some (att_queueId taskRunAttempt)) (Some (run_queue taskRun)))
    (env c) (run_taskIdentifier taskRun) None (Some retryAt).

(** [taskRunCompleted]. The [data] of an update names the columns it
    writes: a success writes the status, the completion time, the output
    and its type, and leaves [error] as it was; a failure writes the
    status, the completion time and the error, and leaves the output and
    its type as they were. A column whose value is [undefined] (a success
    with no [output]) is not written. *)
Definition taskRunCompleted (inp : Ambient) (workerId : string)
  (completion : TaskRunExecutionResult) (execution : TaskRunExecution)
  : Async unit :=
  updated <-
    match completion with
    | Success id output outputType =>
        prisma_taskRunAttempt_update inp id
          (fun a => with_completion COMPLETED (now inp)
                      (match output with
                       | Some o => Some o
                       | None => att_output a
                       end)
                      (Some outputType) (att_error a) a)
    | Failure id error _ =>
        prisma_taskRunAttempt_update inp id
          (fun a => with_completion FAILED (now inp) (att_output a)
                      (att_outputType a) (Some error) a)
    end ;;
  let '(taskRunAttempt, taskRun, backgroundWorkerTask) := updated in
  (match att_status taskRunAttempt with
   | COMPLETED => update (fun c => set_taskSuccesses (_taskSuccesses c + 1) c)
   | _ => update (fun c => set_taskFailures (_taskFailures c + 1) c)
   end) ;;
  match completion with
  | Failure _ _ (Some timestamp) =>
      retryConfig <-
        match task_retryConfig backgroundWorkerTask with
        | Some cfg =>
            if truthy cfg then
              match RetryOptions_parse core cfg with
              | Some parsed =>
                  ret (Some (mergeRetryOptions (defaultRetryOptions core)
                                               parsed))
              | None => throw "ZodError"
              end
            else ret None
        | None => ret None
        end ;;
      let retryAt := timestamp in
      c <- this ;;
      recordEvent inp (retryMessage retryConfig execution)
        (retryEventOptions c retryConfig retryAt execution taskRunAttempt
                           taskRun) ;;
      marqs_nackMessage inp (att_taskRunId taskRunAttempt) (Some timestamp)
  | _ => marqs_acknowledgeMessage inp (att_taskRunId taskRunAttempt)
  end.

(** ** Runs of the dispatcher

    What can happen to a dispatcher over its life: the worker registers a
    version, a pending timer fires, the worker reports a completion or a
    heartbeat, the connection closes. A rejection of a handler is left to
    the transport. *)
Inductive Operation : Type :=
| Register (inp : Ambient) (id : string)
| Timer (inp : Ambient) (k : nat)
| Completed (inp : Ambient) (workerId : string)
    (completion : TaskRunExecutionResult) (execution : TaskRunExecution)
| HeartbeatOf (inp : Ambient) (workerId id : string)
| Stop.

Definition perform (op : Operation) (w : World) : World :=
  match op with
  | Register inp id => snd (registerBackgroundWorker inp id w)
  | Timer inp k => fireTimer inp k w
  | Completed inp workerId completion execution =>
      snd (taskRunCompleted inp workerId completion execution w)
  | HeartbeatOf inp workerId id => snd (taskHeartbeat inp workerId id None w)
  | Stop => snd (stop w)
  end.

Definition performAll (ops : list Operation) (w : World) : World :=
  fold_left (fun w op => perform op w) ops w.

End WithImports.

(** ** Vocabulary of the specification *)

(** The identifiers a [BACKGROUND_WORKER_MESSAGE] carries to the worker. *)
Definition identifiersOf (e : TaskRunExecution) : list string :=
  [ea_id (ex_attempt e); ea_backgroundWorkerId (ex_attempt e);
   ea_backgroundWorkerTaskId (ex_attempt e); er_id (ex_run e);
   eq_id (ex_queue e); ee_id (ex_environment e); eo_id (ex_organization e);
   ep_id (ex_project e)].

Definition outboundIdentifiers (m : BackgroundWorkerMessage) : list string :=
  out_backgroundWorkerId m
  :: flat_map (fun p => identifiersOf (pl_execution p)) (out_payloads m).

(** The internal database ids: the primary keys of the rows of the store and
    of the tenant records of the environment. *)
Definition databaseIds (w : World) : list string :=
  let e := env (consumer w) in
  [env_id e; org_id (env_organization e); proj_id (env_project e)]
  ++ map run_id (taskRun (prisma w))
  ++ map att_id (taskRunAttempt (prisma w))
  ++ map q_id (taskQueue (prisma w))
  ++ map bw_id (backgroundWorker (prisma w))
  ++ map task_id (flat_map bw_tasks (backgroundWorker (prisma w))).

(** The friendly ids the rows of the store carry. *)
Definition friendlyIds (w : World) : list string :=
  map run_friendlyId (taskRun (prisma w))
  ++ map att_friendlyId (taskRunAttempt (prisma w))
  ++ map q_friendlyId (taskQueue (prisma w))
  ++ map bw_friendlyId (backgroundWorker (prisma w)).

(** The attempt numbers of a run, in the order the attempts were created. *)
Definition attemptNumbers (db : Store) (runId : string) : list Z :=
  map att_number (attemptsOf db runId).

(** [n] is the highest of [numbers] plus one, and 1 when there is none. *)
Definition followsHighest (numbers : list Z) (n : Z) : Prop :=
  (numbers = [] /\ n = 1)
  \/ exists highest,
       In highest numbers
       /\ (forall x, In x numbers -> x <= highest)
       /\ n = highest + 1.

(** [1, 2, ..., n] *)
Definition oneTo (n : nat) : list Z := map Z.of_nat (seq 1 n).

(** The attempt numbers of every run are [1, 2, 3, ...]: no gap, no
    duplicate. *)
Definition sequentialAttempts (db : Store) : Prop :=
  forall runId, exists n, attemptNumbers db runId = oneTo n.

(** The states the dispatcher can be in: a window was opened before the loop
    was enabled, and the span and its context are set together. *)
Definition coherent (c : EnvironmentQueueConsumer) : Prop :=
  (_enabled c = true -> _lastNewTrace c <> None)
  /\ (_currentSpanContext c = None <-> _currentSpan c = None).

(** The conditions under which the trace window rolls over. *)
Definition rolloverDue (inp : Ambient) (c : EnvironmentQueueConsumer)
  (opened : Z) : Prop :=
  _perTraceCountdown c = Some (Num 0)
  \/ now inp - opened > traceTimeoutSeconds (_options c) * 1000
  \/ _currentSpan c = None
  \/ _endSpanInNextIteration c = true.

(** What the tracer is asked when a span is closed at rollover. *)
Definition closing (c : EnvironmentQueueConsumer) : list SpanEvent :=
  match _currentSpan c with
  | Some s =>
      [SetAttribute s "tasks.period.failures" (_taskFailures c);
       SetAttribute s "tasks.period.successes" (_taskSuccesses c);
       EndSpan s]
  | None => []
  end.

(** An iteration that gets as far as the transport send: a message is
    dequeued and parses, its run is found, a worker version and a task
    match, the lock and the queue row are there, the dispatcher is still
    enabled and the store accepts the new attempt. *)
Record ReachesSend (inp : Ambient) (w : World) (message : QueueMessage)
  (run : TaskRun) (worker : BackgroundWorker) (task : BackgroundWorkerTask)
  (q : TaskQueue) : Prop := mkReachesSend {
  rs_marqs : marqs w = true;
  rs_dequeued : dequeued inp = Some message;
  rs_parsed : MessageBody_safeParse (msg_data message) <> None;
  rs_run : taskRun_findUnique (prisma w) (msg_messageId message) = Some run;
  rs_worker : selectBackgroundWorker (consumer w) run = Some worker;
  rs_task : findBackgroundTask worker run = Some task;
  rs_lock : lockUpdateFails inp = false;
  rs_queue : taskQueue_findUnique (prisma w) (env_id (env (consumer w)))
               (run_queue run) = Some q;
  rs_enabled : _enabled (consumer w) = true;
  rs_not_stopped : stopRequested inp = false;
  rs_fresh : forall a, In a (taskRunAttempt (prisma w)) ->
                       att_id a <> freshAttemptId inp;
  rs_calls : forall c,
      In c [DequeueMessageInEnv; TaskRunFindUnique; TaskRunUpdate;
            TaskQueueFindUnique; TaskRunAttemptCreate] ->
      rejects inp c = None
}.

(** The run as the lock step leaves it, and the attempt step 9 inserts for
    it. *)
Definition lockedRun (inp : Ambient) (task : BackgroundWorkerTask)
  (run : TaskRun) : TaskRun :=
  with_lock (Some (now inp)) (Some (task_id task)) run.

Definition newAttempt (inp : Ambient) (db : Store) (run : TaskRun)
  (task : BackgroundWorkerTask) (q : TaskQueue) : TaskRunAttempt :=
  mkAttempt (freshAttemptId inp) (freshFriendlyId inp)
    (nextAttemptNumber (lastAttempts db (run_id run))) (run_id run)
    EXECUTING (now inp) (Some (now inp)) None (task_workerId task)
    (task_id task) (q_id q) None None None.

(** How an iteration ends when nothing escapes it: the next iteration is
    scheduled, in 100 ms or in 1000 ms, or the dispatcher was stopped and the
    message went back to the queue. *)
Definition ResumesOrStops (w w' : World) : Prop :=
  (exists ms, timers w' = (timers w ++ [ms])%list /\ (ms = 100 \/ ms = 1000))
  \/ (timers w' = timers w
      /\ _enabled (consumer w') = false
      /\ exists id, queue w' = (queue w ++ [Nacked id None])%list).

(** The poison outcomes of an iteration on a dequeued message. *)
Inductive Poison (inp : Ambient) (w : World) (message : QueueMessage) : Prop :=
| PoisonParse :
    MessageBody_safeParse (msg_data message) = None ->
    Poison inp w message
| PoisonRunMissing :
    MessageBody_safeParse (msg_data message) <> None ->
    rejects inp TaskRunFindUnique = None ->
    taskRun_findUnique (prisma w) (msg_messageId message) = None ->
    Poison inp w message
| PoisonNoWorker run :
    MessageBody_safeParse (msg_data message) <> None ->
    rejects inp TaskRunFindUnique = None ->
    taskRun_findUnique (prisma w) (msg_messageId message) = Some run ->
    selectBackgroundWorker (consumer w) run = None ->
    Poison inp w message
| PoisonNoTask run worker :
    MessageBody_safeParse (msg_data message) <> None ->
    rejects inp TaskRunFindUnique = None ->
    taskRun_findUnique (prisma w) (msg_messageId message) = Some run ->
    selectBackgroundWorker (consumer w) run = Some worker ->
    findBackgroundTask worker run = None ->
    Poison inp w message
| PoisonLockFailed run worker task :
    MessageBody_safeParse (msg_data message) <> None ->
    rejects inp TaskRunFindUnique = None ->
    taskRun_findUnique (prisma w) (msg_messageId message) = Some run ->
    selectBackgroundWorker (consumer w) run = Some worker ->
    findBackgroundTask worker run = Some task ->
    rejects inp TaskRunUpdate = None ->
    lockUpdateFails inp = true ->
    Poison inp w message.

(** ** A small deployment

    One environment, three versions of a worker with the task
    [send-email], one run and its queue: the data of the scenarios. *)
Module Scenario.

Definition organization : Organization := mkOrg "clorg0001" "acme" "Acme".

Definition project : Project :=
  mkProject "clproj0001" "proj_abcdefghijklmnopqrst" "emails" "Emails".

Definition environment : AuthenticatedEnvironment :=
  mkEnv "clenv0001" "dev" "DEVELOPMENT" "clorg0001" "clproj0001"
        organization project.

Definition sendEmail (taskId workerId : string) : BackgroundWorkerTask :=
  mkTask taskId "send-email" "src/trigger/email.ts" "sendEmail" workerId
         (Some (JObj [("maxAttempts", JNum 3)])).

Definition worker1 : BackgroundWorker :=
  mkWorker "clworker0001" "worker_one" "20240101.1" "clenv0001"
           [sendEmail "cltask0001" "clworker0001"].

Definition worker2 : BackgroundWorker :=
  mkWorker "clworker0002" "worker_two" "20240101.2" "clenv0001"
           [sendEmail "cltask0002" "clworker0002"].

Definition worker10 : BackgroundWorker :=
  mkWorker "clworker0010" "worker_ten" "20240101.10" "clenv0001"
           [sendEmail "cltask0010" "clworker0010"].

Definition r1 : TaskRun :=
  mkRun "clrun0001" "run_r1" "send-email" "task/send-email" "{}"
        "application/json" (JObj [])
        [("traceparent",
          "00-0af7651916cd43dd8448eb211c80319c-b7ad6b7169203331-01")]
        1000 [] None None None.

Definition q1 : TaskQueue :=
  mkQueue "clqueue0001" "queue_q1" "task/send-email" "clenv0001".

Definition store : Store :=
  mkStore [r1] [] [q1] [worker1; worker2; worker10].

(** A dispatcher just constructed, with the default options. *)
Definition fresh : World :=
  mkWorld (new_EnvironmentQueueConsumer environment None None) true store
          [] [] [] [] [] [].

Definition nothingRejects : Call -> option string := fun _ => None.

Definition onlyRejects (c : Call) (e : string) : Call -> option string :=
  fun c' =>
    match c, c' with
    | DequeueMessageInEnv, DequeueMessageInEnv => Some e
    | SenderSend, SenderSend => Some e
    | Transaction, Transaction => Some e
    | TaskRunFindUnique, TaskRunFindUnique => Some e
    | _, _ => None
    end.

(** The queue is empty. *)
Definition idle (t : Z) : Ambient :=
  mkAmbient t nothingRejects None false false "" "" "" "".

Definition execute : QueueMessage :=
  mkMessage "clrun0001"
    (JObj [("type", JStr "EXECUTE"); ("taskIdentifier", JStr "send-email")]).

(** The queue hands out the message of [r1]. *)
Definition delivering (t : Z) (m : QueueMessage) (attemptId friendlyId : string)
  (rej : Call -> option string) : Ambient :=
  mkAmbient t rej (Some m) false false attemptId friendlyId
            "5b8aa5a2d2c872e8321cf37308d69df2" "051581bf3cb55c13".

(** The worker registers version [20240101.1] at time 1000; the queue is
    still empty. *)
Definition registered : World :=
  snd (registerBackgroundWorker (idle 1000) "worker_one" fresh).

(** ... then version [20240101.2]. *)
Definition registeredTwo : World :=
  snd (registerBackgroundWorker (idle 1500) "worker_two" registered).

(** ... then the pending timer fires and the run is delivered. *)
Definition dispatched : World :=
  fireTimer (delivering 2000 execute "clattempt0001" "attempt_a1"
                        nothingRejects) 0 registered.

Definition dispatchedTwo : World :=
  fireTimer (delivering 2000 execute "clattempt0001" "attempt_a1"
                        nothingRejects) 0 registeredTwo.

(** The timer fires and the queue client rejects the dequeue. *)
Definition dequeueFails : Ambient :=
  mkAmbient 2000 (onlyRejects DequeueMessageInEnv "ECONNRESET") None false
            false "" "" "" "".

(** The same delivery, with a transport that throws. *)
Definition sendFails : Ambient :=
  delivering 2000 execute "clattempt0001" "attempt_a1"
             (onlyRejects SenderSend "socket closed").

(** Stand-ins for the imports, to run the completion handler: flat
    attributes are prefixed, the retry schema reads [maxAttempts] and
    [factor], a digest is the code of each character. *)
Definition imports : Imports :=
  mkImports "ctx.environment.id" "ctx.environment.type"
    "ctx.organization.id" "ctx.project.id" "ctx.project.ref" "ctx.run.id"
    "ctx.task.id" "$style.icon" "$style" "$metadata" "service.name"
    "service.namespace"
    (fun attrs prefix => map (fun kv => (prefix ++ "." ++ fst kv, snd kv)) attrs)
    (mkRetryOptions (Some 3) (Some 2) (Some 1000) (Some 60000) (Some true))
    (fun j =>
       match j with
       | JObj fields =>
           Some (mkRetryOptions
                   (match lookup "maxAttempts" fields with
                    | Some (JNum n) => Some n | _ => None end)
                   (match lookup "factor" fields with
                    | Some (JNum n) => Some n | _ => None end)
                   None None None)
       | _ => None
       end)
    (fun e => [("run", JObj [("id", JStr (er_id (ex_run e)))])])
    (fun s => map (fun a => Z.of_N (N_of_ascii a)) (list_ascii_of_string s))
    (fun t => string_of_Z t).

(** S2: the worker reports that attempt 1 of [r1] failed and is to be
    retried at time 9000. *)
Definition execution1 : TaskRunExecution :=
  let inp := delivering 2000 execute "clattempt0001" "attempt_a1"
                        nothingRejects in
  let task := sendEmail "cltask0001" "clworker0001" in
  buildExecution (consumer registered) worker1 task (lockedRun inp task r1) q1
                 (newAttempt inp store r1 task q1).

Definition retryAt9000 : TaskRunExecutionResult :=
  Failure "attempt_a1" (JObj [("message", JStr "boom")]) (Some 9000).

Definition completing (t : Z) : Ambient :=
  mkAmbient t nothingRejects None false false "" ""
            "5b8aa5a2d2c872e8321cf37308d69df2" "051581bf3cb55c13".

Definition retried : World :=
  snd (taskRunCompleted imports (completing 3000) "worker_one" retryAt9000
                        execution1 dispatched).

(** S5: a message whose body is [{ type: "UNKNOWN" }]. *)
Definition unknown : QueueMessage :=
  mkMessage "clrun0001" (JObj [("type", JStr "UNKNOWN")]).

Definition deliveringUnknown : Ambient :=
  delivering 2000 unknown "clattempt0001" "attempt_a1" nothingRejects.

(** A life of the dispatcher: registration, dispatch of [r1], the failure
    of its first attempt, and the redelivery at 9500. *)
Definition life : list Operation :=
  [Register (idle 1000) "worker_one";
   Timer (delivering 2000 execute "clattempt0001" "attempt_a1"
                     nothingRejects) 0;
   Completed (completing 3000) "worker_one" retryAt9000 execution1;
   Timer (delivering 9500 execute "clattempt0002" "attempt_a2"
                     nothingRejects) 0].

End Scenario.

(** ** More vocabulary: the paths of an iteration *)

(** An iteration that gets as far as the lock: a message is dequeued and
    parses, its run is found, a worker version and a task match, and the
    lock update goes through. *)
Record ReachesLock (inp : Ambient) (w : World) (message : QueueMessage)
  (run : TaskRun) (worker : BackgroundWorker) (task : BackgroundWorkerTask)
  : Prop := mkReachesLock {
  rl_marqs : marqs w = true;
  rl_dequeued : dequeued inp = Some message;
  rl_parsed : MessageBody_safeParse (msg_data message) <> None;
  rl_run : taskRun_findUnique (prisma w) (msg_messageId message) = Some run;
  rl_worker : selectBackgroundWorker (consumer w) run = Some worker;
  rl_task : findBackgroundTask worker run = Some task;
  rl_lock : lockUpdateFails inp = false;
  rl_calls : forall c,
      In c [DequeueMessageInEnv; TaskRunFindUnique; TaskRunUpdate;
            TaskQueueFindUnique; NackMessage] ->
      rejects inp c = None
}.

(** The queue action is an ack or an undelayed nack of the message. *)
Definition settles (message : QueueMessage) (a : QueueAction) : Prop :=
  a = Acknowledged (msg_messageId message)
  \/ a = Nacked (msg_messageId message) None.

(** ** More vocabulary: what the dispatcher keeps *)

(** The lock fields of every run are set together. *)
Definition lockPaired (db : Store) : Prop :=
  forall r, In r (taskRun db) ->
            (run_lockedAt r = None <-> run_lockedById r = None).

(** The store [db'] is [db] with some runs locked or unlocked, and possibly
    other attempts: the same queues and workers, and the same runs but for
    their lock fields. *)
Definition relocks (db db' : Store) : Prop :=
  taskQueue db' = taskQueue db
  /\ backgroundWorker db' = backgroundWorker db
  /\ map (with_lock None None) (taskRun db')
     = map (with_lock None None) (taskRun db)
  /\ (lockPaired db -> lockPaired db').

(** The spans open after a log of tracer requests, from the spans [open]
    before it. *)
Definition spanStep (open : list Span) (e : SpanEvent) : list Span :=
  match e with
  | StartSpan s _ _ => (open ++ [s])%list
  | EndSpan s => filter (fun x => negb (Nat.eqb x s)) open
  | _ => open
  end.

Definition openAfter (log : list SpanEvent) (open : list Span) : list Span :=
  fold_left spanStep log open.

(** Spans are never nested: a span is started only when none is open, and
    attributes, exceptions and the end go to the one open span. *)
Fixpoint wellBracketed (log : list SpanEvent) (open : list Span) : Prop :=
  match log with
  | [] => True
  | StartSpan s _ _ :: rest => open = [] /\ wellBracketed rest [s]
  | EndSpan s :: rest => open = [s] /\ wellBracketed rest []
  | SetAttribute s _ _ :: rest => open = [s] /\ wellBracketed rest open
  | RecordException s _ :: rest => open = [s] /\ wellBracketed rest open
  end.

Definition currentSpans (c : EnvironmentQueueConsumer) : list Span :=
  match _currentSpan c with Some s => [s] | None => [] end.

(** The tracer was used in brackets, and the span it has open is the
    current span of the dispatcher. *)
Definition oneSpan (w : World) : Prop :=
  wellBracketed (tracer w) []
  /\ openAfter (tracer w) [] = currentSpans (consumer w).

(** ** More vocabulary: completions *)

Definition statusOf (completion : TaskRunExecutionResult) : AttemptStatus :=
  match completion with
  | Success _ _ _ => COMPLETED
  | Failure _ _ _ => FAILED
  end.

Definition attemptOf (completion : TaskRunExecutionResult) : string :=
  match completion with
  | Success id _ _ => id
  | Failure id _ _ => id
  end.

Definition retryOf (completion : TaskRunExecutionResult) : option Z :=
  match completion with
  | Success _ _ _ => None
  | Failure _ _ retry => retry
  end.

(** The attempt with a friendly id. *)
Definition attemptByFriendlyId (db : Store) (id : string)
  : option TaskRunAttempt :=
  find (fun a => String.eqb (att_friendlyId a) id) (taskRunAttempt db).

(** What a completion writes to the status columns of the attempts. *)
Definition statusColumns (db : Store)
  : list (string * AttemptStatus * option Z) :=
  map (fun a => (att_id a, att_status a, att_completedAt a))
      (taskRunAttempt db).

(** ** More vocabulary: the registry *)

(** Every registered worker is keyed by its id, is a row of the store and
    belongs to the environment of the dispatcher. *)
Definition registryOfEnvironment (w : World) : Prop :=
  forall k b,
    In (k, b) (_backgroundWorkers (consumer w)) ->
    k = bw_id b
    /\ In b (backgroundWorker (prisma w))
    /\ bw_runtimeEnvironmentId b = env_id (env (consumer w)).

(** ** More vocabulary: lives of the dispatcher *)

(** The ambient of the handler an operation runs. *)
Definition ambientOf (op : Operation) : option Ambient :=
  match op with
  | Register inp _ => Some inp
  | Timer inp _ => Some inp
  | Completed inp _ _ _ => Some inp
  | HeartbeatOf inp _ _ => Some inp
  | Stop => None
  end.

(** [stop()] is never called: neither between two handlers nor while an
    iteration is suspended. *)
Definition neverStopped (ops : list Operation) : Prop :=
  forall op, In op ops ->
             exists inp, ambientOf op = Some inp /\ stopRequested inp = false.


(** The countdown of the window is not set and the loop is off, or it is a
    number from 0 to [maximum]. *)
Definition countdownInRange (maximum : Z) (c : EnvironmentQueueConsumer)
  : Prop :=
  match _perTraceCountdown c with
  | None => _enabled c = false
  | Some NaN => False
  | Some (Num z) => 0 <= z <= maximum
  end.

(** ** Iterations that overlap

    [#doWork] is an asynchronous function: a call runs as far as the first
    [await] of [#doWorkInternal] - the dequeue - and the rest runs when the
    queue has answered. In between, other handlers run, [stop()] among
    them, and a timer that a stopped loop left pending starts an iteration
    of its own. [perform] runs an iteration in one piece; here an iteration
    is begun in one turn and continued in a later one. From the answer of
    the queue on, an iteration is still run in one piece: its later
    [await]s are not places where another turn comes in. *)

(** A dispatcher with the iterations that wait for the queue, oldest first:
    each is known by the ambient it will meet. *)
Definition Dispatcher : Type := (World * list Ambient)%type.

(** [#doWork] as far as the call of [#doWorkInternal]: [false] when it
    returned because the dispatcher is off, [true] when the iteration waits
    for the queue. *)
Definition doWorkBegin (inp : Ambient) : Async bool :=
  c <- this ;;
  if negb (_enabled c) then ret false
  else
    checkTraceWindow inp ;;
    ret true.

(** ... and from the answer of the queue on: the rest of
    [#doWorkInternal], then the countdown. *)
Definition doWorkResume (inp : Ambient) : Async unit :=
  doWorkInternal inp ;;
  countDown.

(** [this.#doWork()], not awaited: the call returns when the iteration is
    suspended. *)
Definition callDoWork (inp : Ambient) (s : Dispatcher) : Dispatcher :=
  match doWorkBegin inp (fst s) with
  | (Returned true, w) => (w, (snd s ++ [inp])%list)
  | (Returned false, w) => (w, snd s)
  | (Threw e, w) =>
      (set_unhandledRejections (unhandledRejections w ++ [e]) w, snd s)
  end.

(** The iteration at place [j] goes on to its end. *)
Definition resumeDoWork (j : nat) (s : Dispatcher) : Dispatcher :=
  match nth_error (snd s) j with
  | None => s
  | Some inp => (detach (doWorkResume inp) (fst s), remove_nth j (snd s))
  end.

(** [#enable], with the iteration it starts left suspended. *)
Definition enableSuspending (inp : Ambient) (s : Dispatcher) : Dispatcher :=
  let w := fst s in
  if _enabled (consumer w) then s
  else
    let c := consumer w in
    let c := set_enabled true c in
    let c := set_perTraceCountdown
               (Some (Num (maximumItemsPerTrace (_options c)))) c in
    let c := set_lastNewTrace (Some (now inp)) c in
    let c := set_taskFailures 0 c in
    let c := set_taskSuccesses 0 c in
    callDoWork inp (set_consumer c w, snd s).

(** [registerBackgroundWorker], with the iteration it starts left
    suspended; a rejection of the lookup is left to the transport. *)
Definition registerSuspending (inp : Ambient) (id : string) (s : Dispatcher)
  : Dispatcher :=
  let w := fst s in
  match rejects inp BackgroundWorkerFindUnique with
  | Some _ => s
  | None =>
      match backgroundWorker_findUnique (prisma w) id
              (env_id (env (consumer w))) with
      | None => s
      | Some backgroundWorker =>
          enableSuspending inp
            (set_consumer
               (set_backgroundWorkers
                  (set (bw_id backgroundWorker) backgroundWorker
                       (_backgroundWorkers (consumer w))) (consumer w)) w,
             snd s)
      end
  end.

(** What happens next: a handler of the connection or a timer runs, or a
    suspended iteration goes on. *)
Inductive Turn : Type :=
| Handle (op : Operation)
| Continue (j : nat).

Section Overlapping.
Variable core : Imports.

(** A registration and a timer begin an iteration; the other handlers run
    as in [perform]. *)
Definition turn (t : Turn) (s : Dispatcher) : Dispatcher :=
  match t with
  | Handle (Register inp id) => registerSuspending inp id s
  | Handle (Timer inp k) =>
      match nth_error (timers (fst s)) k with
      | None => s
      | Some _ =>
          callDoWork inp
            (set_timers (remove_nth k (timers (fst s))) (fst s), snd s)
      end
  | Handle op => (perform core op (fst s), snd s)
  | Continue j => resumeDoWork j s
  end.

Definition turnAll (ts : list Turn) (s : Dispatcher) : Dispatcher :=
  fold_left (fun s t => turn t s) ts s.

End Overlapping.

(** The handlers among the turns. *)
Definition handled (ts : list Turn) : list Operation :=
  flat_map (fun t => match t with Handle op => [op] | Continue _ => [] end) ts.

(** One loop: the dispatcher keeps its options, the countdown is in range,
    nothing is pending while it is off, at most one iteration is pending or
    suspended, and the countdown is at least 1 while one is suspended. *)
Definition singleLoop (o : EnvironmentQueueConsumerOptions) (s : Dispatcher)
  : Prop :=
  _options (consumer (fst s)) = o
  /\ countdownInRange (maximumItemsPerTrace o) (consumer (fst s))
  /\ (_enabled (consumer (fst s)) = false ->
      timers (fst s) = [] /\ snd s = [])
  /\ (List.length (timers (fst s)) + List.length (snd s) <= 1)%nat
  /\ (snd s <> [] ->
      exists z, _perTraceCountdown (consumer (fst s)) = Some (Num z)
                /\ 1 <= z)
  /\ Forall (fun inp => stopRequested inp = false) (snd s).

(** ** More of the small deployment *)
Module Cases.

(** The store without the queue row of [r1]. *)
Definition withoutQueue : World :=
  set_prisma (mkStore [Scenario.r1] [] []
                [Scenario.worker1; Scenario.worker2; Scenario.worker10])
             Scenario.registered.

(** The delivery of [r1] at time 2000. *)
Definition delivery : Ambient :=
  Scenario.delivering 2000 Scenario.execute "clattempt0001" "attempt_a1"
                      Scenario.nothingRejects.

(** The same delivery, with [stop()] called while the dequeue is pending. *)
Definition stopping : Ambient :=
  mkAmbient 2000 Scenario.nothingRejects (Some Scenario.execute) false true
            "clattempt0001" "attempt_a1" "5b8aa5a2d2c872e8321cf37308d69df2"
            "051581bf3cb55c13".

Definition task1 : BackgroundWorkerTask :=
  Scenario.sendEmail "cltask0001" "clworker0001".

(** The worker reports that attempt 1 of [r1] succeeded. *)
Definition succeeded : TaskRunExecutionResult :=
  Success "attempt_a1" (Some "{}") "application/json".


End Cases.

(** Overlapping iterations in the small deployment. *)
Module Overlap.

(** A dispatcher just constructed, with windows of one iteration. *)
Definition narrow : World :=
  mkWorld (new_EnvironmentQueueConsumer Scenario.environment (Some 1) None)
          true Scenario.store [] [] [] [] [] [].

(** The worker registers, the connection is stopped and the worker
    registers again while the first iteration still waits for the queue;
    then both iterations go on. The queue is empty. *)
Definition restarted : list Turn :=
  [Handle (Register (Scenario.idle 1000) "worker_one");
   Handle Stop;
   Handle (Register (Scenario.idle 1100) "worker_one");
   Continue 0;
   Continue 0].

(** The pending timer fires and [r1] is about to be delivered; [stop()] is
    called while the iteration waits for the queue; then the queue
    answers. *)
Definition closedWhileSuspended : list Turn :=
  [Handle (Timer Cases.delivery 0);
   Handle Stop;
   Continue 0].

(** A life without [stop()]: registration, a completion while the first
    iteration waits, then the delivery of [r1] with a heartbeat in between. *)
Definition steady : list Turn :=
  [Handle (Register (Scenario.idle 1000) "worker_one");
   Handle (Completed (Scenario.completing 1200) "worker_one" Cases.succeeded
                     Scenario.execution1);
   Continue 0;
   Handle (Timer Cases.delivery 0);
   Handle (HeartbeatOf (Scenario.completing 2100) "worker_one" "attempt_a1");
   Continue 0].


End Overlap.

(** ** More of the event repository *)

(** The trace context [traceEvent] hands to its callback:
    [`00-${traceId}-${spanId}-01`]. *)
Definition traceparentOf (traceId spanId : string) : string :=
  "00-" ++ traceId ++ "-" ++ spanId ++ "-01".

(** [excludePartialEventsWithCorrespondingFullEvent] *)
Definition excludePartialEventsWithCorrespondingFullEvent
  (batch : list CreatableEvent) : list CreatableEvent :=
  let partialEvents := filter (fun event => ev_isPartial event) batch in
  let fullEvents := filter (fun event => negb (ev_isPartial event)) batch in
  (fullEvents
   ++ filter
        (fun partialEvent =>
           negb (existsb
                   (fun fullEvent =>
                      String.eqb (ev_spanId fullEvent) (ev_spanId partialEvent))
                   fullEvents))
        partialEvents)%list.

(** A call of [setAttribute] by the callback of [traceEvent], giving a key
    of [TraceAttributes] a value of the type of the key. *)
Inductive SetAttributeCall : Type :=
| SetAttemptId (value : option string)
| SetIsError (value : option bool)
| SetRunId (value : option string)
| SetOutput (value : option Attributes)
| SetMetadata (value : option Attributes)
| SetProperties (value : option Attributes)
| SetStyle (value : option Attributes)
| SetQueueId (value : option string)
| SetQueueName (value : option string).

(** [if (value) { ... options.attributes[key] = ... }]: an absent or empty
    string and [false] are falsy; an object is merged into an object that
    is already there, and anything else replaces what is there. *)
Definition setString (existingValue value : option string) : option string :=
  match value with
  | Some s => if String.eqb s "" then existingValue else Some s
  | None => existingValue
  end.

Definition setBoolean (existingValue value : option bool) : option bool :=
  match value with
  | Some true => Some true
  | _ => existingValue
  end.

Definition setObject (existingValue value : option Attributes)
  : option Attributes :=
  match value with
  | Some v =>
      match existingValue with
      | Some e => Some (spread e v)
      | None => Some v
      end
  | None => existingValue
  end.

Definition setAttribute (attributes : TraceAttributes)
  (call : SetAttributeCall) : TraceAttributes :=
  let a := attributes in
  match call with
  | SetAttemptId v =>
      mkTraceAttributes (setString (ta_attemptId a) v) (ta_isError a)
        (ta_runId a) (ta_output a) (ta_metadata a) (ta_properties a)
        (ta_style a) (ta_queueId a) (ta_queueName a)
  | SetIsError v =>
      mkTraceAttributes (ta_attemptId a) (setBoolean (ta_isError a) v)
        (ta_runId a) (ta_output a) (ta_metadata a) (ta_properties a)
        (ta_style a) (ta_queueId a) (ta_queueName a)
  | SetRunId v =>
      mkTraceAttributes (ta_attemptId a) (ta_isError a)
        (setString (ta_runId a) v) (ta_output a) (ta_metadata a)
        (ta_properties a) (ta_style a) (ta_queueId a) (ta_queueName a)
  | SetOutput v =>
      mkTraceAttributes (ta_attemptId a) (ta_isError a) (ta_runId a)
        (setObject (ta_output a) v) (ta_metadata a) (ta_properties a)
        (ta_style a) (ta_queueId a) (ta_queueName a)
  | SetMetadata v =>
      mkTraceAttributes (ta_attemptId a) (ta_isError a) (ta_runId a)
        (ta_output a) (setObject (ta_metadata a) v) (ta_properties a)
        (ta_style a) (ta_queueId a) (ta_queueName a)
  | SetProperties v =>
      mkTraceAttributes (ta_attemptId a) (ta_isError a) (ta_runId a)
        (ta_output a) (ta_metadata a) (setObject (ta_properties a) v)
        (ta_style a) (ta_queueId a) (ta_queueName a)
  | SetStyle v =>
      mkTraceAttributes (ta_attemptId a) (ta_isError a) (ta_runId a)
        (ta_output a) (ta_metadata a) (ta_properties a)
        (setObject (ta_style a) v) (ta_queueId a) (ta_queueName a)
  | SetQueueId v =>
      mkTraceAttributes (ta_attemptId a) (ta_isError a) (ta_runId a)
        (ta_output a) (ta_metadata a) (ta_properties a) (ta_style a)
        (setString (ta_queueId a) v) (ta_queueName a)
  | SetQueueName v =>
      mkTraceAttributes (ta_attemptId a) (ta_isError a) (ta_runId a)
        (ta_output a) (ta_metadata a) (ta_properties a) (ta_style a)
        (ta_queueId a) (setString (ta_queueName a) v)
  end.

(** The callback of [traceEvent]: given the trace id, the span id and the
    trace context, it does what it does to the world and, when it
    returns, has called [setAttribute] a number of times. *)
Definition TraceCallback (TResult : Type) : Type :=
  string -> string -> list (string * string)
  -> Async (list SetAttributeCall * TResult).

Section WithStyleVariant.

Variable core : Imports.
(** [SemanticInternalAttributes.STYLE_VARIANT] and [PRIMARY_VARIANT] of
    [@trigger.dev/core/v3] *)
Variable STYLE_VARIANT : string.
Variable PRIMARY_VARIANT : string.

(** The event [traceEvent] builds once the callback has returned, from the
    attributes as the callback left them; [duration] is the time the
    callback took ([process.hrtime.bigint() - start]), in nanoseconds. The
    literal has no [isPartial]: the event is a full one. *)
Definition buildTracedEvent (inp : Ambient) (duration : Z) (message : string)
  (options : TraceEventOptions) (attributes : TraceAttributes)
  (traceId spanId : string) : Completion CreatableEvent :=
  let propagatedContext :=
    extractContextFromCarrier
      (match teo_context options with Some c => c | None => [] end) in
  let startTime := now inp in
  let parentId := option_map snd (fst propagatedContext) in
  let tracestate := snd propagatedContext in
  let environment := teo_environment options in
  let metadata :=
    spread
      (spread []
         [(ENVIRONMENT_ID core, JStr (env_id environment));
          (ENVIRONMENT_TYPE core, JStr (env_type environment));
          (ORGANIZATION_ID core, JStr (env_organizationId environment));
          (PROJECT_ID core, JStr (env_projectId environment));
          (PROJECT_REF core,
           JStr (proj_externalRef (env_project environment)));
          (RUN_ID core, json_of_option_string (ta_runId attributes));
          (TASK_SLUG core, JStr (teo_taskSlug options));
          (SERVICE_NAME core, JStr "api server");
          (SERVICE_NAMESPACE core, JStr "trigger.dev")])
      (match ta_metadata attributes with Some m => m | None => [] end) in
  let style :=
    spread [] [(STYLE_ICON core, JStr "task");
               (STYLE_VARIANT, JStr PRIMARY_VARIANT)] in
  match ta_runId attributes with
  | None => Threw "runId is required"
  | Some runId =>
      if String.eqb runId "" then Threw "runId is required"
      else
        Returned
          (mkEvent traceId spanId parentId tracestate message "api server"
             "trigger.dev" "TRACE" (teo_kind options) "OK" startTime false
             duration (env_id environment) (env_type environment)
             (env_organizationId environment) (env_projectId environment)
             (proj_externalRef (env_project environment)) runId
             (teo_taskSlug options) (ta_queueId attributes)
             (ta_queueName attributes)
             (spread style (flattenAttributes core metadata (METADATA core)))
             metadata
             (stripAttributePrefix style (STYLE core))
             None)
  end.

(** [traceEvent] *)
Definition traceEvent {TResult : Type} (inp : Ambient) (duration : Z)
  (message : string) (options : TraceEventOptions)
  (callback : TraceCallback TResult) : Async TResult :=
  let propagatedContext :=
    extractContextFromCarrier
      (match teo_context options with Some c => c | None => [] end) in
  let traceId :=
    match fst propagatedContext with
    | Some (traceId, _) => traceId
    | None => randomTraceId inp
    end in
  let spanId :=
    match teo_spanIdSeed options with
    | Some seed =>
        if String.eqb seed "" then randomSpanId inp
        else generateDeterministicSpanId core traceId seed
    | None => randomSpanId inp
    end in
  let traceContext := [("traceparent", traceparentOf traceId spanId)] in
  called <- callback traceId spanId traceContext ;;
  let attributes := fold_left setAttribute (fst called)
                              (teo_attributes options) in
  match buildTracedEvent inp duration message options attributes traceId
                         spanId with
  | Threw e => throw e
  | Returned event =>
      fun w => (Returned (snd called), set_events (events w ++ [event]) w)
  end.

End WithStyleVariant.

(** The options with another context. *)
Definition with_context (context : list (string * string))
  (options : TraceEventOptions) : TraceEventOptions :=
  mkTraceEventOptions (teo_kind options) (Some context)
    (teo_spanIdSeed options) (teo_attributes options)
    (teo_environment options) (teo_taskSlug options) (teo_startTime options)
    (teo_endTime options).

(** *** Vocabulary *)

(** A string without ["-"]. *)
Fixpoint dashFree (s : string) : bool :=
  match s with
  | EmptyString => true
  | String c rest => negb (Ascii.eqb c "-"%char) && dashFree rest
  end.

(** A string of the characters [0-9a-f]. *)
Definition isLowerHexChar (c : ascii) : bool :=
  existsb (Ascii.eqb c) (list_ascii_of_string "0123456789abcdef").

Fixpoint isLowerHex (s : string) : bool :=
  match s with
  | EmptyString => true
  | String c rest => isLowerHexChar c && isLowerHex rest
  end.


(** A full event of the batch with the span id of [e]. *)
Definition hasFullEvent (batch : list CreatableEvent) (e : CreatableEvent)
  : Prop :=
  exists f, In f batch /\ ev_isPartial f = false
            /\ ev_spanId f = ev_spanId e.

(** A key made of decimal digits: every array index is one. *)
Definition isDigit (c : ascii) : bool :=
  let n := nat_of_ascii c in
  (48 <=? n)%nat && (n <=? 57)%nat.

Fixpoint digitsOnly (s : string) : bool :=
  match s with
  | EmptyString => true
  | String c rest => isDigit c && digitsOnly rest
  end.

Definition digitKey (key : string) : bool :=
  negb (String.eqb key "") && digitsOnly key.

(** No key of the object is made of digits: JavaScript lists its keys in
    the order in which they were inserted. *)
Definition listedAsInserted (o : Attributes) : Prop :=
  forall key, In key (map fst o) -> digitKey key = false.

(** ** Events of the small deployment *)
Module Traces.

(** The attributes of an event of run [r1]. *)
Definition attributes : TraceAttributes :=
  mkTraceAttributes None None (Some "clrun0001") None None None None None
                    None.

(** An event of [r1], in the trace that triggered the run. *)
Definition options : TraceEventOptions :=
  mkTraceEventOptions None (Some (run_traceContext Scenario.r1))
    (Some "attempt-1") attributes Scenario.environment "send-email" None
    None.

(** An event the callback records, before it is given its context. *)
Definition childOptions : TraceEventOptions :=
  mkTraceEventOptions None None None attributes Scenario.environment
    "send-email" None None.

(** The context of an event whose span is ["b7ad6b7169203331"]. *)
Definition context : list (string * string) :=
  [("traceparent",
    traceparentOf "0af7651916cd43dd8448eb211c80319c" "b7ad6b7169203331")].

End Traces.

(** ** Random ids ([getIdGenerator]) *)

(** [SHARED_CHAR_CODES_ARRAY]: an array of character codes, with its
    holes. *)
Definition CharCodes := list (option Z).

(** [array[i] = value]: a write past the end extends the array. *)
Fixpoint assign (i : nat) (value : Z) (array : CharCodes) : CharCodes :=
  match i, array with
  | O, [] => [Some value]
  | O, _ :: rest => Some value :: rest
  | S i', [] => None :: assign i' value []
  | S i', x :: rest => x :: assign i' value rest
  end.

(** The character code written for a draw [Math.floor(Math.random() * 16)]:
    [48-57] and [97-102]. *)
Definition charCode (draw : Z) : Z :=
  let code := draw + 48 in
  if code >=? 58 then code + 39 else code.

(** [String.fromCharCode.apply(null, codes)], for codes below 256; a hole
    counts as 0. *)
Definition fromCharCode (codes : CharCodes) : string :=
  string_of_list_ascii
    (map (fun code =>
            match code with
            | Some c => ascii_of_N (Z.to_N c)
            | None => zero
            end) codes).

(** [getIdGenerator(bytes)()]: the id and the shared array it leaves;
    [draw i] is the value of [Math.floor(Math.random() * 16)] at step
    [i]. *)
Definition getIdGenerator (bytes : nat) (draw : nat -> Z)
  (shared : CharCodes) : string * CharCodes :=
  let filled :=
    fold_left (fun array i => assign i (charCode (draw i)) array)
              (seq 0 (bytes * 2)) shared in
  (fromCharCode (firstn (bytes * 2) filled), filled).

(** * Properties *)

(** ** The order on version strings *)

Lemma ascii_compare_N (a b : ascii) :
  Ascii.compare a b = N.compare (N_of_ascii a) (N_of_ascii b).
Proof. reflexivity. Qed.

Lemma ascii_compare_refl (a : ascii) : Ascii.compare a a = Eq.
Proof. rewrite ascii_compare_N. apply N.compare_refl. Qed.

Lemma string_compare_refl (s : string) : String.compare s s = Eq.
Proof.
  induction s as [|a s IH]; simpl; [reflexivity|].
  now rewrite ascii_compare_refl.
Qed.

Lemma string_compare_le_trans (a b c : string) :
  String.compare a b <> Gt -> String.compare b c <> Gt ->
  String.compare a c <> Gt.
Proof.
  revert b c.
  induction a as [|x a IH]; intros [|y b] [|z c]; simpl; try congruence.
  rewrite !ascii_compare_N.
  destruct (N.compare_spec (N_of_ascii x) (N_of_ascii y)) as [Hxy|Hxy|Hxy];
    destruct (N.compare_spec (N_of_ascii y) (N_of_ascii z)) as [Hyz|Hyz|Hyz];
    destruct (N.compare_spec (N_of_ascii x) (N_of_ascii z)) as [Hxz|Hxz|Hxz];
    try congruence; try lia.
  apply IH.
Qed.

Lemma string_gt_irrefl (s : string) : string_gt s s = false.
Proof. unfold string_gt. now rewrite string_compare_refl. Qed.

Lemma string_gt_false_trans (a b c : string) :
  string_gt a b = false -> string_gt b c = false -> string_gt a c = false.
Proof.
  unfold string_gt. intros Hab Hbc.
  assert (H : String.compare a c <> Gt).
  { apply string_compare_le_trans with b.
    - destruct (String.compare a b); congruence.
    - destruct (String.compare b c); congruence. }
  destruct (String.compare a c); congruence.
Qed.

Lemma string_gt_asym (a b : string) :
  string_gt a b = true -> string_gt b a = false.
Proof.
  unfold string_gt. rewrite (String.compare_antisym a b).
  destruct (String.compare b a); simpl; congruence.
Qed.

(** ** The worker registry *)

(** The reducer of [#getLatestBackgroundWorker] keeps a worker that no
    worker seen so far exceeds. *)
Lemma reduce_latest_greatest (rest : list BackgroundWorker) :
  forall first,
    let latest :=
      fold_left
        (fun acc curr =>
           if string_gt (bw_version acc) (bw_version curr) then acc else curr)
        rest first in
    In latest (first :: rest)
    /\ forall w, In w (first :: rest) ->
                 string_gt (bw_version w) (bw_version latest) = false.
Proof.
  induction rest as [|curr rest IH]; intros first; simpl.
  - split; [now left|]. intros w [<-|[]]. apply string_gt_irrefl.
  - destruct (string_gt (bw_version first) (bw_version curr)) eqn:Hgt.
    + destruct (IH first) as [Hin Hmax]. split.
      * destruct Hin as [<-|Hin]; [now left | now right; right].
      * intros w [<-|[<-|Hw]].
        -- apply Hmax. now left.
        -- apply string_gt_false_trans with (bw_version first).
           ++ now apply string_gt_asym.
           ++ apply Hmax. now left.
        -- apply Hmax. now right.
    + destruct (IH curr) as [Hin Hmax]. split.
      * destruct Hin as [<-|Hin]; [now right; left | now right; right].
      * intros w [<-|[<-|Hw]].
        -- apply string_gt_false_trans with (bw_version curr); [exact Hgt|].
           apply Hmax. now left.
        -- apply Hmax. now left.
        -- apply Hmax. now right.
Qed.

(** S4 in general: whatever else the dispatcher holds, once the registry
    is [20240101.1] then [20240101.2], an unpinned run selects the second. *)
Lemma unpinned_run_selects_second_version
  (c : EnvironmentQueueConsumer) (w1 w2 : BackgroundWorker) (run : TaskRun) :
  bw_version w1 = "20240101.1" -> bw_version w2 = "20240101.2" ->
  bw_id w1 <> bw_id w2 -> run_lockedToVersionId run = None ->
  selectBackgroundWorker
    (set_backgroundWorkers (set (bw_id w2) w2 (set (bw_id w1) w1 [])) c) run
  = Some w2.
Proof.
  intros Hv1 Hv2 Hid Hpin.
  unfold selectBackgroundWorker, getLatestBackgroundWorker. rewrite Hpin.
  simpl. destruct (String.eqb_spec (bw_id w2) (bw_id w1)) as [E|_];
    [congruence|].
  simpl. now rewrite Hv1, Hv2.
Qed.

(** C8. [latest()] returns nothing exactly when the registry is empty, and
    otherwise a registered worker whose version string no registered
    version exceeds in the lexicographic order; after registering
    [20240101.1] and then [20240101.2], the unpinned run [r1] is dispatched
    against [20240101.2]. *)
Theorem latest_is_lexicographically_greatest :
  forall c : EnvironmentQueueConsumer,
    match getLatestBackgroundWorker c with
    | None => _backgroundWorkers c = []
    | Some latest =>
        In latest (map snd (_backgroundWorkers c))
        /\ forall w, In w (map snd (_backgroundWorkers c)) ->
                     string_gt (bw_version w) (bw_version latest) = false
    end
    /\ map bw_version (map snd (_backgroundWorkers
                                  (consumer Scenario.registeredTwo)))
       = ["20240101.1"; "20240101.2"]
    /\ getLatestBackgroundWorker (consumer Scenario.registeredTwo)
       = Some Scenario.worker2
    /\ map out_backgroundWorkerId (sent Scenario.dispatchedTwo)
       = [bw_friendlyId Scenario.worker2].
Proof.
  intros c. split; [|repeat split; vm_compute; reflexivity].
  unfold getLatestBackgroundWorker.
  destruct (_backgroundWorkers c) as [|[k first] rest]; simpl; [reflexivity|].
  apply (reduce_latest_greatest (map snd rest) first).
Qed.

(** C3. With the versions [20240101.2] and [20240101.10] registered, in
    either order, [latest()] returns [20240101.2]: the strings are compared
    character by character, and ["2"] is greater than ["1"]. *)
Theorem latest_prefers_2_over_10 :
  string_gt "20240101.2" "20240101.10" = true
  /\ option_map bw_version
       (getLatestBackgroundWorker
          (set_backgroundWorkers
             [("clworker0002", Scenario.worker2);
              ("clworker0010", Scenario.worker10)]
             (consumer Scenario.fresh)))
     = Some "20240101.2"
  /\ option_map bw_version
       (getLatestBackgroundWorker
          (set_backgroundWorkers
             [("clworker0010", Scenario.worker10);
              ("clworker0002", Scenario.worker2)]
             (consumer Scenario.fresh)))
     = Some "20240101.2"
  /\ option_map bw_version
       (getLatestBackgroundWorker
          (consumer
             (snd (registerBackgroundWorker (Scenario.idle 1600) "worker_ten"
                     Scenario.registeredTwo))))
     = Some "20240101.2".
Proof. repeat split; vm_compute; reflexivity. Qed.

(** C10. Registering a worker while the dispatcher is enabled changes the
    registry at most: the found worker is stored under its id, the window
    (countdown, counters, timestamp, span, flag) is untouched, and no
    iteration starts - no timer, no queue, store, tracer or transport
    effect. *)
Theorem register_while_enabled_keeps_dispatch_state :
  forall (inp : Ambient) (id : string) (w : World),
    _enabled (consumer w) = true ->
    let c := consumer w in
    let w' := snd (registerBackgroundWorker inp id w) in
    let c' := consumer w' in
    _backgroundWorkers c'
    = match rejects inp BackgroundWorkerFindUnique,
            backgroundWorker_findUnique (prisma w) id (env_id (env c)) with
      | None, Some found => set (bw_id found) found (_backgroundWorkers c)
      | _, _ => _backgroundWorkers c
      end
    /\ _enabled c' = true
    /\ _perTraceCountdown c' = _perTraceCountdown c
    /\ _taskSuccesses c' = _taskSuccesses c
    /\ _taskFailures c' = _taskFailures c
    /\ _lastNewTrace c' = _lastNewTrace c
    /\ _currentSpan c' = _currentSpan c
    /\ _currentSpanContext c' = _currentSpanContext c
    /\ _endSpanInNextIteration c' = _endSpanInNextIteration c
    /\ w' = set_consumer (set_backgroundWorkers (_backgroundWorkers c') c) w.
Proof.
  intros inp id w Hen. cbv zeta.
  unfold registerBackgroundWorker, bind, await, this, update.
  destruct (rejects inp BackgroundWorkerFindUnique) as [e|]; simpl.
  - destruct w as [c m db q s t ti ev u]; destruct c; simpl in *.
    subst. repeat split; reflexivity.
  - destruct (backgroundWorker_findUnique (prisma w) id
                (env_id (env (consumer w)))) as [found|]; simpl.
    + unfold enable; simpl. rewrite Hen. simpl. repeat split; try assumption.
    + destruct w as [c m db q s t ti ev u]; destruct c; simpl in *.
      subst. repeat split; reflexivity.
Qed.

Lemma register_while_enabled_keeps_dispatch_state_witness :
  _enabled (consumer Scenario.registered) = true
  /\ _perTraceCountdown
       (consumer (snd (registerBackgroundWorker (Scenario.idle 1500)
                         "worker_two" Scenario.registered)))
     = _perTraceCountdown (consumer Scenario.registered).
Proof.
  assert (Hen : _enabled (consumer Scenario.registered) = true)
    by (vm_compute; reflexivity).
  split; [exact Hen|].
  exact (proj1 (proj2 (proj2
           (register_while_enabled_keeps_dispatch_state
              (Scenario.idle 1500) "worker_two" Scenario.registered Hen)))).
Defined.

(** ** The store *)

Lemma taskRun_findUnique_id (db : Store) (id : string) (r : TaskRun) :
  taskRun_findUnique db id = Some r -> run_id r = id.
Proof.
  unfold taskRun_findUnique. intros H.
  apply find_some in H. now apply String.eqb_eq.
Qed.

Lemma find_map_by_id (id : string) (g : TaskRun -> TaskRun)
  (runs : list TaskRun) (r : TaskRun) :
  (forall x, run_id (g x) = run_id x) ->
  find (fun x => String.eqb (run_id x) id) runs = Some r ->
  find (fun x => String.eqb (run_id x) id)
       (map (fun x => if String.eqb (run_id x) id then g x else x) runs)
  = Some (g r).
Proof.
  intros Hg. induction runs as [|x runs IH]; simpl; [discriminate|].
  destruct (String.eqb (run_id x) id) eqn:E.
  - intros [= <-]. simpl. now rewrite Hg, E.
  - intros H. simpl. rewrite E. now apply IH.
Qed.

Lemma taskRun_update_found (db : Store) (id : string) (r : TaskRun)
  (lockedAt : option Z) (lockedById : option string) :
  taskRun_findUnique db id = Some r ->
  exists db',
    taskRun_update db id lockedAt lockedById
    = Some (db', with_lock lockedAt lockedById r)
    /\ taskRun_findUnique db' id = Some (with_lock lockedAt lockedById r)
    /\ taskRunAttempt db' = taskRunAttempt db
    /\ taskQueue db' = taskQueue db
    /\ backgroundWorker db' = backgroundWorker db.
Proof.
  intros H. unfold taskRun_update. rewrite H. eexists. split; [reflexivity|].
  repeat split. unfold taskRun_findUnique in *. simpl.
  now apply (find_map_by_id id (with_lock lockedAt lockedById)).
Qed.

Lemma taskRun_update_attempts (db db' : Store) (id : string) (r : TaskRun)
  (lockedAt : option Z) (lockedById : option string) :
  taskRun_update db id lockedAt lockedById = Some (db', r) ->
  taskRunAttempt db' = taskRunAttempt db /\ run_id r = id.
Proof.
  unfold taskRun_update.
  destruct (taskRun_findUnique db id) as [r0|] eqn:E; [|discriminate].
  intros [= <- <-]. split; [reflexivity|].
  simpl. now apply taskRun_findUnique_id with db.
Qed.

Lemma filter_other_ids (id : string) (atts : list TaskRunAttempt) :
  (forall a, In a atts -> att_id a <> id) ->
  filter (fun x => negb (String.eqb (att_id x) id)) atts = atts.
Proof.
  induction atts as [|a atts IH]; simpl; intros H; [reflexivity|].
  destruct (String.eqb_spec (att_id a) id) as [E|_].
  - exfalso. apply (H a); [now left | exact E].
  - simpl. f_equal. apply IH. intros b Hb. apply H. now right.
Qed.

Lemma existsb_fresh (id : string) (atts : list TaskRunAttempt) :
  (forall a, In a atts -> att_id a <> id) ->
  existsb (fun x => String.eqb (att_id x) id) atts = false.
Proof.
  induction atts as [|a atts IH]; simpl; intros H; [reflexivity|].
  destruct (String.eqb_spec (att_id a) id) as [E|_].
  - exfalso. apply (H a); [now left | exact E].
  - apply IH. intros b Hb. apply H. now right.
Qed.

Lemma existsb_taken (id : string) (atts : list TaskRunAttempt) :
  existsb (fun x => String.eqb (att_id x) id) atts = false ->
  forall a, In a atts -> att_id a <> id.
Proof.
  intros H a Ha E.
  assert (existsb (fun x => String.eqb (att_id x) id) atts = true).
  { apply existsb_exists. exists a. split; [exact Ha|]. now apply String.eqb_eq. }
  congruence.
Qed.

(** Inserting an attempt under a fresh id and deleting it again leaves the
    table as it was. *)
Lemma create_then_delete (db : Store) (a : TaskRunAttempt) :
  (forall x, In x (taskRunAttempt db) -> att_id x <> att_id a) ->
  exists db1,
    taskRunAttempt_create db a = Some db1
    /\ taskRunAttempt db1 = (taskRunAttempt db ++ [a])%list
    /\ taskRun db1 = taskRun db
    /\ taskQueue db1 = taskQueue db
    /\ backgroundWorker db1 = backgroundWorker db
    /\ forall db2,
         taskRunAttempt db2 = taskRunAttempt db1 ->
         exists db3,
           taskRunAttempt_delete db2 (att_id a) = Some db3
           /\ taskRunAttempt db3 = taskRunAttempt db
           /\ taskRun db3 = taskRun db2
           /\ taskQueue db3 = taskQueue db2
           /\ backgroundWorker db3 = backgroundWorker db2.
Proof.
  intros Hfresh. unfold taskRunAttempt_create.
  rewrite (existsb_fresh _ _ Hfresh). eexists. split; [reflexivity|].
  simpl. repeat split. intros db2 E. unfold taskRunAttempt_delete.
  rewrite E. rewrite existsb_app. simpl. rewrite String.eqb_refl.
  rewrite orb_true_r. eexists. split; [reflexivity|]. simpl.
  repeat split. rewrite filter_app. simpl. rewrite String.eqb_refl. simpl.
  rewrite app_nil_r. now apply filter_other_ids.
Qed.

Lemma lastAttempts_ext (db db' : Store) (runId : string) :
  taskRunAttempt db' = taskRunAttempt db ->
  lastAttempts db' runId = lastAttempts db runId.
Proof. unfold lastAttempts, attemptsOf. now intros ->. Qed.

(** ** Symbolic runs of an iteration *)

Ltac run_async :=
  cbv beta delta [doWorkInternal bind ret throw await this update
    marqs_dequeueMessageInEnv marqs_acknowledgeMessage marqs_nackMessage
    setTimeout_doWork prisma_taskRun_findUnique prisma_taskRun_update_lock
    prisma_taskQueue_findUnique prisma_taskRunAttempt_create
    prisma_transaction_unlock_delete sender_send try_catch_finally
    recordExceptionOnCurrentSpan span_emit onSendFailure];
  simpl.

Lemma selectBackgroundWorker_set_enabled (b : bool)
  (c : EnvironmentQueueConsumer) (run : TaskRun) :
  selectBackgroundWorker (set_enabled b c) run = selectBackgroundWorker c run.
Proof. reflexivity. Qed.

(** An iteration that reaches the send has locked the run and inserted the
    attempt, and is left with the [try] statement. *)
Lemma doWorkInternal_reaches_send (inp : Ambient) (w : World)
  (message : QueueMessage) (run : TaskRun) (worker : BackgroundWorker)
  (task : BackgroundWorkerTask) (q : TaskQueue) :
  ReachesSend inp w message run worker task q ->
  exists db1,
    taskRun_findUnique db1 (run_id run) = Some (lockedRun inp task run)
    /\ taskRunAttempt db1
       = (taskRunAttempt (prisma w)
          ++ [newAttempt inp (prisma w) run task q])%list
    /\ taskQueue db1 = taskQueue (prisma w)
    /\ backgroundWorker db1 = backgroundWorker (prisma w)
    /\ doWorkInternal inp w
       = try_catch_finally
           (sender_send inp
              (buildMessage (consumer w) worker task (lockedRun inp task run)
                 q (newAttempt inp (prisma w) run task q)))
           (onSendFailure inp message (lockedRun inp task run)
              (newAttempt inp (prisma w) run task q))
           (setTimeout_doWork 100) (set_prisma db1 w).
Proof.
  intros [Hm Hdq Hparse Hrun Hworker Htask Hlock Hq Hen Hstop Hfresh Hcalls].
  assert (Hid : run_id run = msg_messageId message)
    by (now apply taskRun_findUnique_id with (prisma w)).
  destruct (taskRun_update_found (prisma w) (msg_messageId message) run
              (Some (now inp)) (Some (task_id task)) Hrun)
    as (dbL & HupdL & HfindL & HattL & HqL & HbwL).
  destruct (create_then_delete dbL (newAttempt inp (prisma w) run task q))
    as (db1 & Hcreate & Hatt1 & Hrun1 & Hq1 & Hbw1 & _).
  { rewrite HattL. exact Hfresh. }
  exists db1. repeat split.
  - unfold taskRun_findUnique in *. rewrite Hrun1, Hid. exact HfindL.
  - rewrite Hatt1, HattL. reflexivity.
  - congruence.
  - congruence.
  - run_async.
    rewrite Hstop. simpl. rewrite Hm.
    rewrite (Hcalls DequeueMessageInEnv) by (simpl; tauto). simpl.
    rewrite Hdq.
    destruct (MessageBody_safeParse (msg_data message)) as [body|];
      [|congruence].
    rewrite (Hcalls TaskRunFindUnique) by (simpl; tauto). simpl.
    rewrite Hrun, Hworker, Htask.
    rewrite (Hcalls TaskRunUpdate) by (simpl; tauto). simpl.
    rewrite Hlock, HupdL. simpl.
    rewrite (Hcalls TaskQueueFindUnique) by (simpl; tauto). simpl.
    unfold taskQueue_findUnique in *. rewrite HqL. simpl. rewrite Hq.
    simpl. rewrite Hen. simpl.
    rewrite (Hcalls TaskRunAttemptCreate) by (simpl; tauto). simpl.
    rewrite (lastAttempts_ext (prisma w) dbL) by exact HattL.
    rewrite <- Hid.
    change (mkAttempt (freshAttemptId inp) (freshFriendlyId inp)
              (nextAttemptNumber (lastAttempts (prisma w) (run_id run)))
              (run_id run) EXECUTING (now inp) (Some (now inp)) None
              (task_workerId task) (task_id task) (q_id q) None None None)
      with (newAttempt inp (prisma w) run task q).
    rewrite Hcreate. simpl. reflexivity.
Qed.


(** An iteration whose send succeeds: the message is with the worker, the
    run stays locked with its new attempt executing, and the loop resumes
    in 100 ms without a queue action. *)
Lemma dispatch_succeeds (inp : Ambient) (w : World) (message : QueueMessage)
  (run : TaskRun) (worker : BackgroundWorker) (task : BackgroundWorkerTask)
  (q : TaskQueue) :
  ReachesSend inp w message run worker task q ->
  rejects inp SenderSend = None ->
  exists w',
    doWorkInternal inp w = (Returned tt, w')
    /\ sent w'
       = (sent w
          ++ [buildMessage (consumer w) worker task (lockedRun inp task run) q
                (newAttempt inp (prisma w) run task q)])%list
    /\ timers w' = (timers w ++ [100])%list
    /\ queue w' = queue w
    /\ tracer w' = tracer w
    /\ consumer w' = consumer w
    /\ taskRunAttempt (prisma w')
       = (taskRunAttempt (prisma w)
          ++ [newAttempt inp (prisma w) run task q])%list
    /\ taskRun_findUnique (prisma w') (msg_messageId message)
       = Some (lockedRun inp task run).
Proof.
  intros Hreach Hsend.
  assert (Hid : run_id run = msg_messageId message).
  { destruct Hreach. now apply taskRun_findUnique_id with (prisma w). }
  destruct (doWorkInternal_reaches_send _ _ _ _ _ _ _ Hreach)
    as (db1 & Hfind & Hatt & _ & _ & ->).
  run_async. rewrite Hsend. simpl.
  eexists. split; [reflexivity|]. simpl. rewrite <- Hid. now repeat split.
Qed.


(** C6. Each of the five poison outcomes of an iteration - the body does
    not parse, the run is missing, no worker version is selected, no task
    of the worker has the slug of the run, the lock update fails - ends
    with the message acknowledged (never nacked), the next iteration
    scheduled in 100 ms, and the store, so the attempt table, untouched. *)
Theorem poison_messages_are_acknowledged :
  forall (inp : Ambient) (w : World) (message : QueueMessage),
    marqs w = true ->
    rejects inp DequeueMessageInEnv = None ->
    dequeued inp = Some message ->
    rejects inp AcknowledgeMessage = None ->
    Poison inp w message ->
    exists w',
      doWorkInternal inp w = (Returned tt, w')
      /\ queue w' = (queue w ++ [Acknowledged (msg_messageId message)])%list
      /\ timers w' = (timers w ++ [100])%list
      /\ prisma w' = prisma w
      /\ taskRunAttempt (prisma w') = taskRunAttempt (prisma w)
      /\ sent w' = sent w.
Proof.
  intros inp w message Hm Hdq Hmsg Hack Hp.
  run_async.
  destruct Hp as [Hb | Hb Hfu Hrun | run Hb Hfu Hrun Hsel
                 | run worker Hb Hfu Hrun Hsel Htask
                 | run worker task Hb Hfu Hrun Hsel Htask Hup Hlock];
    destruct (MessageBody_safeParse (msg_data message)) as [body|] eqn:Hparse;
    try congruence;
    destruct (stopRequested inp); simpl; rewrite Hm, Hdq; simpl;
    rewrite Hmsg; simpl; rewrite Hparse; simpl;
    try (rewrite Hfu; simpl; rewrite Hrun; simpl;
         rewrite ?selectBackgroundWorker_set_enabled);
    try (rewrite Hsel; simpl);
    try (rewrite Htask; simpl);
    try (rewrite Hup; simpl; rewrite Hlock; simpl);
    rewrite Hm, Hack; simpl;
    (eexists; split; [reflexivity|]); simpl; repeat split.
Qed.

(** ** Every outcome of an iteration *)

Ltac destruct_head t :=
  lazymatch t with
  | match ?x with _ => _ end => first [ destruct_head x | destruct x eqn:? ]
  | ?f _ => destruct_head f
  end.

Ltac case_step :=
  simpl;
  lazymatch goal with
  | |- ?lhs = _ -> _ => destruct_head lhs
  end.

Lemma taskRun_update_inv (db db' : Store) (id : string) (r r' : TaskRun)
  (lockedAt : option Z) (lockedById : option string) :
  taskRun_findUnique db id = Some r ->
  taskRun_update db id lockedAt lockedById = Some (db', r') ->
  r' = with_lock lockedAt lockedById r
  /\ run_id r = id
  /\ taskRun_findUnique db' id = Some r'
  /\ taskRunAttempt db' = taskRunAttempt db
  /\ taskQueue db' = taskQueue db
  /\ backgroundWorker db' = backgroundWorker db.
Proof.
  intros Hfind Hupd.
  destruct (taskRun_update_found db id r lockedAt lockedById Hfind)
    as (db1 & E & H1 & H2 & H3 & H4).
  rewrite E in Hupd. injection Hupd as <- <-.
  repeat split; try assumption.
  now apply taskRun_findUnique_id with db.
Qed.

Lemma taskRunAttempt_create_inv (db db' : Store) (a : TaskRunAttempt) :
  taskRunAttempt_create db a = Some db' ->
  taskRunAttempt db' = (taskRunAttempt db ++ [a])%list
  /\ taskRun db' = taskRun db
  /\ taskQueue db' = taskQueue db
  /\ backgroundWorker db' = backgroundWorker db
  /\ forall x, In x (taskRunAttempt db) -> att_id x <> att_id a.
Proof.
  unfold taskRunAttempt_create.
  destruct (existsb _ _) eqn:E; [discriminate|].
  intros [= <-]. simpl. repeat split. now apply existsb_taken.
Qed.

Lemma taskRunAttempt_delete_inv (db db' : Store) (id : string) :
  taskRunAttempt_delete db id = Some db' ->
  taskRunAttempt db'
  = filter (fun x => negb (String.eqb (att_id x) id)) (taskRunAttempt db)
  /\ taskRun db' = taskRun db
  /\ taskQueue db' = taskQueue db
  /\ backgroundWorker db' = backgroundWorker db.
Proof.
  unfold taskRunAttempt_delete.
  destruct (existsb _ _); [|discriminate].
  intros [= <-]. simpl. repeat split.
Qed.

Lemma taskRun_update_some (db db' : Store) (id : string) (r' : TaskRun)
  (lockedAt : option Z) (lockedById : option string) :
  taskRun_update db id lockedAt lockedById = Some (db', r') ->
  exists r, taskRun_findUnique db id = Some r.
Proof.
  unfold taskRun_update.
  destruct (taskRun_findUnique db id) as [r|]; [|discriminate].
  intros _. now exists r.
Qed.

Ltac store_facts :=
  repeat match goal with
  | Hf : taskRun_findUnique ?db ?id = Some ?r,
    Hu : taskRun_update ?db ?id _ _ = Some (_, _) |- _ =>
      destruct (taskRun_update_inv _ _ _ _ _ _ _ Hf Hu)
        as (? & ? & ? & ? & ? & ?); clear Hu
  | Hu : taskRun_update ?db ?id _ _ = Some (_, _) |- _ =>
      let r := fresh "r" in
      let Hf := fresh "Hf" in
      destruct (taskRun_update_some _ _ _ _ _ _ Hu) as [r Hf]
  | Hc : taskRunAttempt_create _ _ = Some _ |- _ =>
      apply taskRunAttempt_create_inv in Hc;
      destruct Hc as (? & ? & ? & ? & ?)
  | Hd : taskRunAttempt_delete _ _ = Some _ |- _ =>
      apply taskRunAttempt_delete_inv in Hd;
      destruct Hd as (? & ? & ? & ?)
  end.



Ltac leaves := repeat case_step; simpl; intros [= <- <-]; simpl; store_facts.

Lemma filter_created (id : string) (atts : list TaskRunAttempt)
  (a : TaskRunAttempt) :
  att_id a = id ->
  (forall x, In x atts -> att_id x <> att_id a) ->
  filter (fun x => negb (String.eqb (att_id x) id)) (atts ++ [a]) = atts.
Proof.
  intros <- H. rewrite filter_app. simpl. rewrite String.eqb_refl. simpl.
  rewrite app_nil_r. now apply filter_other_ids.
Qed.

(** The attempt table after an iteration, whatever its outcome: as before,
    or with the attempt of step 9 appended. *)
Lemma doWorkInternal_attempts inp w r w' :
  doWorkInternal inp w = (r, w') ->
  taskRunAttempt (prisma w') = taskRunAttempt (prisma w)
  \/ exists message run task q,
       dequeued inp = Some message
       /\ taskRun_findUnique (prisma w) (msg_messageId message) = Some run
       /\ taskRunAttempt (prisma w')
          = (taskRunAttempt (prisma w)
             ++ [newAttempt inp (prisma w) run task q])%list.
Proof.
  run_async. leaves.
  all: try (left; congruence).
  all: try (left;
            match goal with
            | Hd : taskRunAttempt ?s4
                   = filter (fun x => negb (String.eqb (att_id x) ?id))
                            (taskRunAttempt ?s3),
              H3 : taskRunAttempt ?s3 = taskRunAttempt ?s0,
              Hc : taskRunAttempt ?s0 = (taskRunAttempt ?s ++ [?a])%list,
              Hfresh : forall x, In x (taskRunAttempt ?s) -> _ |- _ =>
                rewrite Hd, H3, Hc;
                rewrite (filter_created id _ a eq_refl Hfresh); congruence
            end).
  all: right;
    match goal with
    | Hq : dequeued _ = Some ?q,
      Hf : taskRun_findUnique (prisma _) (msg_messageId ?q) = Some ?t,
      Hc : taskRunAttempt _ = (taskRunAttempt ?s ++
             [mkAttempt _ _ _ _ _ _ _ _ _ (task_id ?b0) (q_id ?t1) _ _ _])%list
      |- _ =>
        exists q, t, b0, t1
    end;
    (split; [first [assumption | reflexivity]|]); (split; [assumption|]);
    repeat match goal with H : taskRunAttempt _ = _ |- _ => rewrite H end;
    unfold newAttempt; subst; simpl;
    match goal with
    | Ha : taskRunAttempt ?s = taskRunAttempt (prisma ?w0) |- _ =>
        rewrite (lastAttempts_ext (prisma w0) s) by exact Ha
    end;
    match goal with H : run_id _ = msg_messageId _ |- _ => rewrite H end;
    reflexivity.
Qed.


(** What an iteration leaves alone in the dispatcher. *)
Lemma doWorkInternal_frame inp w r w' :
  doWorkInternal inp w = (r, w') ->
  env (consumer w') = env (consumer w)
  /\ _backgroundWorkers (consumer w') = _backgroundWorkers (consumer w)
  /\ _options (consumer w') = _options (consumer w)
  /\ _perTraceCountdown (consumer w') = _perTraceCountdown (consumer w)
  /\ _lastNewTrace (consumer w') = _lastNewTrace (consumer w)
  /\ _currentSpanContext (consumer w') = _currentSpanContext (consumer w)
  /\ _currentSpan (consumer w') = _currentSpan (consumer w)
  /\ _taskFailures (consumer w') = _taskFailures (consumer w)
  /\ _taskSuccesses (consumer w') = _taskSuccesses (consumer w)
  /\ _enabled (consumer w')
     = (if stopRequested inp then false else _enabled (consumer w))
  /\ (_endSpanInNextIteration (consumer w')
      = _endSpanInNextIteration (consumer w)
      \/ _endSpanInNextIteration (consumer w') = true)
  /\ marqs w' = marqs w
  /\ events w' = events w
  /\ unhandledRejections w' = unhandledRejections w
  /\ filter isStart (tracer w') = filter isStart (tracer w).
Proof.
  run_async. repeat case_step; simpl; intros [= <- <-]; simpl.
  all: rewrite ?filter_app; simpl; rewrite ?app_nil_r.
  all: try (exfalso; congruence).
  all: repeat split; auto.
Qed.

(** A message reaches the worker only at the end of the path of
    [ReachesSend]. *)
Lemma doWorkInternal_sent inp w r w' :
  doWorkInternal inp w = (r, w') ->
  sent w' = sent w
  \/ exists message run worker task q,
       ReachesSend inp w message run worker task q
       /\ rejects inp SenderSend = None
       /\ sent w'
          = (sent w
             ++ [buildMessage (consumer w) worker task
                   (lockedRun inp task run) q
                   (newAttempt inp (prisma w) run task q)])%list.
Proof.
  run_async. leaves.
  all: try (left; reflexivity).
  right.
  match goal with
  | Hq : dequeued _ = Some ?q,
    Hf : taskRun_findUnique (prisma _) (msg_messageId ?q) = Some ?t,
    Hs : selectBackgroundWorker _ ?t = Some ?b,
    Hc : taskRunAttempt _ = (taskRunAttempt ?s ++
           [mkAttempt _ _ _ _ _ _ _ _ _ (task_id ?b0) (q_id ?t1) _ _ _])%list
    |- _ =>
      exists q, t, b, b0, t1
  end.
  subst. simpl in *.
  split; [|split; [first [assumption | reflexivity]|]].
  - constructor; try assumption; try congruence.
    + unfold taskQueue_findUnique in *. congruence.
    + now destruct (_enabled (consumer w)).
    + intros a Ha. match goal with H : forall x, In x _ -> _ |- _ => apply H end.
      congruence.
    + intros c [<-|[<-|[<-|[<-|[<-|[]]]]]]; assumption.
  - unfold newAttempt, lockedRun.
    match goal with
    | Ha : taskRunAttempt ?s = taskRunAttempt (prisma ?w0) |- _ =>
        rewrite (lastAttempts_ext (prisma w0) s) by exact Ha
    end.
    match goal with H : run_id _ = msg_messageId _ |- _ => rewrite H end.
    reflexivity.
Qed.

Lemma taskRunAttempt_create_none (db : Store) (a : TaskRunAttempt) :
  taskRunAttempt_create db a = None ->
  exists x, In x (taskRunAttempt db) /\ att_id x = att_id a.
Proof.
  unfold taskRunAttempt_create.
  destruct (existsb _ _) eqn:E; [|discriminate].
  intros _. apply existsb_exists in E. destruct E as (x & Hx & E).
  exists x. split; [exact Hx|]. now apply String.eqb_eq.
Qed.

Lemma taskRunAttempt_delete_none (db : Store) (id : string) :
  taskRunAttempt_delete db id = None ->
  forall x, In x (taskRunAttempt db) -> att_id x <> id.
Proof.
  unfold taskRunAttempt_delete.
  destruct (existsb _ _) eqn:E; [discriminate|].
  intros _. now apply existsb_taken.
Qed.

Lemma taskRun_update_none (db : Store) (id : string)
  (lockedAt : option Z) (lockedById : option string) :
  taskRun_update db id lockedAt lockedById = None ->
  taskRun_findUnique db id = None.
Proof.
  unfold taskRun_update.
  now destruct (taskRun_findUnique db id).
Qed.

Lemma doWorkInternal_returns inp w r w' :
  (forall c, c <> SenderSend -> rejects inp c = None) ->
  (forall a, In a (taskRunAttempt (prisma w)) ->
             att_id a <> freshAttemptId inp) ->
  doWorkInternal inp w = (r, w') ->
  r = Returned tt /\ ResumesOrStops w w'.
Proof.
  intros Hcalls Hfresh. revert r w'. intros r w'.
  run_async. leaves.
  all: try match goal with
       | Hc : forall c, c <> SenderSend -> _, H : rejects _ ?c = Some _ |- _ =>
           rewrite (Hc c) in H by discriminate; discriminate
       end.
  all: try (exfalso; congruence).
  all: unfold ResumesOrStops; simpl.
  all: try (split; [reflexivity|]; left; eexists; split; [reflexivity|]; tauto).
  all: try (split; [reflexivity|]; right; split; [reflexivity|]; split;
            [ first [ reflexivity
                    | match goal with
                      | H : negb (_enabled ?c) = true |- _ =>
                          destruct (_enabled c); simpl in *; congruence
                      end ]
            | eexists; reflexivity ]).
  all: exfalso.
  all: try match goal with
       | H : taskRunAttempt_create _ _ = None,
         Hf : forall a, In a _ -> _ |- _ =>
           apply taskRunAttempt_create_none in H;
           destruct H as (x & Hx & E); simpl in E;
           apply (Hf x); [congruence | exact E]
       end.
  all: try match goal with
       | H : taskRun_update _ _ _ _ = None |- _ =>
           apply taskRun_update_none in H; subst; simpl in *;
           unfold taskRun_findUnique in *;
           match goal with
           | E : run_id _ = msg_messageId _ |- _ => rewrite E in *
           end;
           congruence
       end.
  all: match goal with
       | H : taskRunAttempt_delete ?s3 ?id = None,
         E3 : taskRunAttempt ?s3 = taskRunAttempt ?s0,
         E0 : taskRunAttempt ?s0 = (_ ++ [?a])%list |- _ =>
           apply (taskRunAttempt_delete_none _ _ H a);
           [ rewrite E3, E0; apply in_or_app; right; now left | reflexivity ]
       end.
Qed.

(** ** The trace window *)

Ltac run_window :=
  cbv beta delta [checkTraceWindow traceExpired newTrace tracer_startSpan
    span_emit bind ret throw this update];
  simpl.

Lemma is_zero_spec (n : option JsNumber) :
  is_zero n = true <-> n = Some (Num 0).
Proof.
  destruct n as [[|z]|]; simpl; try (split; discriminate).
  rewrite Z.eqb_eq. split; [now intros -> | now intros [= ->]].
Qed.

(** The window check leaves the queue, the store, the transport, the timers
    and the registry alone, and does not throw once a window was opened. *)
Lemma checkTraceWindow_frame (inp : Ambient) (w : World) :
  _lastNewTrace (consumer w) <> None ->
  exists w1,
    checkTraceWindow inp w = (Returned tt, w1)
    /\ timers w1 = timers w /\ queue w1 = queue w /\ prisma w1 = prisma w
    /\ sent w1 = sent w /\ marqs w1 = marqs w /\ events w1 = events w
    /\ unhandledRejections w1 = unhandledRejections w
    /\ _enabled (consumer w1) = _enabled (consumer w)
    /\ _backgroundWorkers (consumer w1) = _backgroundWorkers (consumer w)
    /\ env (consumer w1) = env (consumer w)
    /\ _options (consumer w1) = _options (consumer w)
    /\ _lastNewTrace (consumer w1) <> None
    /\ (_currentSpanContext (consumer w) = None
        \/ _currentSpan (consumer w) <> None ->
        _currentSpan (consumer w1) <> None
        /\ _currentSpanContext (consumer w1) <> None).
Proof.
  intros Hopened. run_window.
  destruct (_lastNewTrace (consumer w)) as [opened|] eqn:Eo; [|congruence].
  destruct (is_zero (_perTraceCountdown (consumer w))); simpl.
  - destruct (_currentSpan (consumer w)); simpl;
      (eexists; split; [reflexivity|]); simpl; repeat split; congruence.
  - destruct (now inp - opened >? _); simpl;
      [|destruct (_currentSpanContext (consumer w)) eqn:Ec; simpl;
        [destruct (_endSpanInNextIteration (consumer w)); simpl|]];
      destruct (_currentSpan (consumer w)) eqn:Es; simpl;
      (eexists; split; [reflexivity|]); simpl; repeat split;
      try congruence;
      try (match goal with H : _ \/ _ |- _ => destruct H; congruence end).
Qed.

(** C9. At the start of an iteration the window rolls over exactly when the
    countdown is 0, or more than the timeout has passed since the window
    was opened, or no span is open, or the force-rollover flag is set.
    Rolling over, the open span gets the attributes
    [tasks.period.failures] and [tasks.period.successes] and is ended
    before the new one is started, and the countdown, the counters, the
    timestamp and the flag are reset; otherwise nothing changes. *)
Theorem trace_window_rollover :
  forall (inp : Ambient) (w : World) (opened : Z),
    _lastNewTrace (consumer w) = Some opened ->
    (_currentSpanContext (consumer w) = None
     <-> _currentSpan (consumer w) = None) ->
    let c := consumer w in
    (_enabled c = true ->
     doWork inp w
     = (checkTraceWindow inp ;; doWorkInternal inp ;; countDown) w)
    /\ exists w1,
         checkTraceWindow inp w = (Returned tt, w1)
         /\ (~ rolloverDue inp c opened -> w1 = w)
         /\ (rolloverDue inp c opened ->
             let s := List.length (filter isStart (tracer w)) in
             tracer w1
             = (tracer w ++ closing c
                ++ [StartSpan s "EnvironmentQueueConsumer.doWork()"
                      (env_id (env c))])%list
             /\ _currentSpan (consumer w1) = Some s
             /\ _currentSpanContext (consumer w1) = Some (ContextWithSpan s)
             /\ _perTraceCountdown (consumer w1)
                = Some (Num (maximumItemsPerTrace (_options c)))
             /\ _lastNewTrace (consumer w1) = Some (now inp)
             /\ _taskFailures (consumer w1) = 0
             /\ _taskSuccesses (consumer w1) = 0
             /\ _endSpanInNextIteration (consumer w1) = false
             /\ _enabled (consumer w1) = _enabled c
             /\ _backgroundWorkers (consumer w1) = _backgroundWorkers c
             /\ queue w1 = queue w /\ prisma w1 = prisma w
             /\ sent w1 = sent w /\ timers w1 = timers w).
Proof.
  intros inp w opened Ho Hcoh. cbv zeta. split.
  { intros Hen. unfold doWork, bind at 1, this. rewrite Hen.
    reflexivity. }
  assert (Hdue :
    rolloverDue inp (consumer w) opened
    <-> (is_zero (_perTraceCountdown (consumer w))
         || ((now inp - opened
              >? traceTimeoutSeconds (_options (consumer w)) * 1000)
             || (match _currentSpanContext (consumer w) with
                 | None => true | _ => false end)
             || _endSpanInNextIteration (consumer w))) = true).
  { unfold rolloverDue. rewrite !orb_true_iff, is_zero_spec.
    rewrite Z.gtb_gt.
    assert (Hc : (match _currentSpanContext (consumer w) with
                  | None => true | _ => false end) = true
                 <-> _currentSpan (consumer w) = None).
    { rewrite <- Hcoh.
      destruct (_currentSpanContext (consumer w)); split; congruence. }
    rewrite Hc. tauto. }
  clear Hcoh. run_window. rewrite Ho. unfold closing.
  destruct (is_zero (_perTraceCountdown (consumer w))) eqn:Ez; simpl in *.
  - destruct (_currentSpan (consumer w)); simpl;
      (eexists; split; [reflexivity|]);
      (split; [intros Hn; exfalso; apply Hn, Hdue; reflexivity|]);
      intros _; simpl; rewrite ?filter_app; simpl; rewrite ?app_nil_r;
      repeat split; rewrite <- ?app_assoc; reflexivity.
  - destruct ((now inp - opened
               >? traceTimeoutSeconds (_options (consumer w)) * 1000)
              || (match _currentSpanContext (consumer w) with
                  | None => true | _ => false end)
              || _endSpanInNextIteration (consumer w)) eqn:Eb; simpl.
    + destruct (_currentSpan (consumer w)); simpl;
        (eexists; split; [reflexivity|]);
        (split; [intros Hn; exfalso; apply Hn, Hdue; reflexivity|]);
        intros _; simpl; rewrite ?filter_app; simpl; rewrite ?app_nil_r;
        repeat split; rewrite <- ?app_assoc; reflexivity.
    + exists w. split; [reflexivity|]. split; [reflexivity|].
      intros Hd. apply Hdue in Hd. discriminate.
Qed.

(** ** The whole iteration *)

Lemma countDown_runs (w : World) :
  countDown w
  = (Returned tt,
     set_consumer
       (set_perTraceCountdown
          (Some (js_sub (_perTraceCountdown (consumer w)) 1)) (consumer w))
       w).
Proof. reflexivity. Qed.

(** An iteration from which no queue or store call rejects returns. *)
Lemma doWork_returns (inp : Ambient) (w : World) :
  (forall c, c <> SenderSend -> rejects inp c = None) ->
  (forall a, In a (taskRunAttempt (prisma w)) ->
             att_id a <> freshAttemptId inp) ->
  (_enabled (consumer w) = true -> _lastNewTrace (consumer w) <> None) ->
  exists w',
    doWork inp w = (Returned tt, w')
    /\ (_enabled (consumer w) = false -> w' = w)
    /\ (_enabled (consumer w) = true -> ResumesOrStops w w').
Proof.
  intros Hcalls Hfresh Hopened. unfold doWork, bind at 1, this.
  destruct (_enabled (consumer w)) eqn:Hen; simpl.
  - destruct (checkTraceWindow_frame inp w (Hopened eq_refl))
      as (w1 & Hw1 & Ht1 & Hq1 & Hp1 & _).
    destruct (doWorkInternal inp w1) as [r w2] eqn:Hw2.
    destruct (doWorkInternal_returns inp w1 r w2 Hcalls) as [-> Hrs];
      [now rewrite Hp1 | exact Hw2 |].
    unfold bind. rewrite Hw1, Hw2, countDown_runs.
    eexists. split; [reflexivity|]. split; [discriminate|]. intros _.
    unfold ResumesOrStops in *. simpl. rewrite <- Ht1, <- Hq1. exact Hrs.
  - exists w. split; [reflexivity|]. split; [reflexivity|discriminate].
Qed.

(** C2, as the code has it. When no queue or store call of the iteration
    rejects (the transport send may throw) and the store accepts the id of
    the new attempt, [#doWorkInternal] and [#doWork] return: a disabled
    dispatcher does nothing, and an iteration schedules the next one in 100
    or 1000 ms or, stopped in mid-iteration, nacks the message and
    schedules nothing. *)
Theorem iteration_returns_unless_a_call_rejects :
  forall (inp : Ambient) (w : World),
    (forall c, c <> SenderSend -> rejects inp c = None) ->
    (forall a, In a (taskRunAttempt (prisma w)) ->
               att_id a <> freshAttemptId inp) ->
    (_enabled (consumer w) = true -> _lastNewTrace (consumer w) <> None) ->
    (exists w',
       doWorkInternal inp w = (Returned tt, w') /\ ResumesOrStops w w')
    /\ exists w',
         doWork inp w = (Returned tt, w')
         /\ (_enabled (consumer w) = false -> w' = w)
         /\ (_enabled (consumer w) = true -> ResumesOrStops w w').
Proof.
  intros inp w Hcalls Hfresh Hopened. split.
  - destruct (doWorkInternal inp w) as [r w'] eqn:E.
    destruct (doWorkInternal_returns inp w r w' Hcalls Hfresh E) as [-> H].
    now exists w'.
  - now apply doWork_returns.
Qed.

(** A rejected dequeue escapes the iteration, and nothing is scheduled. *)
Lemma rejected_dequeue_propagates (inp : Ambient) (w : World) (e : string) :
  marqs w = true -> _enabled (consumer w) = true ->
  _lastNewTrace (consumer w) <> None ->
  rejects inp DequeueMessageInEnv = Some e ->
  exists w',
    doWork inp w = (Threw e, w')
    /\ timers w' = timers w /\ queue w' = queue w.
Proof.
  intros Hm Hen Hopened Hrej. unfold doWork, bind at 1, this.
  rewrite Hen. simpl.
  destruct (checkTraceWindow_frame inp w Hopened)
    as (w1 & Hw1 & Ht1 & Hq1 & Hp1 & _ & Hm1 & _).
  unfold bind at 1. rewrite Hw1. unfold bind at 1.
  assert (Hi : exists w2, doWorkInternal inp w1 = (Threw e, w2)
                          /\ timers w2 = timers w1 /\ queue w2 = queue w1).
  { run_async. destruct (stopRequested inp); simpl; rewrite Hm1, Hm, Hrej;
      simpl; (eexists; split; [reflexivity|]); simpl; now split. }
  destruct Hi as (w2 & -> & Ht2 & Hq2).
  exists w2. split; [reflexivity|]. split; congruence.
Qed.

(** The counterexample to C2: the pending timer fires, the queue client
    rejects the dequeue, and the rejection leaves [#doWorkInternal] and
    [#doWork]; no iteration is scheduled and no queue action was taken. *)
Lemma dequeue_rejection_escapes_the_loop :
  fst (doWork Scenario.dequeueFails Scenario.registered) = Threw "ECONNRESET"
  /\ fst (doWorkInternal Scenario.dequeueFails Scenario.registered)
     = Threw "ECONNRESET"
  /\ timers (snd (doWork Scenario.dequeueFails Scenario.registered))
     = timers Scenario.registered
  /\ queue (snd (doWork Scenario.dequeueFails Scenario.registered)) = []
  /\ timers (fireTimer Scenario.dequeueFails 0 Scenario.registered) = []
  /\ unhandledRejections
       (fireTimer Scenario.dequeueFails 0 Scenario.registered)
     = ["ECONNRESET"]
  /\ ~ (exists w', doWork Scenario.dequeueFails Scenario.registered
                   = (Returned tt, w')).
Proof.
  repeat split; try (vm_compute; reflexivity).
  intros [w' H]. apply (f_equal fst) in H. vm_compute in H. discriminate.
Qed.

(** ** The execution descriptor *)

Lemma lookup_In {A : Type} (k : string) (o : list (string * A)) (v : A) :
  lookup k o = Some v -> In v (map snd o).
Proof.
  induction o as [|[k' v'] o IH]; simpl; [discriminate|].
  destruct (String.eqb k k'); [intros [= <-]; now left | right; now apply IH].
Qed.

Lemma getLatestBackgroundWorker_In (c : EnvironmentQueueConsumer)
  (worker : BackgroundWorker) :
  getLatestBackgroundWorker c = Some worker ->
  In worker (map snd (_backgroundWorkers c)).
Proof.
  unfold getLatestBackgroundWorker.
  destruct (map snd (_backgroundWorkers c)) as [|first rest]; [discriminate|].
  intros [= <-]. apply (reduce_latest_greatest rest first).
Qed.

Lemma selectBackgroundWorker_In (c : EnvironmentQueueConsumer)
  (run : TaskRun) (worker : BackgroundWorker) :
  selectBackgroundWorker c run = Some worker ->
  In worker (map snd (_backgroundWorkers c)).
Proof.
  unfold selectBackgroundWorker.
  destruct (run_lockedToVersionId run) as [v|].
  - destruct (String.eqb v "").
    + apply getLatestBackgroundWorker_In.
    + apply lookup_In.
  - apply getLatestBackgroundWorker_In.
Qed.

Lemma app_one_neq {A : Type} (l : list A) (x : A) : l <> (l ++ [x])%list.
Proof.
  intros E. apply (f_equal (@List.length A)) in E.
  rewrite length_app in E. simpl in E. lia.
Qed.

(** C1, as the code has it. In every message an iteration sends, the
    top-level [backgroundWorkerId], [attempt.id], [run.id] and [queue.id]
    are the friendly ids of the selected worker, of the attempt just
    created, of the locked run and of its queue; [attempt.backgroundWorkerId]
    and [attempt.backgroundWorkerTaskId] are the database ids of the worker
    and of the task, and [environment.id], [organization.id] and
    [project.id] are the database ids of the tenant records. The rows are
    those of this iteration: the run is the run of the dequeued message, as
    the iteration locked it; the worker is the one selected for that run
    and the task the one matched in it; the queue is the queue of the run
    in the environment; the attempt is the row the iteration added for the
    run. *)
Theorem outbound_identifiers :
  forall (inp : Ambient) (w w' : World) (r : Completion unit)
         (m : BackgroundWorkerMessage),
    doWorkInternal inp w = (r, w') ->
    sent w' = (sent w ++ [m])%list ->
    exists worker task run q attempt execution,
      In worker (map snd (_backgroundWorkers (consumer w)))
      /\ In task (bw_tasks worker)
      /\ taskRun_findUnique (prisma w') (run_id run) = Some run
      /\ In q (taskQueue (prisma w))
      /\ In attempt (taskRunAttempt (prisma w'))
      /\ out_payloads m = [mkPayload execution (run_traceContext run)]
      /\ out_backgroundWorkerId m = bw_friendlyId worker
      /\ ea_id (ex_attempt execution) = att_friendlyId attempt
      /\ er_id (ex_run execution) = run_friendlyId run
      /\ eq_id (ex_queue execution) = q_friendlyId q
      /\ ea_backgroundWorkerId (ex_attempt execution) = bw_id worker
      /\ ea_backgroundWorkerTaskId (ex_attempt execution) = task_id task
      /\ ee_id (ex_environment execution) = env_id (env (consumer w))
      /\ eo_id (ex_organization execution)
         = org_id (env_organization (env (consumer w)))
      /\ ep_id (ex_project execution)
         = proj_id (env_project (env (consumer w)))
      /\ (exists message found,
            dequeued inp = Some message
            /\ run_id run = msg_messageId message
            /\ taskRun_findUnique (prisma w) (msg_messageId message)
               = Some found
            /\ run = with_lock (Some (now inp)) (Some (task_id task)) found)
      /\ selectBackgroundWorker (consumer w) run = Some worker
      /\ findBackgroundTask worker run = Some task
      /\ taskQueue_findUnique (prisma w) (env_id (env (consumer w)))
                              (run_queue run) = Some q
      /\ taskRunAttempt (prisma w')
         = (taskRunAttempt (prisma w) ++ [attempt])%list
      /\ att_taskRunId attempt = run_id run
      /\ att_friendlyId attempt = freshFriendlyId inp
      /\ m = mkOutMessage (bw_friendlyId worker)
                          [mkPayload execution (run_traceContext run)].
Proof.
  intros inp w w' r m Hrun Hsent.
  destruct (doWorkInternal_sent inp w r w' Hrun)
    as [E | (message & run & worker & task & q & Hreach & Hsend & E)].
  { rewrite E in Hsent. now apply app_one_neq in Hsent. }
  rewrite E in Hsent. apply app_inv_head in Hsent. injection Hsent as <-.
  destruct (dispatch_succeeds _ _ _ _ _ _ _ Hreach Hsend)
    as (w'' & Hrun' & _ & _ & _ & _ & _ & Hatt & Hfind).
  rewrite Hrun in Hrun'. injection Hrun' as -> <-.
  assert (Hid : run_id run = msg_messageId message).
  { destruct Hreach. now apply taskRun_findUnique_id with (prisma w). }
  exists worker, task, (lockedRun inp task run), q,
         (newAttempt inp (prisma w) run task q).
  eexists. simpl.
  destruct Hreach as [_ Hdq _ Hfound Hworker Htask _ Hq _ _ _ _].
  repeat (split; [first
    [ now apply selectBackgroundWorker_In with run
    | unfold findBackgroundTask in Htask; now apply find_some in Htask
    | rewrite Hid; exact Hfind
    | unfold taskQueue_findUnique in Hq; now apply find_some in Hq
    | rewrite Hatt; apply in_or_app; right; now left
    | exists message, run; repeat split; assumption
    | assumption
    | reflexivity ]|]).
  reflexivity.
Qed.

(** The counterexample to C1: the message of the dispatch of [r1] carries
    five database ids - of the worker, of the task, of the environment, of
    the organization and of the project - none of which is a friendly id. *)
Lemma descriptor_carries_database_ids :
  exists m,
    sent Scenario.dispatched = [m]
    /\ outboundIdentifiers m
       = ["worker_one"; "attempt_a1"; "clworker0001"; "cltask0001"; "run_r1";
          "queue_q1"; "clenv0001"; "clorg0001"; "clproj0001"]
    /\ filter (fun i => existsb (String.eqb i)
                          (databaseIds Scenario.dispatched))
              (outboundIdentifiers m)
       = ["clworker0001"; "cltask0001"; "clenv0001"; "clorg0001";
          "clproj0001"]
    /\ filter (fun i => existsb (String.eqb i)
                          (friendlyIds Scenario.dispatched))
              (outboundIdentifiers m)
       = ["worker_one"; "attempt_a1"; "run_r1"; "queue_q1"]
    /\ ~ (forall i, In i (outboundIdentifiers m) ->
                    ~ In i (databaseIds Scenario.dispatched)).
Proof.
  eexists. split; [vm_compute; reflexivity|].
  split; [vm_compute; reflexivity|].
  split; [vm_compute; reflexivity|].
  split; [vm_compute; reflexivity|].
  intros H. apply (H "clworker0001"); vm_compute; tauto.
Qed.

(** ** Attempt numbers *)

Lemma greatest_none (l : list TaskRunAttempt) :
  greatest l = None -> l = [].
Proof.
  destruct l as [|a l]; simpl; [reflexivity|].
  destruct (greatest l) as [b|]; [|discriminate].
  destruct (att_number a <? att_number b); discriminate.
Qed.

Lemma greatest_max (l : list TaskRunAttempt) (g : TaskRunAttempt) :
  greatest l = Some g ->
  In g l /\ forall a, In a l -> att_number a <= att_number g.
Proof.
  revert g. induction l as [|a l IH]; simpl; intros g; [discriminate|].
  destruct (greatest l) as [b|] eqn:E.
  - destruct (IH b eq_refl) as [Hin Hmax].
    destruct (Z.ltb_spec (att_number a) (att_number b)); intros [= <-].
    + split; [now right|]. intros x [<-|Hx]; [lia | now apply Hmax].
    + split; [now left|]. intros x [<-|Hx]; [lia|].
      specialize (Hmax x Hx). lia.
  - intros [= <-]. apply greatest_none in E. subst l.
    split; [now left|]. intros x [<-|[]]. lia.
Qed.

(** Step 9 numbers the new attempt after the highest number of the run. *)
Lemma newAttempt_followsHighest (inp : Ambient) (db : Store) (run : TaskRun)
  (task : BackgroundWorkerTask) (q : TaskQueue) :
  followsHighest (attemptNumbers db (run_id run))
                 (att_number (newAttempt inp db run task q)).
Proof.
  unfold followsHighest, attemptNumbers, newAttempt, lastAttempts. simpl.
  destruct (greatest (attemptsOf db (run_id run))) as [g|] eqn:E.
  - right. exists (att_number g).
    destruct (greatest_max _ _ E) as [Hin Hmax].
    split; [now apply in_map|]. split; [|reflexivity].
    intros x Hx. apply in_map_iff in Hx. destruct Hx as (a & <- & Ha).
    now apply Hmax.
  - left. apply greatest_none in E. now rewrite E.
Qed.

Lemma oneTo_S (n : nat) : oneTo (S n) = (oneTo n ++ [Z.of_nat (S n)])%list.
Proof.
  unfold oneTo. rewrite seq_S, map_app. reflexivity.
Qed.

Lemma oneTo_In (n : nat) (x : Z) : In x (oneTo n) <-> 1 <= x <= Z.of_nat n.
Proof.
  unfold oneTo. rewrite in_map_iff. split.
  - intros (k & <- & Hk). apply in_seq in Hk. lia.
  - intros H. exists (Z.to_nat x). split; [lia|]. apply in_seq. lia.
Qed.

Lemma followsHighest_oneTo (n : nat) (x : Z) :
  followsHighest (oneTo n) x -> x = Z.of_nat (S n).
Proof.
  intros [[Hnil ->] | (h & Hin & Hmax & ->)].
  - destruct n; [reflexivity|]. rewrite oneTo_S in Hnil.
    now destruct (oneTo n).
  - apply oneTo_In in Hin.
    assert (Hn : In (Z.of_nat n) (oneTo n)) by (apply oneTo_In; lia).
    apply Hmax in Hn. lia.
Qed.

Lemma attemptNumbers_app (db db' : Store) (a : TaskRunAttempt)
  (runId : string) :
  taskRunAttempt db' = (taskRunAttempt db ++ [a])%list ->
  attemptNumbers db' runId
  = (attemptNumbers db runId
     ++ if String.eqb (att_taskRunId a) runId then [att_number a] else [])%list.
Proof.
  intros E. unfold attemptNumbers, attemptsOf.
  rewrite E, filter_app, map_app. simpl.
  now destruct (String.eqb (att_taskRunId a) runId).
Qed.

Lemma attemptNumbers_ext (db db' : Store) (runId : string) :
  taskRunAttempt db' = taskRunAttempt db ->
  attemptNumbers db' runId = attemptNumbers db runId.
Proof. unfold attemptNumbers, attemptsOf. now intros ->. Qed.

Lemma sequentialAttempts_ext (db db' : Store) :
  (forall runId, attemptNumbers db' runId = attemptNumbers db runId) ->
  sequentialAttempts db -> sequentialAttempts db'.
Proof.
  intros E H runId. destruct (H runId) as [n Hn]. exists n. now rewrite E.
Qed.

(** Inserting the attempt of step 9 keeps the numbers sequential. *)
Lemma sequentialAttempts_newAttempt (inp : Ambient) (db db' : Store)
  (run : TaskRun) (task : BackgroundWorkerTask) (q : TaskQueue) :
  taskRunAttempt db'
  = (taskRunAttempt db ++ [newAttempt inp db run task q])%list ->
  sequentialAttempts db -> sequentialAttempts db'.
Proof.
  intros E H runId. destruct (H runId) as [n Hn].
  rewrite (attemptNumbers_app db db' _ runId E). simpl att_taskRunId.
  destruct (String.eqb_spec (run_id run) runId) as [<-|_].
  - exists (S n). rewrite Hn, oneTo_S. f_equal. f_equal.
    apply followsHighest_oneTo. rewrite <- Hn.
    apply newAttempt_followsHighest.
  - exists n. now rewrite app_nil_r.
Qed.

Lemma doWorkInternal_sequential (inp : Ambient) (w : World) :
  sequentialAttempts (prisma w) ->
  sequentialAttempts (prisma (snd (doWorkInternal inp w))).
Proof.
  intros H. destruct (doWorkInternal inp w) as [r w'] eqn:E. simpl.
  destruct (doWorkInternal_attempts inp w r w' E)
    as [Ha | (message & run & task & q & _ & _ & Ha)].
  - apply sequentialAttempts_ext with (prisma w); [|exact H].
    intros runId. now apply attemptNumbers_ext.
  - now apply sequentialAttempts_newAttempt with inp (prisma w) run task q.
Qed.

Lemma checkTraceWindow_prisma (inp : Ambient) (w : World) :
  prisma (snd (checkTraceWindow inp w)) = prisma w.
Proof.
  run_window.
  destruct (is_zero (_perTraceCountdown (consumer w)));
    [|destruct (_lastNewTrace (consumer w)); simpl;
      [destruct ((_ >? _) || _ || _)|]];
    simpl; try reflexivity;
    destruct (_currentSpan (consumer w)); reflexivity.
Qed.

Lemma doWork_sequential (inp : Ambient) (w : World) :
  sequentialAttempts (prisma w) ->
  sequentialAttempts (prisma (snd (doWork inp w))).
Proof.
  intros H. unfold doWork, bind at 1, this.
  destruct (_enabled (consumer w)); simpl; [|exact H].
  unfold bind at 1.
  pose proof (checkTraceWindow_prisma inp w) as Hp.
  destruct (checkTraceWindow inp w) as [[[]|e] w1]; simpl in *;
    [|now rewrite Hp].
  unfold bind.
  assert (H1 : sequentialAttempts (prisma w1)) by now rewrite Hp.
  pose proof (doWorkInternal_sequential inp w1 H1) as H2.
  destruct (doWorkInternal inp w1) as [[[]|e] w2]; simpl in *; exact H2.
Qed.

Lemma detach_doWork_sequential (inp : Ambient) (w : World) :
  sequentialAttempts (prisma w) ->
  sequentialAttempts (prisma (detach (doWork inp) w)).
Proof.
  intros H. unfold detach.
  pose proof (doWork_sequential inp w H) as H1.
  destruct (doWork inp w) as [[[]|e] w1]; simpl in *; exact H1.
Qed.

Lemma attemptNumbers_map (db : Store) (P : TaskRunAttempt -> bool)
  (f : TaskRunAttempt -> TaskRunAttempt) (runId : string) :
  (forall a, att_number (f a) = att_number a
             /\ att_taskRunId (f a) = att_taskRunId a) ->
  attemptNumbers
    (with_taskRunAttempt
       (map (fun x => if P x then f x else x) (taskRunAttempt db)) db) runId
  = attemptNumbers db runId.
Proof.
  intros Hf. unfold attemptNumbers, attemptsOf. simpl.
  induction (taskRunAttempt db) as [|a l IH]; simpl; [reflexivity|].
  destruct (Hf a) as [Hn Hr].
  destruct (P a); rewrite ?Hr;
    destruct (String.eqb (att_taskRunId a) runId); simpl;
    rewrite ?Hn, IH; reflexivity.
Qed.

Ltac run_completion :=
  cbv beta delta [taskRunCompleted taskHeartbeat registerBackgroundWorker
    stop bind ret throw await this update prisma_taskRunAttempt_update
    recordEvent marqs_nackMessage marqs_acknowledgeMessage
    marqs_heartbeatMessage];
  simpl.

(** The completion handler changes the status of an attempt, never its
    number or its run. *)
Lemma taskRunCompleted_attemptNumbers (core : Imports) (inp : Ambient)
  (workerId : string) (completion : TaskRunExecutionResult)
  (execution : TaskRunExecution) (w : World) (r : Completion unit)
  (w' : World) (runId : string) :
  taskRunCompleted core inp workerId completion execution w = (r, w') ->
  attemptNumbers (prisma w') runId = attemptNumbers (prisma w) runId.
Proof.
  run_completion. destruct completion as [id output outputType|id error retry].
  all: repeat case_step; simpl; intros [= <- <-]; simpl.
  all: try reflexivity.
  all: apply attemptNumbers_map; intro; split; reflexivity.
Qed.

Lemma taskHeartbeat_prisma (inp : Ambient) (workerId id : string)
  (seconds : option Z) (w : World) :
  prisma (snd (taskHeartbeat inp workerId id seconds w)) = prisma w.
Proof.
  destruct (taskHeartbeat inp workerId id seconds w) as [r w'] eqn:E.
  revert E. run_completion.
  repeat case_step; simpl; intros [= <- <-]; reflexivity.
Qed.

Lemma registerBackgroundWorker_sequential (inp : Ambient) (id : string)
  (w : World) :
  sequentialAttempts (prisma w) ->
  sequentialAttempts (prisma (snd (registerBackgroundWorker inp id w))).
Proof.
  intros H. unfold registerBackgroundWorker, bind, await, this, update.
  destruct (rejects inp BackgroundWorkerFindUnique); simpl; [exact H|].
  destruct (backgroundWorker_findUnique _ _ _) as [found|]; simpl; [|exact H].
  unfold enable. simpl.
  destruct (_enabled (consumer w)); simpl; [exact H|].
  now apply detach_doWork_sequential.
Qed.

(** Whatever happens to the dispatcher, the attempt numbers of every run
    stay [1, 2, 3, ...]. *)
Lemma perform_sequential (core : Imports) (op : Operation) (w : World) :
  sequentialAttempts (prisma w) ->
  sequentialAttempts (prisma (perform core op w)).
Proof.
  intros H. destruct op as [inp id|inp k|inp workerId completion execution
                           |inp workerId id|]; simpl.
  - now apply registerBackgroundWorker_sequential.
  - unfold fireTimer. destruct (nth_error (timers w) k); [|exact H].
    now apply detach_doWork_sequential.
  - destruct (taskRunCompleted core inp workerId completion execution w)
      as [r w'] eqn:E. simpl.
    apply sequentialAttempts_ext with (prisma w); [|exact H].
    intros runId. now apply taskRunCompleted_attemptNumbers with
      core inp workerId completion execution r.
  - now rewrite taskHeartbeat_prisma.
  - exact H.
Qed.

Lemma performAll_sequential (core : Imports) (ops : list Operation)
  (w : World) :
  sequentialAttempts (prisma w) ->
  sequentialAttempts (prisma (performAll core ops w)).
Proof.
  revert w. induction ops as [|op ops IH]; intros w H; simpl; [exact H|].
  apply IH. now apply perform_sequential.
Qed.

(** C7. The attempt an iteration creates is numbered after the highest
    number of its run, and 1 when the run has no attempt; so, from a store
    where the attempt numbers of every run are [1, 2, 3, ...] - an empty
    attempt table for one - they stay so whatever the dispatcher goes
    through. *)
Theorem attempt_numbers_are_sequential :
  (forall (inp : Ambient) (w w' : World) (r : Completion unit),
     doWorkInternal inp w = (r, w') ->
     taskRunAttempt (prisma w') = taskRunAttempt (prisma w)
     \/ exists a,
          taskRunAttempt (prisma w') = (taskRunAttempt (prisma w) ++ [a])%list
          /\ att_status a = EXECUTING
          /\ followsHighest (attemptNumbers (prisma w) (att_taskRunId a))
                            (att_number a))
  /\ (forall (core : Imports) (ops : list Operation) (w : World),
        sequentialAttempts (prisma w) ->
        sequentialAttempts (prisma (performAll core ops w)))
  /\ (forall w : World,
        taskRunAttempt (prisma w) = [] -> sequentialAttempts (prisma w)).
Proof.
  split; [|split].
  - intros inp w w' r E.
    destruct (doWorkInternal_attempts inp w r w' E)
      as [Ha | (message & run & task & q & _ & _ & Ha)]; [now left|].
    right. exists (newAttempt inp (prisma w) run task q).
    split; [exact Ha|]. split; [reflexivity|].
    apply newAttempt_followsHighest.
  - apply performAll_sequential.
  - intros w E runId. exists 0%nat.
    unfold attemptNumbers, attemptsOf. now rewrite E.
Qed.

(** ** Completion of a run *)

(** The style of a recorded event is the icon ["play"], whatever style the
    caller asked for. *)
Lemma buildEvent_style (core : Imports) (inp : Ambient) (message : string)
  (options : TraceEventOptions) (event : CreatableEvent) :
  buildEvent core inp message options = Returned event ->
  ev_style event
  = stripAttributePrefix [(STYLE_ICON core, JStr "play")] (STYLE core)
  /\ List.length (ev_style event) = 1%nat
  /\ forall k v, In (k, v) (ev_style event) -> v = JStr "play".
Proof.
  unfold buildEvent.
  destruct (ta_runId (teo_attributes options)) as [runId|]; [|discriminate].
  destruct (String.eqb runId ""); [discriminate|].
  intros [= <-]. simpl. split; [reflexivity|].
  unfold stripAttributePrefix. simpl.
  destruct (String.prefix (STYLE core) (STYLE_ICON core)); simpl;
    (split; [reflexivity|]); intros k v [[= _ <-]|[]]; reflexivity.
Qed.

Lemma buildEvent_fields (core : Imports) (inp : Ambient) (message : string)
  (options : TraceEventOptions) (event : CreatableEvent) (seed : string)
  (endTime : Z) :
  buildEvent core inp message options = Returned event ->
  teo_startTime options = None ->
  teo_endTime options = Some endTime ->
  teo_spanIdSeed options = Some seed -> seed <> "" ->
  ev_message event = message
  /\ ev_startTime event = now inp
  /\ ev_duration event = (endTime - now inp) * 1000000
  /\ ev_spanId event = generateDeterministicSpanId core (ev_traceId event) seed.
Proof.
  unfold buildEvent. intros H Hs He Hseed Hne.
  destruct (ta_runId (teo_attributes options)) as [runId|]; [|discriminate].
  destruct (String.eqb runId ""); [discriminate|].
  injection H as <-. simpl. rewrite Hs, He, Hseed.
  apply String.eqb_neq in Hne. rewrite Hne. repeat split.
Qed.

(** A failed attempt with a retry timestamp: the attempt is failed and
    stamped, the failure counter grows, one event is recorded and the
    message is nacked until the timestamp. *)
Lemma retry_completion (core : Imports) (inp : Ambient) (workerId id : string)
  (error : Json) (timestamp : Z) (execution : TaskRunExecution)
  (w w' : World) :
  marqs w = true ->
  taskRunCompleted core inp workerId (Failure id error (Some timestamp))
                   execution w = (Returned tt, w') ->
  exists attempt event,
    find (fun a => String.eqb (att_friendlyId a) id)
         (taskRunAttempt (prisma w)) = Some attempt
    /\ taskRunAttempt (prisma w')
       = map (fun x => if String.eqb (att_id x) (att_id attempt)
                       then with_completion FAILED (now inp) (att_output x)
                              (att_outputType x) (Some error) x
                       else x)
             (taskRunAttempt (prisma w))
    /\ _taskFailures (consumer w') = _taskFailures (consumer w) + 1
    /\ events w' = (events w ++ [event])%list
    /\ queue w'
       = (queue w ++ [Nacked (att_taskRunId attempt) (Some timestamp)])%list
    /\ ev_startTime event = now inp
    /\ ev_duration event = (timestamp - now inp) * 1000000
    /\ ev_spanId event
       = generateDeterministicSpanId core (ev_traceId event)
           ("retry-" ++ string_of_Z (att_number attempt + 1))
    /\ ev_style event
       = stripAttributePrefix [(STYLE_ICON core, JStr "play")] (STYLE core)
    /\ exists retryConfig,
         ev_message event = retryMessage retryConfig execution
         /\ match retryConfig with
            | Some rc =>
                exists task cfg parsed,
                  backgroundWorkerTask_findUnique (prisma w)
                    (att_backgroundWorkerTaskId attempt) = Some task
                  /\ task_retryConfig task = Some cfg
                  /\ RetryOptions_parse core cfg = Some parsed
                  /\ rc = mergeRetryOptions (defaultRetryOptions core) parsed
            | None => True
            end.
Proof.
  intros Hm. run_completion.
  repeat case_step; simpl;
    (intros E; first [discriminate E | injection E as <-]); simpl.
  all: try (exfalso; congruence).
  all: match goal with
       | Hf : find _ _ = Some ?a, Hb : buildEvent _ _ _ _ = Returned ?e |- _ =>
           exists a, e;
           destruct (buildEvent_fields _ _ _ _ _ _ _ Hb eq_refl eq_refl
                       eq_refl ltac:(discriminate)) as (? & ? & ? & ?);
           destruct (buildEvent_style _ _ _ _ _ Hb) as (? & _)
       end.
  all: repeat (split; [first [reflexivity | assumption]|]).
  all: first
         [ match goal with
           | Hp : RetryOptions_parse ?c _ = Some ?parsed |- _ =>
               exists (Some (mergeRetryOptions (defaultRetryOptions c) parsed))
           end
         | exists None ];
       (split; [assumption|]); simpl; try exact I.
  all: eexists; eexists; eexists; repeat split; eassumption.
Qed.





(** What the event repository does with the style it is asked for:
    [taskRunCompleted] asks [recordEvent] for the icon
    ["schedule-attempt"], and [recordEvent] builds the style of every event
    from its own constant, the icon ["play"]. In scenario S2 (attempt 1
    fails, retry at 9000, [maxAttempts] 3, completion handled at 3000) the
    attempt is failed and stamped, the event ["Retry 1/2 delay"] starts at
    3000 and lasts until 9000, its span id is seeded with ["retry-2"], the
    message is nacked until 9000, and the style column of the event holds
    ["play"]. *)
Lemma retry_event_is_recorded_with_the_play_icon :
  (forall core c retryConfig retryAt execution taskRunAttempt taskRun,
     ta_style (teo_attributes
                 (retryEventOptions core c retryConfig retryAt execution
                                    taskRunAttempt taskRun))
     = Some [("icon", JStr "schedule-attempt")])
  /\ (forall core inp message options event,
        buildEvent core inp message options = Returned event ->
        forall k v, In (k, v) (ev_style event) -> v = JStr "play")
  /\ map (fun a => (att_number a, att_status a, att_completedAt a))
         (taskRunAttempt (prisma Scenario.retried))
     = [(1, FAILED, Some 3000)]
  /\ map ev_message (events Scenario.retried) = ["Retry 1/2 delay"]
  /\ map (fun e => (ev_startTime e, ev_startTime e + ev_duration e / 1000000))
         (events Scenario.retried)
     = [(3000, 9000)]
  /\ map ev_spanId (events Scenario.retried)
     = [generateDeterministicSpanId Scenario.imports
          "0af7651916cd43dd8448eb211c80319c" "retry-2"]
  /\ queue Scenario.retried = [Nacked "clrun0001" (Some 9000)]
  /\ map ev_style (events Scenario.retried) = [[("icon", JStr "play")]]
  /\ map (fun e => lookup "$style.icon" (ev_properties e))
         (events Scenario.retried)
     = [Some (JStr "play")].
Proof.
  split; [reflexivity|]. split.
  { intros core inp message options event H.
    now apply (buildEvent_style core inp message options event H). }
  repeat split; vm_compute; reflexivity.
Qed.

(** ** The states the dispatcher reaches *)

Lemma coherent_new (e : AuthenticatedEnvironment) (maxItems timeout : option Z) :
  coherent (new_EnvironmentQueueConsumer e maxItems timeout).
Proof. split; [discriminate | split; reflexivity]. Qed.

Lemma coherent_ext (c c' : EnvironmentQueueConsumer) :
  (_enabled c' = true -> _enabled c = true) ->
  _lastNewTrace c' = _lastNewTrace c ->
  _currentSpanContext c' = _currentSpanContext c ->
  _currentSpan c' = _currentSpan c ->
  coherent c -> coherent c'.
Proof.
  unfold coherent. intros He -> -> -> [H1 H2]. split; [|exact H2].
  intros H. apply H1, He, H.
Qed.

Lemma checkTraceWindow_coherent (inp : Ambient) (w : World) :
  coherent (consumer w) ->
  coherent (consumer (snd (checkTraceWindow inp w))).
Proof.
  intros H. run_window.
  destruct (is_zero (_perTraceCountdown (consumer w)));
    [|destruct (_lastNewTrace (consumer w)) eqn:Eo; simpl;
      [destruct ((_ >? _) || _ || _)|]];
    simpl; try exact H;
    destruct (_currentSpan (consumer w)); simpl;
    (split; simpl; [discriminate | split; discriminate]).
Qed.

Lemma doWorkInternal_coherent (inp : Ambient) (w : World) :
  coherent (consumer w) ->
  coherent (consumer (snd (doWorkInternal inp w))).
Proof.
  intros H. destruct (doWorkInternal inp w) as [r w'] eqn:E. simpl.
  destruct (doWorkInternal_frame inp w r w' E)
    as (_ & _ & _ & _ & Ho & Hc & Hs & _ & _ & Hen & _).
  apply coherent_ext with (consumer w); try assumption.
  rewrite Hen. now destruct (stopRequested inp).
Qed.

Lemma doWork_coherent (inp : Ambient) (w : World) :
  coherent (consumer w) -> coherent (consumer (snd (doWork inp w))).
Proof.
  intros H. unfold doWork, bind at 1, this.
  destruct (_enabled (consumer w)); simpl; [|exact H].
  unfold bind at 1.
  pose proof (checkTraceWindow_coherent inp w H) as H1.
  destruct (checkTraceWindow inp w) as [[[]|e] w1]; simpl in *; [|exact H1].
  unfold bind.
  pose proof (doWorkInternal_coherent inp w1 H1) as H2.
  destruct (doWorkInternal inp w1) as [[[]|e] w2]; simpl in *; exact H2.
Qed.

Lemma detach_doWork_coherent (inp : Ambient) (w : World) :
  coherent (consumer w) -> coherent (consumer (detach (doWork inp) w)).
Proof.
  intros H. unfold detach.
  pose proof (doWork_coherent inp w H) as H1.
  destruct (doWork inp w) as [[[]|e] w1]; simpl in *; exact H1.
Qed.

Lemma registerBackgroundWorker_coherent (inp : Ambient) (id : string)
  (w : World) :
  coherent (consumer w) ->
  coherent (consumer (snd (registerBackgroundWorker inp id w))).
Proof.
  intros H. unfold registerBackgroundWorker, bind, await, this, update.
  destruct (rejects inp BackgroundWorkerFindUnique); simpl; [exact H|].
  destruct (backgroundWorker_findUnique _ _ _) as [found|]; simpl; [|exact H].
  unfold enable. simpl.
  destruct (_enabled (consumer w)) eqn:Hen; simpl.
  - apply coherent_ext with (consumer w); try reflexivity; [|exact H].
    intros _. exact Hen.
  - apply detach_doWork_coherent. simpl. destruct H as [_ H].
    split; [discriminate|exact H].
Qed.

Lemma taskRunCompleted_coherent (core : Imports) (inp : Ambient)
  (workerId : string) (completion : TaskRunExecutionResult)
  (execution : TaskRunExecution) (w : World) :
  coherent (consumer w) ->
  coherent (consumer
              (snd (taskRunCompleted core inp workerId completion execution
                                     w))).
Proof.
  intros H.
  destruct (taskRunCompleted core inp workerId completion execution w)
    as [r w'] eqn:E. simpl. revert E. run_completion.
  destruct completion as [id output outputType|id error retry].
  all: repeat case_step; simpl; intros [= <- <-]; simpl; exact H.
Qed.

Lemma taskHeartbeat_consumer (inp : Ambient) (workerId id : string)
  (seconds : option Z) (w : World) :
  consumer (snd (taskHeartbeat inp workerId id seconds w)) = consumer w.
Proof.
  destruct (taskHeartbeat inp workerId id seconds w) as [r w'] eqn:E.
  revert E. run_completion.
  repeat case_step; simpl; intros [= <- <-]; reflexivity.
Qed.

(** Every state the dispatcher goes through is coherent: the hypotheses of
    the window check hold whenever an iteration starts. *)
Lemma perform_coherent (core : Imports) (op : Operation) (w : World) :
  coherent (consumer w) -> coherent (consumer (perform core op w)).
Proof.
  intros H. destruct op as [inp id|inp k|inp workerId completion execution
                           |inp workerId id|]; simpl.
  - now apply registerBackgroundWorker_coherent.
  - unfold fireTimer. destruct (nth_error (timers w) k); [|exact H].
    now apply detach_doWork_coherent.
  - now apply taskRunCompleted_coherent.
  - now rewrite taskHeartbeat_consumer.
  - destruct H as [_ H]. split; [discriminate|exact H].
Qed.

Lemma performAll_coherent (core : Imports) (ops : list Operation)
  (w : World) :
  coherent (consumer w) -> coherent (consumer (performAll core ops w)).
Proof.
  revert w. induction ops as [|op ops IH]; intros w H; simpl; [exact H|].
  apply IH. now apply perform_coherent.
Qed.

(** In a coherent state an enabled dispatcher enters [#doWorkInternal] with
    a span open: the exception of a failed send has a span to go to. *)
Lemma iteration_has_a_current_span (inp : Ambient) (w : World) :
  coherent (consumer w) -> _enabled (consumer w) = true ->
  exists w1 s,
    checkTraceWindow inp w = (Returned tt, w1)
    /\ _currentSpan (consumer w1) = Some s
    /\ doWork inp w = (doWorkInternal inp ;; countDown) w1.
Proof.
  intros [Ho Hc] Hen.
  destruct (checkTraceWindow_frame inp w (Ho Hen))
    as (w1 & Hw1 & _ & _ & _ & _ & _ & _ & _ & _ & _ & _ & _ & _ & Hs).
  destruct Hs as [Hs _].
  { destruct (_currentSpanContext (consumer w)) eqn:E; [right|now left].
    intros Hn. apply Hc in Hn. congruence. }
  destruct (_currentSpan (consumer w1)) as [s|] eqn:Es; [|congruence].
  exists w1, s. split; [exact Hw1|]. split; [exact Es|].
  unfold doWork, bind at 1, this. rewrite Hen. simpl.
  unfold bind at 1. now rewrite Hw1.
Qed.

(** ** The scenarios *)


Lemma outbound_identifiers_witness :
  let inp := Scenario.delivering 2000 Scenario.execute "clattempt0001"
               "attempt_a1" Scenario.nothingRejects in
  let w' := snd (doWorkInternal inp Scenario.registered) in
  let m := buildMessage (consumer Scenario.registered) Scenario.worker1
             (Scenario.sendEmail "cltask0001" "clworker0001")
             (lockedRun inp (Scenario.sendEmail "cltask0001" "clworker0001")
                Scenario.r1)
             Scenario.q1
             (newAttempt inp Scenario.store Scenario.r1
                (Scenario.sendEmail "cltask0001" "clworker0001") Scenario.q1) in
  sent w' = (sent Scenario.registered ++ [m])%list
  /\ exists worker,
       In worker (map snd (_backgroundWorkers (consumer Scenario.registered)))
       /\ out_backgroundWorkerId m = bw_friendlyId worker.
Proof.
  cbv zeta.
  assert (Hsent :
    sent (snd (doWorkInternal
                 (Scenario.delivering 2000 Scenario.execute "clattempt0001"
                    "attempt_a1" Scenario.nothingRejects)
                 Scenario.registered))
    = (sent Scenario.registered
       ++ [buildMessage (consumer Scenario.registered) Scenario.worker1
             (Scenario.sendEmail "cltask0001" "clworker0001")
             (lockedRun
                (Scenario.delivering 2000 Scenario.execute "clattempt0001"
                   "attempt_a1" Scenario.nothingRejects)
                (Scenario.sendEmail "cltask0001" "clworker0001") Scenario.r1)
             Scenario.q1
             (newAttempt
                (Scenario.delivering 2000 Scenario.execute "clattempt0001"
                   "attempt_a1" Scenario.nothingRejects)
                Scenario.store Scenario.r1
                (Scenario.sendEmail "cltask0001" "clworker0001")
                Scenario.q1)])%list)
    by (vm_compute; reflexivity).
  split; [exact Hsent|].
  destruct (outbound_identifiers _ _ _ _ _
              (surjective_pairing
                 (doWorkInternal
                    (Scenario.delivering 2000 Scenario.execute "clattempt0001"
                       "attempt_a1" Scenario.nothingRejects)
                    Scenario.registered))
              Hsent)
    as (worker & task & run & q & attempt & execution & Hw & _ & _ & _ & _
        & _ & Hid & _).
  exists worker. split; [exact Hw|exact Hid].
Defined.

Lemma iteration_returns_unless_a_call_rejects_witness :
  (forall c, c <> SenderSend -> rejects Scenario.sendFails c = None)
  /\ (forall a, In a (taskRunAttempt (prisma Scenario.registered)) ->
                att_id a <> freshAttemptId Scenario.sendFails)
  /\ (_enabled (consumer Scenario.registered) = true ->
      _lastNewTrace (consumer Scenario.registered) <> None)
  /\ exists w', doWork Scenario.sendFails Scenario.registered
                = (Returned tt, w').
Proof.
  assert (H1 : forall c, c <> SenderSend ->
                         rejects Scenario.sendFails c = None)
    by (intros [] H; try reflexivity; now contradiction H).
  assert (H2 : forall a, In a (taskRunAttempt (prisma Scenario.registered)) ->
                         att_id a <> freshAttemptId Scenario.sendFails)
    by (intros a Ha; vm_compute in Ha; contradiction).
  assert (H3 : _enabled (consumer Scenario.registered) = true ->
               _lastNewTrace (consumer Scenario.registered) <> None)
    by (intros _; vm_compute; discriminate).
  split; [exact H1|]. split; [exact H2|]. split; [exact H3|].
  destruct (iteration_returns_unless_a_call_rejects
              Scenario.sendFails Scenario.registered H1 H2 H3)
    as (_ & w' & Hw' & _).
  exists w'. exact Hw'.
Defined.

Lemma poison_messages_are_acknowledged_witness :
  marqs Scenario.registered = true
  /\ rejects Scenario.deliveringUnknown DequeueMessageInEnv = None
  /\ dequeued Scenario.deliveringUnknown = Some Scenario.unknown
  /\ rejects Scenario.deliveringUnknown AcknowledgeMessage = None
  /\ Poison Scenario.deliveringUnknown Scenario.registered Scenario.unknown
  /\ exists w',
       doWorkInternal Scenario.deliveringUnknown Scenario.registered
       = (Returned tt, w')
       /\ queue w'
          = (queue Scenario.registered ++ [Acknowledged "clrun0001"])%list
       /\ taskRunAttempt (prisma w')
          = taskRunAttempt (prisma Scenario.registered).
Proof.
  assert (Hp : Poison Scenario.deliveringUnknown Scenario.registered
                 Scenario.unknown)
    by (apply PoisonParse; reflexivity).
  assert (Hm : marqs Scenario.registered = true) by (vm_compute; reflexivity).
  repeat (split; [first [exact Hm | exact Hp | reflexivity]|]).
  destruct (poison_messages_are_acknowledged Scenario.deliveringUnknown
              Scenario.registered Scenario.unknown Hm eq_refl eq_refl
              eq_refl Hp)
    as (w' & Hw' & Hq & _ & _ & Ha & _).
  exists w'. split; [exact Hw'|]. split; [exact Hq|exact Ha].
Defined.

Lemma trace_window_rollover_witness :
  _lastNewTrace (consumer Scenario.registered) = Some 1000
  /\ (_currentSpanContext (consumer Scenario.registered) = None
      <-> _currentSpan (consumer Scenario.registered) = None)
  /\ rolloverDue (Scenario.idle 70000) (consumer Scenario.registered) 1000
  /\ exists w1,
       checkTraceWindow (Scenario.idle 70000) Scenario.registered
       = (Returned tt, w1)
       /\ _perTraceCountdown (consumer w1)
          = Some (Num (maximumItemsPerTrace
                         (_options (consumer Scenario.registered)))).
Proof.
  assert (Ho : _lastNewTrace (consumer Scenario.registered) = Some 1000)
    by (vm_compute; reflexivity).
  assert (Hc : _currentSpanContext (consumer Scenario.registered) = None
               <-> _currentSpan (consumer Scenario.registered) = None)
    by (split; vm_compute; discriminate).
  assert (Hd : rolloverDue (Scenario.idle 70000)
                 (consumer Scenario.registered) 1000)
    by (right; left; vm_compute; reflexivity).
  split; [exact Ho|]. split; [exact Hc|]. split; [exact Hd|].
  destruct (trace_window_rollover (Scenario.idle 70000) Scenario.registered
              1000 Ho Hc)
    as (_ & w1 & Hw1 & _ & Hroll).
  destruct (Hroll Hd) as (_ & _ & _ & Hcount & _).
  exists w1. split; [exact Hw1|exact Hcount].
Defined.

Lemma attempt_numbers_are_sequential_witness :
  taskRunAttempt (prisma Scenario.fresh) = []
  /\ sequentialAttempts
       (prisma (performAll Scenario.imports Scenario.life Scenario.fresh))
  /\ attemptNumbers
       (prisma (performAll Scenario.imports Scenario.life Scenario.fresh))
       "clrun0001"
     = [1; 2].
Proof.
  assert (He : taskRunAttempt (prisma Scenario.fresh) = []) by reflexivity.
  split; [exact He|]. split; [|vm_compute; reflexivity].
  destruct attempt_numbers_are_sequential as (_ & Hall & Hempty).
  apply Hall. apply Hempty. exact He.
Defined.


(** * More of the dispatcher *)

(** ** The other paths of an iteration *)

(** X1. The happy path. An iteration that reaches the send, with a
    transport that delivers, sends exactly one message: the friendly id of
    the worker and one payload with the trace context of the run, verbatim.
    The run is left locked by the matched task at the time of the lock, the
    new attempt is [EXECUTING] and belongs to the worker the task records;
    the loop takes no queue action and resumes in 100 ms. *)
Theorem dispatch_locks_and_sends :
  forall (inp : Ambient) (w : World) (message : QueueMessage) (run : TaskRun)
         (worker : BackgroundWorker) (task : BackgroundWorkerTask)
         (q : TaskQueue),
    ReachesSend inp w message run worker task q ->
    rejects inp SenderSend = None ->
    exists w' locked attempt execution,
      doWorkInternal inp w = (Returned tt, w')
      /\ sent w'
         = (sent w
            ++ [mkOutMessage (bw_friendlyId worker)
                  [mkPayload execution (run_traceContext run)]])%list
      /\ ex_task execution
         = mkExecTask (task_slug task) (task_filePath task)
                      (task_exportName task)
      /\ ea_number (ex_attempt execution) = att_number attempt
      /\ ea_startedAt (ex_attempt execution) = now inp
      /\ er_payload (ex_run execution) = run_payload run
      /\ er_tags (ex_run execution) = run_tags run
      /\ taskRun_findUnique (prisma w') (msg_messageId message) = Some locked
      /\ locked = with_lock (Some (now inp)) (Some (task_id task)) run
      /\ taskRunAttempt (prisma w')
         = (taskRunAttempt (prisma w) ++ [attempt])%list
      /\ att_status attempt = EXECUTING
      /\ att_taskRunId attempt = msg_messageId message
      /\ att_startedAt attempt = Some (now inp)
      /\ att_completedAt attempt = None
      /\ att_backgroundWorkerId attempt = task_workerId task
      /\ att_backgroundWorkerTaskId attempt = task_id task
      /\ att_queueId attempt = q_id q
      /\ queue w' = queue w
      /\ timers w' = (timers w ++ [100])%list
      /\ tracer w' = tracer w
      /\ consumer w' = consumer w.
Proof.
  intros inp w message run worker task q Hreach Hsend.
  assert (Hid : run_id run = msg_messageId message).
  { destruct Hreach. now apply taskRun_findUnique_id with (prisma w). }
  destruct (dispatch_succeeds _ _ _ _ _ _ _ Hreach Hsend)
    as (w' & Hrun & Hsent & Ht & Hq & Htr & Hc & Hatt & Hfind).
  exists w', (lockedRun inp task run), (newAttempt inp (prisma w) run task q).
  eexists. split; [exact Hrun|]. split; [exact Hsent|]. simpl.
  rewrite <- Hid. repeat split; try assumption. now rewrite Hid.
Qed.

(** X2. The queue row is missing (step 7): the message is nacked without a
    delay and the loop resumes in 1000 ms; no attempt is created and nothing
    is sent - and the run stays locked, as the lock step left it. *)
Theorem missing_queue_nacks_and_leaves_the_run_locked :
  forall (inp : Ambient) (w : World) (message : QueueMessage) (run : TaskRun)
         (worker : BackgroundWorker) (task : BackgroundWorkerTask),
    ReachesLock inp w message run worker task ->
    taskQueue_findUnique (prisma w) (env_id (env (consumer w)))
      (run_queue run) = None ->
    exists w',
      doWorkInternal inp w = (Returned tt, w')
      /\ queue w' = (queue w ++ [Nacked (msg_messageId message) None])%list
      /\ timers w' = (timers w ++ [1000])%list
      /\ taskRun_findUnique (prisma w') (msg_messageId message)
         = Some (with_lock (Some (now inp)) (Some (task_id task)) run)
      /\ taskRunAttempt (prisma w') = taskRunAttempt (prisma w)
      /\ sent w' = sent w.
Proof.
  intros inp w message run worker task
         [Hm Hdq Hparse Hrun Hworker Htask Hlock Hcalls] Hq.
  destruct (taskRun_update_found (prisma w) (msg_messageId message) run
              (Some (now inp)) (Some (task_id task)) Hrun)
    as (dbL & HupdL & HfindL & HattL & HqL & HbwL).
  destruct (MessageBody_safeParse (msg_data message)) as [body|] eqn:Hb;
    [|congruence].
  run_async.
  destruct (stopRequested inp); simpl; rewrite Hm;
    rewrite (Hcalls DequeueMessageInEnv) by (simpl; tauto); simpl;
    rewrite Hdq; simpl; rewrite Hb;
    rewrite (Hcalls TaskRunFindUnique) by (simpl; tauto); simpl;
    rewrite Hrun; simpl; rewrite ?selectBackgroundWorker_set_enabled;
    rewrite Hworker, Htask;
    rewrite (Hcalls TaskRunUpdate) by (simpl; tauto); simpl;
    rewrite Hlock, HupdL; simpl;
    rewrite (Hcalls TaskQueueFindUnique) by (simpl; tauto); simpl;
    unfold taskQueue_findUnique in *; rewrite HqL; simpl; rewrite Hq; simpl;
    rewrite Hm; rewrite (Hcalls NackMessage) by (simpl; tauto); simpl;
    (eexists; split; [reflexivity|]); simpl; repeat split; assumption.
Qed.

(** X3. The abort check (step 8): when the dispatcher is disabled by the
    time the queue row is read - [stop()] ran before or during the
    iteration - the message is nacked without a delay and nothing is
    scheduled; no attempt is created, nothing is sent, and the run stays
    locked. *)
Theorem stopped_iteration_nacks_and_schedules_nothing :
  forall (inp : Ambient) (w : World) (message : QueueMessage) (run : TaskRun)
         (worker : BackgroundWorker) (task : BackgroundWorkerTask)
         (q : TaskQueue),
    ReachesLock inp w message run worker task ->
    taskQueue_findUnique (prisma w) (env_id (env (consumer w)))
      (run_queue run) = Some q ->
    stopRequested inp = true \/ _enabled (consumer w) = false ->
    exists w',
      doWorkInternal inp w = (Returned tt, w')
      /\ queue w' = (queue w ++ [Nacked (msg_messageId message) None])%list
      /\ timers w' = timers w
      /\ _enabled (consumer w') = false
      /\ taskRun_findUnique (prisma w') (msg_messageId message)
         = Some (with_lock (Some (now inp)) (Some (task_id task)) run)
      /\ taskRunAttempt (prisma w') = taskRunAttempt (prisma w)
      /\ sent w' = sent w.
Proof.
  intros inp w message run worker task q
         [Hm Hdq Hparse Hrun Hworker Htask Hlock Hcalls] Hq Hstop.
  destruct (taskRun_update_found (prisma w) (msg_messageId message) run
              (Some (now inp)) (Some (task_id task)) Hrun)
    as (dbL & HupdL & HfindL & HattL & HqL & HbwL).
  destruct (MessageBody_safeParse (msg_data message)) as [body|] eqn:Hb;
    [|congruence].
  run_async.
  destruct (stopRequested inp) eqn:Es; simpl; rewrite Hm;
    rewrite (Hcalls DequeueMessageInEnv) by (simpl; tauto); simpl;
    rewrite Hdq; simpl; rewrite Hb;
    rewrite (Hcalls TaskRunFindUnique) by (simpl; tauto); simpl;
    rewrite Hrun; simpl; rewrite ?selectBackgroundWorker_set_enabled;
    rewrite Hworker, Htask;
    rewrite (Hcalls TaskRunUpdate) by (simpl; tauto); simpl;
    rewrite Hlock, HupdL; simpl;
    rewrite (Hcalls TaskQueueFindUnique) by (simpl; tauto); simpl;
    unfold taskQueue_findUnique in *; rewrite HqL; simpl; rewrite Hq; simpl.
  - rewrite Hm; rewrite (Hcalls NackMessage) by (simpl; tauto); simpl.
    eexists; split; [reflexivity|]; simpl; repeat split; assumption.
  - destruct Hstop as [Hstop|Hstop]; [discriminate|]. rewrite Hstop. simpl.
    rewrite Hm; rewrite (Hcalls NackMessage) by (simpl; tauto); simpl.
    eexists; split; [reflexivity|]; simpl; repeat split; assumption.
Qed.

(** X4. An idle iteration: when the queue hands out nothing - or no queue
    client is configured at all - the iteration only schedules the next one
    in 1000 ms: no queue action, no store write, nothing sent or traced. *)
Theorem idle_iteration_only_reschedules :
  forall (inp : Ambient) (w : World),
    marqs w = false
    \/ (rejects inp DequeueMessageInEnv = None /\ dequeued inp = None) ->
    exists w',
      doWorkInternal inp w = (Returned tt, w')
      /\ timers w' = (timers w ++ [1000])%list
      /\ queue w' = queue w /\ prisma w' = prisma w /\ sent w' = sent w
      /\ tracer w' = tracer w /\ events w' = events w.
Proof.
  intros inp w H. run_async.
  destruct (stopRequested inp); simpl;
    (destruct (marqs w) eqn:Hm;
     [ destruct H as [H|[Hr Hd]]; [discriminate|]; rewrite Hr; simpl;
       rewrite Hd; simpl
     | simpl ]);
    (eexists; split; [reflexivity|]); simpl; repeat split.
Qed.

(** X5. An iteration takes at most one queue action, and it is an ack or
    an undelayed nack of the message it dequeued; it sends at most one
    message, and never both sends a message and takes a queue action. *)
Theorem iteration_settles_at_most_once :
  forall (inp : Ambient) (w : World),
    let w' := snd (doWorkInternal inp w) in
    (queue w' = queue w
     \/ exists message a,
          dequeued inp = Some message /\ settles message a
          /\ queue w' = (queue w ++ [a])%list /\ sent w' = sent w)
    /\ (sent w' = sent w
        \/ exists m, sent w' = (sent w ++ [m])%list /\ queue w' = queue w).
Proof.
  intros inp w. cbv zeta.
  destruct (doWorkInternal inp w) as [r w'] eqn:E. simpl. revert E.
  unfold settles. run_async.
  repeat case_step; simpl; intros [= <- <-]; simpl.
  all: split;
    [ first [ left; reflexivity
            | right; eexists; eexists;
              (split; [reflexivity|]);
              (split; [|split; reflexivity]); tauto ]
    | first [ left; reflexivity
            | right; eexists; split; reflexivity ] ].
Qed.

(** ** What the store keeps *)

Lemma taskRun_update_table (db db' : Store) (id : string) (r' : TaskRun)
  (lockedAt : option Z) (lockedById : option string) :
  taskRun_update db id lockedAt lockedById = Some (db', r') ->
  taskRun db'
  = map (fun x => if String.eqb (run_id x) id
                  then with_lock lockedAt lockedById x else x) (taskRun db)
  /\ taskRunAttempt db' = taskRunAttempt db
  /\ taskQueue db' = taskQueue db
  /\ backgroundWorker db' = backgroundWorker db.
Proof.
  unfold taskRun_update.
  destruct (taskRun_findUnique db id); [|discriminate].
  intros [= <- <-]. repeat split.
Qed.

Lemma relocks_refl (db : Store) : relocks db db.
Proof. unfold relocks. tauto. Qed.

Lemma relocks_trans (a b c : Store) : relocks a b -> relocks b c -> relocks a c.
Proof.
  intros (H1 & H2 & H3 & H4) (K1 & K2 & K3 & K4).
  split; [congruence|]. split; [congruence|]. split; [congruence|]. auto.
Qed.

Lemma relocks_update (db db' : Store) (id : string) (r' : TaskRun)
  (lockedAt : option Z) (lockedById : option string) :
  (lockedAt = None <-> lockedById = None) ->
  taskRun_update db id lockedAt lockedById = Some (db', r') ->
  relocks db db'.
Proof.
  intros Hpair H. apply taskRun_update_table in H.
  destruct H as (Hr & _ & Hq & Hb).
  split; [assumption|]. split; [assumption|]. split.
  - rewrite Hr, map_map. apply map_ext. intros x.
    now destruct (String.eqb (run_id x) id).
  - intros Hp r Hin. rewrite Hr in Hin. apply in_map_iff in Hin.
    destruct Hin as (x & <- & Hx).
    destruct (String.eqb (run_id x) id); [exact Hpair | now apply Hp].
Qed.

Lemma relocks_attempts (db : Store) (atts : list TaskRunAttempt) :
  relocks db (with_taskRunAttempt atts db).
Proof. unfold relocks. simpl. tauto. Qed.

Lemma relocks_same_runs (db db' : Store) :
  taskRun db' = taskRun db -> taskQueue db' = taskQueue db ->
  backgroundWorker db' = backgroundWorker db -> relocks db db'.
Proof.
  intros Hr Hq Hb.
  split; [assumption|]. split; [assumption|]. split; [congruence|].
  unfold lockPaired. now rewrite Hr.
Qed.

Ltac relock_facts :=
  repeat match goal with
  | H : taskRun_update _ _ (Some _) (Some _) = Some (_, _) |- _ =>
      apply relocks_update in H; [|split; discriminate]
  | H : taskRun_update _ _ None None = Some (_, _) |- _ =>
      apply relocks_update in H; [|split; reflexivity]
  | H : taskRunAttempt_create _ _ = Some _ |- _ =>
      apply taskRunAttempt_create_inv in H;
      destruct H as (_ & ? & ? & ? & _)
  | H : taskRunAttempt_delete _ _ = Some _ |- _ =>
      apply taskRunAttempt_delete_inv in H;
      destruct H as (_ & ? & ? & ?)
  | Hr : taskRun ?b = taskRun ?a, Hq : taskQueue ?b = taskQueue ?a,
    Hb : backgroundWorker ?b = backgroundWorker ?a |- _ =>
      pose proof (relocks_same_runs a b Hr Hq Hb); clear Hr Hq Hb
  end.

Ltac relock_chain :=
  repeat match goal with
  | |- relocks ?a ?a => apply relocks_refl
  | H : relocks ?x ?b |- relocks ?a ?b =>
      apply (relocks_trans a x b); [|exact H]
  end.

(** An iteration only locks and unlocks runs and adds or removes an
    attempt. *)
Lemma doWorkInternal_relocks (inp : Ambient) (w : World) :
  relocks (prisma w) (prisma (snd (doWorkInternal inp w))).
Proof.
  destruct (doWorkInternal inp w) as [r w'] eqn:E. simpl. revert E.
  run_async. repeat case_step; simpl; intros [= <- <-]; simpl.
  all: relock_facts; relock_chain.
Qed.

Lemma doWork_relocks (inp : Ambient) (w : World) :
  relocks (prisma w) (prisma (snd (doWork inp w))).
Proof.
  unfold doWork, bind at 1, this.
  destruct (_enabled (consumer w)); simpl; [|apply relocks_refl].
  unfold bind at 1.
  pose proof (checkTraceWindow_prisma inp w) as Hp.
  destruct (checkTraceWindow inp w) as [[[]|e] w1]; simpl in *;
    [|rewrite Hp; apply relocks_refl].
  unfold bind. rewrite <- Hp.
  pose proof (doWorkInternal_relocks inp w1) as H2.
  destruct (doWorkInternal inp w1) as [[[]|e] w2]; simpl in *; exact H2.
Qed.

Lemma detach_doWork_relocks (inp : Ambient) (w : World) :
  relocks (prisma w) (prisma (detach (doWork inp) w)).
Proof.
  unfold detach. pose proof (doWork_relocks inp w) as H.
  destruct (doWork inp w) as [[[]|e] w1]; simpl in *; exact H.
Qed.

Lemma registerBackgroundWorker_relocks (inp : Ambient) (id : string)
  (w : World) :
  relocks (prisma w) (prisma (snd (registerBackgroundWorker inp id w))).
Proof.
  unfold registerBackgroundWorker, bind, await, this, update.
  destruct (rejects inp BackgroundWorkerFindUnique); simpl;
    [apply relocks_refl|].
  destruct (backgroundWorker_findUnique _ _ _) as [found|]; simpl;
    [|apply relocks_refl].
  unfold enable. simpl.
  destruct (_enabled (consumer w)); simpl; [apply relocks_refl|].
  match goal with
  | |- relocks _ (prisma (detach _ ?w0)) =>
      exact (detach_doWork_relocks inp w0)
  end.
Qed.

Lemma taskRunCompleted_relocks (core : Imports) (inp : Ambient)
  (workerId : string) (completion : TaskRunExecutionResult)
  (execution : TaskRunExecution) (w : World) :
  relocks (prisma w)
    (prisma (snd (taskRunCompleted core inp workerId completion execution w))).
Proof.
  destruct (taskRunCompleted core inp workerId completion execution w)
    as [r w'] eqn:E. simpl. revert E. run_completion.
  destruct completion as [id output outputType|id error retry].
  all: repeat case_step; simpl; intros [= <- <-]; simpl.
  all: first [apply relocks_refl | apply relocks_attempts].
Qed.

Lemma perform_relocks (core : Imports) (op : Operation) (w : World) :
  relocks (prisma w) (prisma (perform core op w)).
Proof.
  destruct op as [inp id|inp k|inp workerId completion execution
                 |inp workerId id|]; simpl.
  - apply registerBackgroundWorker_relocks.
  - unfold fireTimer. destruct (nth_error (timers w) k);
      [|apply relocks_refl].
    match goal with
    | |- relocks _ (prisma (detach _ ?w0)) =>
        exact (detach_doWork_relocks inp w0)
    end.
  - apply taskRunCompleted_relocks.
  - rewrite taskHeartbeat_prisma. apply relocks_refl.
  - apply relocks_refl.
Qed.

Lemma performAll_relocks (core : Imports) (ops : list Operation) (w : World) :
  relocks (prisma w) (prisma (performAll core ops w)).
Proof.
  revert w. induction ops as [|op ops IH]; intros w; simpl;
    [apply relocks_refl|].
  apply relocks_trans with (prisma (perform core op w));
    [apply perform_relocks | apply IH].
Qed.

(** X6. The lock fields of a run are set together: from a store where
    every run has both [lockedAt] and [lockedById] or neither, whatever the
    dispatcher goes through, every run has both or neither. *)
Theorem locks_stay_paired :
  forall (core : Imports) (ops : list Operation) (w : World),
    lockPaired (prisma w) ->
    lockPaired (prisma (performAll core ops w)).
Proof.
  intros core ops w H.
  destruct (performAll_relocks core ops w) as (_ & _ & _ & Hp). now apply Hp.
Qed.

(** X7. The dispatcher writes nothing to a run but its lock: whatever it
    goes through, the store has the same queues, the same workers and the
    same runs, apart from the fields [lockedAt] and [lockedById] of the
    runs. *)
Theorem dispatcher_only_relocks_runs :
  forall (core : Imports) (ops : list Operation) (w : World),
    let db := prisma w in
    let db' := prisma (performAll core ops w) in
    taskQueue db' = taskQueue db
    /\ backgroundWorker db' = backgroundWorker db
    /\ map (with_lock None None) (taskRun db')
       = map (with_lock None None) (taskRun db).
Proof.
  intros core ops w. cbv zeta.
  destruct (performAll_relocks core ops w) as (H1 & H2 & H3 & _).
  now repeat split.
Qed.

(** ** Spans *)

Lemma openAfter_app (l l' : list SpanEvent) (open : list Span) :
  openAfter (l ++ l') open = openAfter l' (openAfter l open).
Proof. unfold openAfter. apply fold_left_app. Qed.

Lemma wellBracketed_app (l l' : list SpanEvent) (open : list Span) :
  wellBracketed l open -> wellBracketed l' (openAfter l open) ->
  wellBracketed (l ++ l') open.
Proof.
  revert open. induction l as [|e l IH]; intros open H H'; simpl in *;
    [exact H'|].
  destruct e; destruct H as [-> H]; simpl in *;
    (split; [reflexivity|]); apply IH; try exact H.
  - exact H'.
  - exact H'.
  - exact H'.
  - rewrite Nat.eqb_refl in H'. exact H'.
Qed.

Lemma oneSpan_ext (w w' : World) :
  tracer w' = tracer w ->
  _currentSpan (consumer w') = _currentSpan (consumer w) ->
  oneSpan w -> oneSpan w'.
Proof. unfold oneSpan, currentSpans. now intros -> ->. Qed.

Lemma oneSpan_append (w w' : World) (l : list SpanEvent) :
  tracer w' = (tracer w ++ l)%list ->
  wellBracketed l (currentSpans (consumer w)) ->
  openAfter l (currentSpans (consumer w)) = currentSpans (consumer w') ->
  oneSpan w -> oneSpan w'.
Proof.
  unfold oneSpan. intros -> Hl Ho [H1 H2]. split.
  - apply wellBracketed_app; [exact H1|now rewrite H2].
  - now rewrite openAfter_app, H2.
Qed.

Lemma checkTraceWindow_oneSpan (inp : Ambient) (w : World) :
  oneSpan w -> oneSpan (snd (checkTraceWindow inp w)).
Proof.
  intros H. run_window.
  destruct (is_zero (_perTraceCountdown (consumer w)));
    [|destruct (_lastNewTrace (consumer w)) eqn:Eo; simpl;
      [destruct ((_ >? _) || _ || _)|]];
    simpl; try exact H;
    destruct (_currentSpan (consumer w)) eqn:Es; simpl.
  all: match goal with
       | |- oneSpan ?w' =>
           apply (oneSpan_append w w' (closing (consumer w) ++
               [StartSpan (List.length (filter isStart (tracer w)))
                  "EnvironmentQueueConsumer.doWork()"
                  (env_id (env (consumer w)))]));
           [| | |exact H]
       end.
  all: unfold closing, currentSpans; rewrite ?Es; simpl;
    rewrite ?filter_app; simpl; rewrite ?app_nil_r, <- ?app_assoc;
    rewrite ?Nat.eqb_refl; simpl; auto.
Qed.

(** An iteration asks the tracer one thing at most: to record the exception
    of a failed send on the current span. *)
Lemma doWorkInternal_tracer (inp : Ambient) (w w' : World)
  (r : Completion unit) :
  doWorkInternal inp w = (r, w') ->
  tracer w' = tracer w
  \/ exists s e,
       _currentSpan (consumer w) = Some s
       /\ rejects inp SenderSend = Some e
       /\ tracer w' = (tracer w ++ [RecordException s e])%list.
Proof.
  run_async. repeat case_step; simpl; intros [= <- <-]; simpl.
  all: first [ left; reflexivity
             | right; eexists; eexists;
               split; [reflexivity|split; reflexivity] ].
Qed.

Lemma doWorkInternal_oneSpan (inp : Ambient) (w : World) :
  oneSpan w -> oneSpan (snd (doWorkInternal inp w)).
Proof.
  intros H. destruct (doWorkInternal inp w) as [r w'] eqn:E. simpl.
  destruct (doWorkInternal_frame inp w r w' E)
    as (_ & _ & _ & _ & _ & _ & Hs & _).
  destruct (doWorkInternal_tracer inp w w' r E) as [Ht | (s & e & Hc & _ & Ht)].
  - now apply oneSpan_ext with w.
  - apply (oneSpan_append w w' [RecordException s e]); try assumption.
    + unfold currentSpans. rewrite Hc. simpl. auto.
    + unfold currentSpans. now rewrite Hs.
Qed.

Lemma doWork_oneSpan (inp : Ambient) (w : World) :
  oneSpan w -> oneSpan (snd (doWork inp w)).
Proof.
  intros H. unfold doWork, bind at 1, this.
  destruct (_enabled (consumer w)); simpl; [|exact H].
  unfold bind at 1.
  pose proof (checkTraceWindow_oneSpan inp w H) as H1.
  destruct (checkTraceWindow inp w) as [[[]|e] w1]; simpl in *; [|exact H1].
  unfold bind.
  pose proof (doWorkInternal_oneSpan inp w1 H1) as H2.
  destruct (doWorkInternal inp w1) as [[[]|e] w2]; simpl in *; exact H2.
Qed.

Lemma detach_doWork_oneSpan (inp : Ambient) (w : World) :
  oneSpan w -> oneSpan (detach (doWork inp) w).
Proof.
  intros H. unfold detach.
  pose proof (doWork_oneSpan inp w H) as H1.
  destruct (doWork inp w) as [[[]|e] w1]; simpl in *; exact H1.
Qed.

Lemma registerBackgroundWorker_oneSpan (inp : Ambient) (id : string)
  (w : World) :
  oneSpan w -> oneSpan (snd (registerBackgroundWorker inp id w)).
Proof.
  intros H. unfold registerBackgroundWorker, bind, await, this, update.
  destruct (rejects inp BackgroundWorkerFindUnique); simpl; [exact H|].
  destruct (backgroundWorker_findUnique _ _ _) as [found|]; simpl; [|exact H].
  unfold enable. simpl.
  destruct (_enabled (consumer w)); simpl; [exact H|].
  apply detach_doWork_oneSpan. exact H.
Qed.

Lemma taskRunCompleted_oneSpan (core : Imports) (inp : Ambient)
  (workerId : string) (completion : TaskRunExecutionResult)
  (execution : TaskRunExecution) (w : World) :
  oneSpan w ->
  oneSpan (snd (taskRunCompleted core inp workerId completion execution w)).
Proof.
  intros H.
  destruct (taskRunCompleted core inp workerId completion execution w)
    as [r w'] eqn:E. simpl. revert E. run_completion.
  destruct completion as [id output outputType|id error retry].
  all: repeat case_step; simpl; intros [= <- <-]; simpl; exact H.
Qed.

Lemma taskHeartbeat_tracer (inp : Ambient) (workerId id : string)
  (seconds : option Z) (w : World) :
  tracer (snd (taskHeartbeat inp workerId id seconds w)) = tracer w.
Proof.
  destruct (taskHeartbeat inp workerId id seconds w) as [r w'] eqn:E.
  revert E. run_completion.
  repeat case_step; simpl; intros [= <- <-]; reflexivity.
Qed.

Lemma perform_oneSpan (core : Imports) (op : Operation) (w : World) :
  oneSpan w -> oneSpan (perform core op w).
Proof.
  intros H. destruct op as [inp id|inp k|inp workerId completion execution
                           |inp workerId id|]; simpl.
  - now apply registerBackgroundWorker_oneSpan.
  - unfold fireTimer. destruct (nth_error (timers w) k); [|exact H].
    apply detach_doWork_oneSpan. exact H.
  - now apply taskRunCompleted_oneSpan.
  - apply oneSpan_ext with w; [apply taskHeartbeat_tracer| |exact H].
    now rewrite taskHeartbeat_consumer.
  - exact H.
Qed.

(** X8. Spans are never nested. From a dispatcher that has not used the
    tracer yet, whatever it goes through, the tracer is asked to start a
    span only when none is open, every attribute, exception and end goes
    to the one open span, and the span left open is the current span of
    the dispatcher. *)
Theorem spans_are_never_nested :
  forall (core : Imports) (ops : list Operation) (w : World),
    tracer w = [] -> _currentSpan (consumer w) = None ->
    let w' := performAll core ops w in
    wellBracketed (tracer w') []
    /\ openAfter (tracer w') [] = currentSpans (consumer w').
Proof.
  intros core ops w Ht Hs. cbv zeta.
  assert (H : oneSpan w).
  { unfold oneSpan, currentSpans. rewrite Ht, Hs. simpl. auto. }
  clear Ht Hs. revert w H.
  induction ops as [|op ops IH]; intros w H; simpl; [exact H|].
  apply IH. now apply perform_oneSpan.
Qed.

(** ** Completions and heartbeats *)

(** X9. A completion that asks for no retry - a success, or a failure
    without a retry timestamp - whose handler returns: the attempt with the
    reported friendly id gets the status [COMPLETED] or [FAILED] and is
    stamped with the current time, the counter of successes or of failures
    grows by one, the message of its run is acknowledged, and no event is
    recorded. *)
Theorem completion_without_retry_acknowledges :
  forall (core : Imports) (inp : Ambient) (workerId : string)
    (completion : TaskRunExecutionResult) (execution : TaskRunExecution)
    (w w' : World),
    marqs w = true ->
    retryOf completion = None ->
    taskRunCompleted core inp workerId completion execution w
    = (Returned tt, w') ->
    exists attempt,
      attemptByFriendlyId (prisma w) (attemptOf completion) = Some attempt
      /\ statusColumns (prisma w')
         = map (fun a => if String.eqb (att_id a) (att_id attempt)
                         then (att_id a, statusOf completion, Some (now inp))
                         else (att_id a, att_status a, att_completedAt a))
               (taskRunAttempt (prisma w))
      /\ _taskSuccesses (consumer w')
         = _taskSuccesses (consumer w)
           + (match completion with Success _ _ _ => 1 | _ => 0 end)
      /\ _taskFailures (consumer w')
         = _taskFailures (consumer w)
           + (match completion with Success _ _ _ => 0 | _ => 1 end)
      /\ queue w' = (queue w ++ [Acknowledged (att_taskRunId attempt)])%list
      /\ events w' = events w
      /\ sent w' = sent w /\ timers w' = timers w /\ tracer w' = tracer w.
Proof.
  intros core inp workerId completion execution w w' Hm Hretry.
  unfold attemptByFriendlyId, statusColumns. run_completion.
  destruct completion as [id output outputType|id error retry];
    simpl in Hretry; subst; simpl.
  all: repeat case_step; simpl;
    (intros E; first [discriminate E | injection E as <-]); simpl.
  all: try (exfalso; congruence).
  all: match goal with
       | Hf : find _ _ = Some ?a |- _ => exists a
       end.
  all: split; [reflexivity|].
  all: split;
    [ rewrite map_map; apply map_ext; intros x;
      now destruct (String.eqb (att_id x) _) |].
  all: repeat split; lia.
Qed.

(** X10. The queue action is the last step of the completion handler:
    when the handler throws - the attempt is unknown, the retry
    configuration does not parse, the event has no run id, a call rejects -
    the message was neither acknowledged nor nacked, nothing was sent and
    no iteration was scheduled. A completion for an unknown attempt throws
    and changes nothing. *)
Theorem throwing_completion_takes_no_queue_action :
  (forall (core : Imports) (inp : Ambient) (workerId : string)
     (completion : TaskRunExecutionResult) (execution : TaskRunExecution)
     (w w' : World) (e : string),
     taskRunCompleted core inp workerId completion execution w = (Threw e, w')
     -> queue w' = queue w /\ sent w' = sent w /\ timers w' = timers w
        /\ tracer w' = tracer w)
  /\ (forall (core : Imports) (inp : Ambient) (workerId : string)
        (completion : TaskRunExecutionResult) (execution : TaskRunExecution)
        (w : World),
        attemptByFriendlyId (prisma w) (attemptOf completion) = None ->
        exists e,
          taskRunCompleted core inp workerId completion execution w
          = (Threw e, w)).
Proof.
  split.
  - intros core inp workerId completion execution w w' e.
    run_completion.
    destruct completion as [id output outputType|id error retry].
    all: repeat case_step; simpl;
      (intros E; first [discriminate E | injection E as <- <-]); simpl.
    all: repeat split; reflexivity.
  - intros core inp workerId completion execution w.
    unfold attemptByFriendlyId. intros Hnone. run_completion.
    destruct completion as [id output outputType|id error retry];
      simpl in Hnone.
    all: destruct (rejects inp TaskRunAttemptUpdate); simpl;
      [eexists; reflexivity|]; rewrite Hnone; eexists; reflexivity.
Qed.

Lemma find_last_fresh {A : Type} (f : A -> bool) (l : list A) (a : A) :
  (forall x, In x l -> f x = false) -> f a = true ->
  find f (l ++ [a]) = Some a.
Proof.
  intros Hl Ha. induction l as [|x l IH]; simpl; [now rewrite Ha|].
  rewrite (Hl x) by now left. apply IH. intros y Hy. apply Hl. now right.
Qed.

(** The world an iteration leaves when its send succeeds, as the handlers
    of the worker's answers see it. *)
Lemma dispatched_world (inp : Ambient) (w : World) (message : QueueMessage)
  (run : TaskRun) (worker : BackgroundWorker) (task : BackgroundWorkerTask)
  (q : TaskQueue) :
  ReachesSend inp w message run worker task q ->
  rejects inp SenderSend = None ->
  (forall a, In a (taskRunAttempt (prisma w)) ->
             att_friendlyId a <> freshFriendlyId inp) ->
  exists w',
    doWorkInternal inp w = (Returned tt, w')
    /\ sent w'
       = (sent w
          ++ [buildMessage (consumer w) worker task (lockedRun inp task run) q
                (newAttempt inp (prisma w) run task q)])%list
    /\ marqs w' = marqs w /\ queue w' = queue w /\ events w' = events w
    /\ consumer w' = consumer w
    /\ attemptByFriendlyId (prisma w') (freshFriendlyId inp)
       = Some (newAttempt inp (prisma w) run task q)
    /\ taskRunAttempt (prisma w')
       = (taskRunAttempt (prisma w)
          ++ [newAttempt inp (prisma w) run task q])%list
    /\ taskRun_findUnique (prisma w') (msg_messageId message)
       = Some (lockedRun inp task run)
    /\ backgroundWorker (prisma w') = backgroundWorker (prisma w)
    /\ run_id run = msg_messageId message.
Proof.
  intros Hreach Hsend Hfriendly.
  assert (Hid : run_id run = msg_messageId message).
  { destruct Hreach. now apply taskRun_findUnique_id with (prisma w). }
  destruct (doWorkInternal_reaches_send _ _ _ _ _ _ _ Hreach)
    as (db1 & Hfind & Hatt & _ & Hbw & ->).
  run_async. rewrite Hsend. simpl.
  eexists. split; [reflexivity|]. simpl. rewrite <- Hid.
  repeat split; try assumption.
  unfold attemptByFriendlyId. rewrite Hatt. apply find_last_fresh.
  - intros x Hx. apply String.eqb_neq. now apply Hfriendly.
  - simpl. apply String.eqb_refl.
Qed.

(** X11. The attempt id that goes out comes back to the right message. After
    an iteration has sent a run to the worker, a heartbeat that carries the
    attempt id of the execution descriptor extends the visibility of the
    message the iteration dequeued, by the default of 60 seconds, and does
    nothing else. *)
Theorem heartbeat_of_a_dispatched_attempt :
  forall (inp later : Ambient) (w : World) (message : QueueMessage)
    (run : TaskRun) (worker : BackgroundWorker) (task : BackgroundWorkerTask)
    (q : TaskQueue) (workerId : string),
    ReachesSend inp w message run worker task q ->
    rejects inp SenderSend = None ->
    (forall a, In a (taskRunAttempt (prisma w)) ->
               att_friendlyId a <> freshFriendlyId inp) ->
    rejects later TaskRunAttemptFindUnique = None ->
    rejects later HeartbeatMessage = None ->
    exists w' execution,
      doWorkInternal inp w = (Returned tt, w')
      /\ sent w'
         = (sent w
            ++ [mkOutMessage (bw_friendlyId worker)
                  [mkPayload execution (run_traceContext run)]])%list
      /\ taskHeartbeat later workerId (ea_id (ex_attempt execution)) None w'
         = (Returned tt,
            set_queue (queue w ++ [Heartbeat (msg_messageId message) 60]) w').
Proof.
  intros inp later w message run worker task q workerId Hreach Hsend Hfr
    Hfind Hbeat.
  destruct (dispatched_world inp w message run worker task q Hreach Hsend Hfr)
    as (w' & Hrun & Hsent & Hm & Hq & _ & _ & Hatt & _ & _ & _ & Hid).
  exists w'.
  exists (buildExecution (consumer w) worker task (lockedRun inp task run) q
            (newAttempt inp (prisma w) run task q)).
  split; [exact Hrun|]. split; [exact Hsent|].
  unfold attemptByFriendlyId in Hatt. run_completion.
  rewrite Hfind. simpl. rewrite Hatt. simpl.
  rewrite Hm. destruct Hreach as [Hmarqs]. rewrite Hmarqs, Hbeat. simpl.
  now rewrite Hq, Hid.
Qed.

(** X12. After an iteration has sent a run to the worker, a successful
    completion that carries the attempt id of the execution descriptor
    marks the new attempt [COMPLETED], counts a success and acknowledges
    the message the iteration dequeued. *)
Theorem completion_of_a_dispatched_attempt :
  forall (core : Imports) (inp later : Ambient) (w : World)
    (message : QueueMessage) (run : TaskRun) (worker : BackgroundWorker)
    (task stored : BackgroundWorkerTask) (q : TaskQueue) (workerId : string)
    (output : option string) (outputType : string),
    ReachesSend inp w message run worker task q ->
    rejects inp SenderSend = None ->
    (forall a, In a (taskRunAttempt (prisma w)) ->
               att_friendlyId a <> freshFriendlyId inp) ->
    backgroundWorkerTask_findUnique (prisma w) (task_id task) = Some stored ->
    rejects later TaskRunAttemptUpdate = None ->
    rejects later AcknowledgeMessage = None ->
    exists w' execution w'',
      doWorkInternal inp w = (Returned tt, w')
      /\ sent w'
         = (sent w
            ++ [mkOutMessage (bw_friendlyId worker)
                  [mkPayload execution (run_traceContext run)]])%list
      /\ taskRunCompleted core later workerId
           (Success (ea_id (ex_attempt execution)) output outputType)
           execution w'
         = (Returned tt, w'')
      /\ queue w'' = (queue w ++ [Acknowledged (msg_messageId message)])%list
      /\ statusColumns (prisma w'')
         = (statusColumns (prisma w)
            ++ [(freshAttemptId inp, COMPLETED, Some (now later))])%list
      /\ _taskSuccesses (consumer w'') = _taskSuccesses (consumer w) + 1
      /\ events w'' = events w.
Proof.
  intros core inp later w message run worker task stored q workerId output
    outputType Hreach Hsend Hfr Hstored Hupd Hack.
  destruct (dispatched_world inp w message run worker task q Hreach Hsend Hfr)
    as (w' & Hrun & Hsent & Hm & Hq & Hev & Hc & Hatt & Hatts & Hfindrun
        & Hbw & Hid).
  assert (Hfresh : forall a, In a (taskRunAttempt (prisma w)) ->
                             att_id a <> freshAttemptId inp)
    by (destruct Hreach; assumption).
  assert (Hmarqs : marqs w = true) by (destruct Hreach; assumption).
  exists w'.
  exists (buildExecution (consumer w) worker task (lockedRun inp task run) q
            (newAttempt inp (prisma w) run task q)).
  unfold attemptByFriendlyId in Hatt. run_completion.
  rewrite Hupd. simpl. rewrite Hatt. simpl. rewrite Hid, Hfindrun.
  unfold backgroundWorkerTask_findUnique in *. rewrite Hbw, Hstored.
  simpl. rewrite Hm, Hmarqs, Hack. simpl.
  eexists. split; [exact Hrun|]. split; [exact Hsent|].
  split; [reflexivity|]. simpl. unfold statusColumns. simpl.
  rewrite Hq, Hc, Hev, Hatts, !map_app, map_map. simpl.
  rewrite String.eqb_refl. simpl.
  split; [now rewrite Hid|]. split; [|split; reflexivity].
  f_equal. apply map_ext_in. intros a Ha.
  destruct (String.eqb_spec (att_id a) (freshAttemptId inp)) as [E|_];
    [exfalso; now apply (Hfresh a)|reflexivity].
Qed.

(** ** The registry *)

Lemma lookup_set_eq {A : Type} (k : string) (v : A) (o : list (string * A)) :
  lookup k (set k v o) = Some v.
Proof.
  induction o as [|[k' v'] o IH]; simpl; [now rewrite String.eqb_refl|].
  destruct (String.eqb k k') eqn:E; simpl; [now rewrite String.eqb_refl|].
  now rewrite E.
Qed.

Lemma lookup_set_neq {A : Type} (k k0 : string) (v : A)
  (o : list (string * A)) :
  k0 <> k -> lookup k0 (set k v o) = lookup k0 o.
Proof.
  intros Hne. apply String.eqb_neq in Hne.
  induction o as [|[k' v'] o IH]; simpl; [now rewrite Hne|].
  destruct (String.eqb k k') eqn:E; simpl.
  - apply String.eqb_eq in E. subst k'. now rewrite Hne.
  - now rewrite IH.
Qed.

Lemma In_set {A : Type} (k k0 : string) (v v0 : A) (o : list (string * A)) :
  In (k0, v0) (set k v o) -> (k0, v0) = (k, v) \/ In (k0, v0) o.
Proof.
  induction o as [|[k' v'] o IH]; simpl.
  - intros [H|[]]; now left.
  - destruct (String.eqb k k'); simpl.
    + intros [H|H]; [now left | now right; right].
    + intros [H|H]; [now right; left|].
      destruct (IH H) as [H'|H']; [now left | now right; right].
Qed.

Lemma checkTraceWindow_keeps (inp : Ambient) (w : World) :
  let w' := snd (checkTraceWindow inp w) in
  env (consumer w') = env (consumer w)
  /\ _backgroundWorkers (consumer w') = _backgroundWorkers (consumer w)
  /\ _options (consumer w') = _options (consumer w)
  /\ _enabled (consumer w') = _enabled (consumer w)
  /\ timers w' = timers w /\ sent w' = sent w /\ queue w' = queue w
  /\ marqs w' = marqs w /\ events w' = events w.
Proof.
  cbv zeta. run_window.
  destruct (is_zero (_perTraceCountdown (consumer w)));
    [|destruct (_lastNewTrace (consumer w)); simpl;
      [destruct ((_ >? _) || _ || _)|]];
    simpl; try (repeat split; reflexivity);
    destruct (_currentSpan (consumer w)); repeat split; reflexivity.
Qed.

(** An iteration of the loop keeps the environment, the registry and the
    options. *)
Lemma doWork_keeps (inp : Ambient) (w : World) :
  let w' := snd (doWork inp w) in
  env (consumer w') = env (consumer w)
  /\ _backgroundWorkers (consumer w') = _backgroundWorkers (consumer w)
  /\ _options (consumer w') = _options (consumer w)
  /\ marqs w' = marqs w /\ events w' = events w.
Proof.
  cbv zeta. destruct (doWork inp w) as [r w'] eqn:E. simpl. revert E.
  unfold doWork, bind at 1, this.
  destruct (_enabled (consumer w)); simpl;
    [|intros [= <- <-]; repeat split; reflexivity].
  unfold bind at 1.
  destruct (checkTraceWindow_keeps inp w)
    as (He & Hb & Ho & _ & _ & _ & _ & Hm & Hev).
  destruct (checkTraceWindow inp w) as [[[]|e] w1]; simpl in *;
    [|intros [= <- <-]; repeat split; assumption].
  unfold bind.
  destruct (doWorkInternal inp w1) as [r2 w2] eqn:E2.
  destruct (doWorkInternal_frame inp w1 r2 w2 E2)
    as (He2 & Hb2 & Ho2 & _ & _ & _ & _ & _ & _ & _ & _ & Hm2 & Hev2 & _).
  destruct r2 as [[]|e]; simpl; intros [= <- <-]; simpl;
    repeat split; congruence.
Qed.

Lemma detach_doWork_keeps (inp : Ambient) (w : World) :
  let w' := detach (doWork inp) w in
  env (consumer w') = env (consumer w)
  /\ _backgroundWorkers (consumer w') = _backgroundWorkers (consumer w)
  /\ _options (consumer w') = _options (consumer w)
  /\ marqs w' = marqs w /\ events w' = events w.
Proof.
  cbv zeta. unfold detach. pose proof (doWork_keeps inp w) as H.
  destruct (doWork inp w) as [[[]|e] w1]; simpl in *; exact H.
Qed.

(** What a registration does to the registry. *)
Lemma registerBackgroundWorker_registry (inp : Ambient) (id : string)
  (w : World) :
  let w' := snd (registerBackgroundWorker inp id w) in
  env (consumer w') = env (consumer w)
  /\ _backgroundWorkers (consumer w')
     = match rejects inp BackgroundWorkerFindUnique,
             backgroundWorker_findUnique (prisma w) id
               (env_id (env (consumer w))) with
       | None, Some found =>
           set (bw_id found) found (_backgroundWorkers (consumer w))
       | _, _ => _backgroundWorkers (consumer w)
       end.
Proof.
  cbv zeta. unfold registerBackgroundWorker, bind, await, this, update.
  destruct (rejects inp BackgroundWorkerFindUnique); simpl;
    [split; reflexivity|].
  destruct (backgroundWorker_findUnique _ _ _) as [found|]; simpl;
    [|split; reflexivity].
  unfold enable. simpl.
  destruct (_enabled (consumer w)); simpl; [split; reflexivity|].
  match goal with
  | |- context [detach _ ?w0] =>
      destruct (detach_doWork_keeps inp w0) as (He & Hb & _)
  end.
  split; assumption.
Qed.

Lemma taskRunCompleted_keeps (core : Imports) (inp : Ambient)
  (workerId : string) (completion : TaskRunExecutionResult)
  (execution : TaskRunExecution) (w : World) :
  let w' := snd (taskRunCompleted core inp workerId completion execution w) in
  env (consumer w') = env (consumer w)
  /\ _backgroundWorkers (consumer w') = _backgroundWorkers (consumer w)
  /\ _options (consumer w') = _options (consumer w)
  /\ _enabled (consumer w') = _enabled (consumer w)
  /\ _perTraceCountdown (consumer w') = _perTraceCountdown (consumer w)
  /\ timers w' = timers w /\ sent w' = sent w /\ marqs w' = marqs w.
Proof.
  cbv zeta.
  destruct (taskRunCompleted core inp workerId completion execution w)
    as [r w'] eqn:E. simpl. revert E. run_completion.
  destruct completion as [id output outputType|id error retry].
  all: repeat case_step; simpl; intros [= <- <-]; simpl.
  all: repeat split; first [reflexivity | congruence].
Qed.

Lemma perform_registry (core : Imports) (op : Operation) (w : World) :
  registryOfEnvironment w -> registryOfEnvironment (perform core op w).
Proof.
  intros H.
  assert (Hext : forall w',
             env (consumer w') = env (consumer w) ->
             _backgroundWorkers (consumer w')
             = _backgroundWorkers (consumer w) ->
             backgroundWorker (prisma w') = backgroundWorker (prisma w) ->
             registryOfEnvironment w').
  { intros w' He Hb Hs k b. rewrite He, Hb, Hs. apply H. }
  pose proof (perform_relocks core op w) as (_ & Hbw & _).
  destruct op as [inp id|inp k|inp workerId completion execution
                 |inp workerId id|]; simpl in *.
  - destruct (registerBackgroundWorker_registry inp id w) as [He Hb].
    destruct (rejects inp BackgroundWorkerFindUnique);
      [now apply Hext|].
    destruct (backgroundWorker_findUnique (prisma w) id
                (env_id (env (consumer w)))) as [found|] eqn:Ef;
      [|now apply Hext].
    intros k b. rewrite He, Hb, Hbw. intros Hin.
    apply In_set in Hin. destruct Hin as [[= -> ->]|Hin]; [|now apply H].
    unfold backgroundWorker_findUnique in Ef. apply find_some in Ef.
    destruct Ef as [Hin Hb']. apply andb_true_iff in Hb'.
    destruct Hb' as [_ Henv]. apply String.eqb_eq in Henv. now repeat split.
  - unfold fireTimer in *. destruct (nth_error (timers w) k);
      [|exact H].
    match goal with
    | |- registryOfEnvironment (detach _ ?w0) =>
        destruct (detach_doWork_keeps inp w0) as (He & Hb & _)
    end.
    now apply Hext.
  - destruct (taskRunCompleted_keeps core inp workerId completion execution w)
      as (He & Hb & _).
    now apply Hext.
  - apply Hext; try assumption; now rewrite taskHeartbeat_consumer.
  - now apply Hext.
Qed.

(** X13. A dispatcher only ever holds workers of its own environment.
    From an empty registry, through any sequence of operations, every
    registered worker is keyed by its id, is a row of the store and has the
    environment of the dispatcher; so the worker an iteration selects, for
    a pinned or an unpinned run, is a worker of that environment. *)
Theorem registry_holds_only_workers_of_the_environment :
  forall (core : Imports) (ops : list Operation) (w : World),
    _backgroundWorkers (consumer w) = [] ->
    let w' := performAll core ops w in
    registryOfEnvironment w'
    /\ forall run worker,
         selectBackgroundWorker (consumer w') run = Some worker ->
         bw_runtimeEnvironmentId worker = env_id (env (consumer w'))
         /\ In worker (backgroundWorker (prisma w')).
Proof.
  intros core ops w Hempty. cbv zeta.
  assert (H : registryOfEnvironment w).
  { intros k b. rewrite Hempty. intros []. }
  clear Hempty.
  assert (Hall : registryOfEnvironment (performAll core ops w)).
  { revert w H. induction ops as [|op ops IH]; intros w H; simpl;
      [exact H|].
    apply IH. now apply perform_registry. }
  split; [exact Hall|].
  intros run worker Hsel. apply selectBackgroundWorker_In in Hsel.
  apply in_map_iff in Hsel. destruct Hsel as ([k b] & Hb & Hin).
  simpl in Hb. subst b.
  destruct (Hall k worker Hin) as (_ & Hrow & Henv). now split.
Qed.

(** X14. Registration and lookup. A registration that finds the worker
    stores it under its id: a run pinned to that id selects it from then
    on, the other entries of the registry are untouched, and the worker
    found has the friendly id asked for. A registration that finds no
    worker - an unknown id, a worker of another environment - changes
    nothing and does not start the loop. *)
Theorem registration_round_trip :
  forall (inp : Ambient) (id : string) (w : World),
    rejects inp BackgroundWorkerFindUnique = None ->
    let w' := snd (registerBackgroundWorker inp id w) in
    match backgroundWorker_findUnique (prisma w) id
            (env_id (env (consumer w))) with
    | Some found =>
        bw_friendlyId found = id
        /\ lookup (bw_id found) (_backgroundWorkers (consumer w'))
           = Some found
        /\ (forall run,
              run_lockedToVersionId run = Some (bw_id found) ->
              bw_id found <> "" ->
              selectBackgroundWorker (consumer w') run = Some found)
        /\ (forall k,
              k <> bw_id found ->
              lookup k (_backgroundWorkers (consumer w'))
              = lookup k (_backgroundWorkers (consumer w)))
    | None => w' = w
    end.
Proof.
  intros inp id w Hrej. cbv zeta.
  destruct (registerBackgroundWorker_registry inp id w) as [_ Hb].
  rewrite Hrej in Hb.
  destruct (backgroundWorker_findUnique (prisma w) id
              (env_id (env (consumer w)))) as [found|] eqn:Ef.
  - split.
    { unfold backgroundWorker_findUnique in Ef. apply find_some in Ef.
      destruct Ef as [_ Hb']. apply andb_true_iff in Hb'.
      now apply String.eqb_eq. }
    split; [rewrite Hb; apply lookup_set_eq|]. split.
    + intros run Hpin Hne. unfold selectBackgroundWorker. rewrite Hpin.
      apply String.eqb_neq in Hne. rewrite Hne, Hb. apply lookup_set_eq.
    + intros k Hk. rewrite Hb. now apply lookup_set_neq.
  - unfold registerBackgroundWorker, bind, await, this, update.
    rewrite Hrej. simpl. now rewrite Ef.
Qed.

(** ** The loop *)

(** An iteration schedules one iteration at most. *)
Lemma doWorkInternal_timers (inp : Ambient) (w : World) :
  let w' := snd (doWorkInternal inp w) in
  timers w' = timers w \/ exists ms, timers w' = (timers w ++ [ms])%list.
Proof.
  cbv zeta. destruct (doWorkInternal inp w) as [r w'] eqn:E. simpl.
  revert E. run_async.
  repeat case_step; simpl; intros [= <- <-]; simpl.
  all: first [left; reflexivity | right; eexists; reflexivity].
Qed.

(** What [#doWork] does to the loop state. *)
Lemma doWork_loop (inp : Ambient) (w : World) :
  let w' := snd (doWork inp w) in
  (_enabled (consumer w) = false -> w' = w)
  /\ (timers w' = timers w
      \/ exists ms, timers w' = (timers w ++ [ms])%list)
  /\ (stopRequested inp = false ->
      _enabled (consumer w') = _enabled (consumer w))
  /\ (_enabled (consumer w') = true -> _enabled (consumer w) = true).
Proof.
  cbv zeta. destruct (doWork inp w) as [r w'] eqn:E. simpl. revert E.
  unfold doWork, bind at 1, this.
  destruct (_enabled (consumer w)) eqn:Hen; simpl.
  - unfold bind at 1.
    destruct (checkTraceWindow_keeps inp w)
      as (_ & _ & _ & He & Ht & _).
    destruct (checkTraceWindow inp w) as [[[]|e] w1]; simpl in *.
    + unfold bind.
      pose proof (doWorkInternal_timers inp w1) as Ht2.
      destruct (doWorkInternal inp w1) as [r2 w2] eqn:E2.
      destruct (doWorkInternal_frame inp w1 r2 w2 E2)
        as (_ & _ & _ & _ & _ & _ & _ & _ & _ & He2 & _).
      simpl in Ht2. rewrite Ht in Ht2.
      destruct r2 as [[]|e]; simpl; intros [= <- <-]; simpl.
      all: split; [discriminate|]; split; [exact Ht2|]; split; [|reflexivity].
      all: intros Hs; rewrite He2, Hs, He; exact Hen.
    + intros [= <- <-]. split; [discriminate|]. split; [now left|].
      split; [intros _; congruence|reflexivity].
  - intros [= <- <-]. split; [reflexivity|]. split; [now left|].
    split; [intros _; congruence|]. rewrite Hen. discriminate.
Qed.

Lemma detach_doWork_loop (inp : Ambient) (w : World) :
  let w' := detach (doWork inp) w in
  (_enabled (consumer w) = false ->
   timers w' = timers w /\ consumer w' = consumer w /\ sent w' = sent w
   /\ prisma w' = prisma w /\ tracer w' = tracer w /\ queue w' = queue w)
  /\ (timers w' = timers w
      \/ exists ms, timers w' = (timers w ++ [ms])%list)
  /\ (stopRequested inp = false ->
      _enabled (consumer w') = _enabled (consumer w))
  /\ (_enabled (consumer w') = true -> _enabled (consumer w) = true).
Proof.
  cbv zeta. unfold detach. pose proof (doWork_loop inp w) as H.
  destruct (doWork inp w) as [[[]|e] w1]; simpl in *;
    destruct H as (H0 & H1 & H2 & H3);
    (split; [intros Hd; rewrite (H0 Hd); repeat split|]);
    repeat split; assumption.
Qed.

Lemma length_remove_nth {A : Type} (k : nat) (l : list A) (x : A) :
  nth_error l k = Some x -> S (List.length (remove_nth k l)) = List.length l.
Proof.
  revert k. induction l as [|y l IH]; intros [|k]; simpl; try discriminate.
  - reflexivity.
  - intros H. now rewrite (IH k H).
Qed.

Lemma perform_one_loop (core : Imports) (op : Operation) (w : World)
  (inp : Ambient) :
  ambientOf op = Some inp -> stopRequested inp = false ->
  (_enabled (consumer w) = false -> timers w = []) ->
  (List.length (timers w) <= 1)%nat ->
  (_enabled (consumer (perform core op w)) = false ->
   timers (perform core op w) = [])
  /\ (List.length (timers (perform core op w)) <= 1)%nat.
Proof.
  intros Hop Hstop Hoff Hone.
  destruct op as [inp0 id|inp0 k|inp0 workerId completion execution
                 |inp0 workerId id|]; simpl in *; try discriminate;
    injection Hop as ->.
  - unfold registerBackgroundWorker, bind, await, this, update.
    destruct (rejects inp BackgroundWorkerFindUnique); simpl;
      [split; assumption|].
    destruct (backgroundWorker_findUnique _ _ _) as [found|]; simpl;
      [|split; assumption].
    unfold enable. simpl.
    destruct (_enabled (consumer w)) eqn:Hen; simpl;
      [split; [intros Hf; simpl in Hf; congruence|assumption]|].
    match goal with
    | |- context [detach _ ?w0] =>
        destruct (detach_doWork_loop inp w0) as (_ & Ht & He & _)
    end.
    simpl in *. rewrite (Hoff eq_refl) in *. rewrite (He Hstop).
    split; [discriminate|].
    destruct Ht as [->|[ms ->]]; simpl; lia.
  - unfold fireTimer. destruct (nth_error (timers w) k) as [x|] eqn:Ek;
      [|split; assumption].
    destruct (_enabled (consumer w)) eqn:Hen;
      [|rewrite (Hoff eq_refl) in Ek; destruct k; discriminate].
    pose proof (length_remove_nth k (timers w) x Ek) as Hlen.
    match goal with
    | |- context [detach _ ?w0] =>
        destruct (detach_doWork_loop inp w0) as (_ & Ht & He & _)
    end.
    simpl in *. rewrite (He Hstop), Hen. split; [discriminate|].
    destruct (remove_nth k (timers w)) as [|y l]; [|simpl in Hlen; lia].
    destruct Ht as [->|[ms ->]]; simpl; lia.
  - destruct (taskRunCompleted_keeps core inp workerId completion execution w)
      as (_ & _ & _ & He & _ & Ht & _).
    rewrite He, Ht. split; assumption.
  - rewrite taskHeartbeat_consumer.
    assert (Ht : timers (snd (taskHeartbeat inp workerId id None w))
                 = timers w).
    { destruct (taskHeartbeat inp workerId id None w) as [r w'] eqn:E.
      revert E. run_completion.
      repeat case_step; simpl; intros [= <- <-]; reflexivity. }
    rewrite Ht. split; assumption.
Qed.

(** X15. One loop at a time. From a dispatcher that is off with nothing
    pending, as long as [stop()] is never called, at most one iteration is
    pending at any time, whatever the worker registers, reports and
    whatever the iterations meet; and none is pending while the dispatcher
    is off. *)
Theorem one_loop_unless_stopped :
  forall (core : Imports) (ops : list Operation) (w : World),
    timers w = [] -> _enabled (consumer w) = false ->
    neverStopped ops ->
    let w' := performAll core ops w in
    (List.length (timers w') <= 1)%nat
    /\ (_enabled (consumer w') = false -> timers w' = []).
Proof.
  intros core ops w Ht Hen Hns. cbv zeta.
  assert (H : (_enabled (consumer w) = false -> timers w = [])
              /\ (List.length (timers w) <= 1)%nat).
  { rewrite Ht. split; [reflexivity|simpl; lia]. }
  clear Ht Hen. revert w H.
  induction ops as [|op ops IH]; intros w [H1 H2]; simpl; [now split|].
  destruct (Hns op (or_introl eq_refl)) as (inp & Hop & Hstop).
  apply IH.
  - intros op' Hin. apply Hns. now right.
  - now apply perform_one_loop with inp.
Qed.

(** X16. [stop()] cancels no timer, and a registration on a stopped
    dispatcher starts a loop of its own: with an idle queue, the pending
    iterations are all kept and one more is scheduled in 1000 ms, with
    the dispatcher enabled again - so every iteration left pending by the
    stop will run beside the new loop. *)
Theorem restart_keeps_the_pending_timers :
  forall (inp : Ambient) (id : string) (w : World) (found : BackgroundWorker),
    rejects inp BackgroundWorkerFindUnique = None ->
    backgroundWorker_findUnique (prisma w) id (env_id (env (consumer w)))
    = Some found ->
    stopRequested inp = false ->
    marqs w = false
    \/ (rejects inp DequeueMessageInEnv = None /\ dequeued inp = None) ->
    let stopped := snd (stop w) in
    let w' := snd (registerBackgroundWorker inp id stopped) in
    timers stopped = timers w
    /\ timers w' = (timers w ++ [1000])%list
    /\ _enabled (consumer w') = true.
Proof.
  intros inp id w found Hrej Hfound Hstop Hidle. cbv zeta.
  split; [reflexivity|].
  remember (snd (registerBackgroundWorker inp id (snd (stop w)))) as w'
    eqn:Ew.
  revert Ew.
  unfold registerBackgroundWorker, stop, bind, await, this, update.
  simpl. rewrite Hrej. simpl. rewrite Hfound. simpl.
  unfold enable. simpl. unfold detach, doWork, bind at 1, this. simpl.
  unfold bind at 1.
  match goal with
  | |- context [checkTraceWindow inp ?w0] =>
      destruct (checkTraceWindow_frame inp w0)
        as (w1 & Hw1 & Ht1 & _ & _ & _ & Hm1 & _ & _ & He1 & _);
      [simpl; discriminate|]
  end.
  rewrite Hw1. simpl in *. unfold bind at 1.
  assert (Hidle1 : marqs w1 = false
                   \/ (rejects inp DequeueMessageInEnv = None
                       /\ dequeued inp = None))
    by (rewrite Hm1; exact Hidle).
  assert (Hi : exists w2,
             doWorkInternal inp w1 = (Returned tt, w2)
             /\ timers w2 = (timers w1 ++ [1000])%list
             /\ _enabled (consumer w2) = _enabled (consumer w1)).
  { run_async. rewrite Hstop. simpl.
    destruct (marqs w1) eqn:Hm;
      [ destruct Hidle1 as [H|[Hr Hd]]; [discriminate|]; rewrite Hr; simpl;
        rewrite Hd; simpl
      | simpl ];
      (eexists; split; [reflexivity|]); simpl; split; reflexivity. }
  destruct Hi as (w2 & -> & Ht2 & He2).
  rewrite countDown_runs. simpl. intros ->. simpl.
  rewrite Ht2, Ht1, He2, He1. now split.
Qed.

Lemma checkTraceWindow_countdown (inp : Ambient) (w : World) :
  let w1 := snd (checkTraceWindow inp w) in
  _perTraceCountdown (consumer w1)
  = Some (Num (maximumItemsPerTrace (_options (consumer w))))
  \/ (_perTraceCountdown (consumer w1) = _perTraceCountdown (consumer w)
      /\ is_zero (_perTraceCountdown (consumer w)) = false).
Proof.
  cbv zeta. run_window.
  destruct (is_zero (_perTraceCountdown (consumer w)));
    [|destruct (_lastNewTrace (consumer w)); simpl;
      [destruct ((_ >? _) || _ || _)|]];
    simpl; try (right; split; reflexivity);
    destruct (_currentSpan (consumer w)); left; reflexivity.
Qed.

Lemma countdownInRange_ext (maximum : Z) (c c' : EnvironmentQueueConsumer) :
  _perTraceCountdown c' = _perTraceCountdown c ->
  (_enabled c = false -> _enabled c' = false) ->
  countdownInRange maximum c -> countdownInRange maximum c'.
Proof.
  unfold countdownInRange. intros -> He.
  destruct (_perTraceCountdown c) as [[|z]|]; auto.
Qed.

Lemma doWork_countdown (inp : Ambient) (w : World) :
  1 <= maximumItemsPerTrace (_options (consumer w)) ->
  countdownInRange (maximumItemsPerTrace (_options (consumer w)))
                   (consumer w) ->
  countdownInRange (maximumItemsPerTrace (_options (consumer w)))
                   (consumer (snd (doWork inp w))).
Proof.
  intros Hmax H. destruct (doWork inp w) as [r w'] eqn:E. simpl. revert E.
  unfold doWork, bind at 1, this.
  destruct (_enabled (consumer w)) eqn:Hen; simpl;
    [|intros [= <- <-]; exact H].
  unfold bind at 1.
  pose proof (checkTraceWindow_countdown inp w) as Hc.
  destruct (checkTraceWindow inp w) as [[[]|e] w1]; simpl in *.
  - unfold bind.
    destruct (doWorkInternal inp w1) as [r2 w2] eqn:E2.
    destruct (doWorkInternal_frame inp w1 r2 w2 E2)
      as (_ & _ & _ & Hc2 & _).
    unfold countdownInRange in *. rewrite Hen in H.
    destruct r2 as [[]|e]; simpl; intros [= <- <-]; simpl; rewrite ?Hc2.
    + destruct Hc as [->|[-> Hz]]; simpl; [lia|].
      destruct (_perTraceCountdown (consumer w)) as [[|z]|];
        simpl in *; try contradiction; try discriminate.
      apply Z.eqb_neq in Hz. lia.
    + destruct Hc as [->|[-> Hz]]; simpl; [lia|].
      destruct (_perTraceCountdown (consumer w)) as [[|z]|];
        simpl in *; try contradiction; try discriminate. exact H.
  - intros [= <- <-]. unfold countdownInRange in *. rewrite Hen in H.
    destruct Hc as [->|[-> Hz]]; simpl; [lia|].
    destruct (_perTraceCountdown (consumer w)) as [[|z]|];
      simpl in *; try contradiction; try discriminate. exact H.
Qed.

Lemma detach_doWork_countdown (inp : Ambient) (w : World) :
  1 <= maximumItemsPerTrace (_options (consumer w)) ->
  countdownInRange (maximumItemsPerTrace (_options (consumer w)))
                   (consumer w) ->
  countdownInRange (maximumItemsPerTrace (_options (consumer w)))
                   (consumer (detach (doWork inp) w)).
Proof.
  intros Hmax H. unfold detach.
  pose proof (doWork_countdown inp w Hmax H) as H1.
  destruct (doWork inp w) as [[[]|e] w1]; simpl in *; exact H1.
Qed.

Lemma perform_countdown (core : Imports) (op : Operation) (w : World) :
  1 <= maximumItemsPerTrace (_options (consumer w)) ->
  countdownInRange (maximumItemsPerTrace (_options (consumer w)))
                   (consumer w) ->
  _options (consumer (perform core op w)) = _options (consumer w)
  /\ countdownInRange (maximumItemsPerTrace (_options (consumer w)))
                      (consumer (perform core op w)).
Proof.
  intros Hmax H.
  destruct op as [inp id|inp k|inp workerId completion execution
                 |inp workerId id|]; simpl.
  - unfold registerBackgroundWorker, bind, await, this, update.
    destruct (rejects inp BackgroundWorkerFindUnique); simpl;
      [split; [reflexivity|exact H]|].
    destruct (backgroundWorker_findUnique _ _ _) as [found|]; simpl;
      [|split; [reflexivity|exact H]].
    unfold enable. simpl.
    destruct (_enabled (consumer w)) eqn:Hen; simpl;
      [split; [reflexivity|exact H]|].
    match goal with
    | |- context [detach _ ?w0] =>
        destruct (detach_doWork_keeps inp w0) as (_ & _ & Ho & _);
        pose proof (detach_doWork_countdown inp w0) as Hd
    end.
    simpl in *. split; [exact Ho|]. apply Hd; [exact Hmax|].
    unfold countdownInRange. simpl. lia.
  - unfold fireTimer. destruct (nth_error (timers w) k);
      [|split; [reflexivity|exact H]].
    match goal with
    | |- context [detach _ ?w0] =>
        destruct (detach_doWork_keeps inp w0) as (_ & _ & Ho & _);
        pose proof (detach_doWork_countdown inp w0) as Hd
    end.
    simpl in *. split; [exact Ho|]. now apply Hd.
  - destruct (taskRunCompleted_keeps core inp workerId completion execution w)
      as (_ & _ & Ho & He & Hc & _).
    split; [exact Ho|].
    apply countdownInRange_ext with (consumer w); try assumption.
    intros Hf. now rewrite He.
  - rewrite taskHeartbeat_consumer. split; [reflexivity|exact H].
  - split; [reflexivity|].
    apply countdownInRange_ext with (consumer w); auto.
Qed.

(** *** Iterations that overlap *)

(** An iteration is its beginning followed, when the dispatcher is on, by
    its rest. *)
Lemma doWork_in_two_steps (inp : Ambient) (w : World) :
  doWork inp w
  = (goesOn <- doWorkBegin inp ;;
     if goesOn then doWorkResume inp else ret tt) w.
Proof.
  unfold doWork, doWorkBegin, doWorkResume, bind, this, ret.
  destruct (negb (_enabled (consumer w))); [reflexivity|].
  destruct (checkTraceWindow inp w) as [[[]|e] w1]; reflexivity.
Qed.

Lemma remove_nth_last {A : Type} (l : list A) (x : A) :
  remove_nth (List.length l) (l ++ [x]) = l.
Proof.
  induction l as [|y l IH]; simpl; [reflexivity|]. now rewrite IH.
Qed.

Lemma nth_error_last {A : Type} (l : list A) (x : A) :
  nth_error (l ++ [x]) (List.length l) = Some x.
Proof. induction l as [|y l IH]; simpl; [reflexivity|exact IH]. Qed.

(** An iteration that is continued as soon as it is suspended is the
    iteration run in one piece. *)
Lemma resumed_at_once (inp : Ambient) (w : World) (rest : list Ambient) :
  let s := callDoWork inp (w, rest) in
  (snd s = (rest ++ [inp])%list
   /\ resumeDoWork (List.length rest) s = (detach (doWork inp) w, rest))
  \/ s = (detach (doWork inp) w, rest).
Proof.
  cbv zeta. unfold callDoWork, resumeDoWork, detach.
  rewrite doWork_in_two_steps. unfold bind. simpl.
  destruct (doWorkBegin inp w) as [[[|]|e] w1] eqn:E; simpl.
  - left. split; [reflexivity|].
    now rewrite nth_error_last, remove_nth_last.
  - right. reflexivity.
  - right. reflexivity.
Qed.

(** A handler whose iteration is continued at once is the handler of
    [perform]. *)
Lemma turn_continued_at_once (core : Imports) (op : Operation)
  (s : Dispatcher) :
  let s1 := turn core (Handle op) s in
  (exists inp, snd s1 = (snd s ++ [inp])%list
               /\ resumeDoWork (List.length (snd s)) s1
                  = (perform core op (fst s), snd s))
  \/ s1 = (perform core op (fst s), snd s).
Proof.
  cbv zeta. destruct s as [w rest].
  destruct op as [inp id|inp k|inp workerId completion execution
                 |inp workerId id|]; simpl; try (right; reflexivity).
  - unfold registerSuspending, registerBackgroundWorker, bind, await, this,
      update. simpl.
    destruct (rejects inp BackgroundWorkerFindUnique); simpl;
      [right; reflexivity|].
    destruct (backgroundWorker_findUnique _ _ _) as [found|]; simpl;
      [|right; reflexivity].
    unfold enableSuspending, enable. simpl.
    destruct (_enabled (consumer w)); simpl; [right; reflexivity|].
    match goal with
    | |- context [callDoWork inp (?w0, rest)] =>
        destruct (resumed_at_once inp w0 rest) as [[H1 H2]|H]
    end.
    + left. exists inp. split; assumption.
    + right. exact H.
  - unfold fireTimer. destruct (nth_error (timers w) k);
      [|right; reflexivity].
    match goal with
    | |- context [callDoWork inp (?w0, rest)] =>
        destruct (resumed_at_once inp w0 rest) as [[H1 H2]|H]
    end.
    + left. exists inp. split; assumption.
    + right. exact H.
Qed.

Lemma callDoWork_singleLoop (o : EnvironmentQueueConsumerOptions)
  (inp : Ambient) (w : World) :
  1 <= maximumItemsPerTrace o ->
  stopRequested inp = false ->
  _options (consumer w) = o ->
  countdownInRange (maximumItemsPerTrace o) (consumer w) ->
  _enabled (consumer w) = true ->
  timers w = [] ->
  singleLoop o (callDoWork inp (w, [])).
Proof.
  intros Hmax Hstop Ho Hc Hen Ht.
  unfold callDoWork, doWorkBegin, bind at 1, this. simpl. rewrite Hen. simpl.
  unfold bind, ret.
  destruct (checkTraceWindow_keeps inp w)
    as (_ & _ & Ho1 & He1 & Ht1 & _).
  pose proof (checkTraceWindow_countdown inp w) as Hc1.
  assert (Hz : exists z,
             _perTraceCountdown (consumer (snd (checkTraceWindow inp w)))
             = Some (Num z) /\ 1 <= z <= maximumItemsPerTrace o).
  { unfold countdownInRange in Hc. cbv zeta in Hc1.
    destruct Hc1 as [->|[-> Hnz]].
    - rewrite Ho. eexists. split; [reflexivity|lia].
    - destruct (_perTraceCountdown (consumer w)) as [[|z]|];
        simpl in *; try contradiction; try congruence.
      exists z. split; [reflexivity|]. apply Z.eqb_neq in Hnz. lia. }
  destruct Hz as (z & Hz & Hr).
  destruct (checkTraceWindow inp w) as [[[]|e] w1]; simpl in *.
  - unfold singleLoop. simpl. rewrite Ho1, He1, Ht1, Ht, Hz, Hen.
    split; [exact Ho|]. split; [unfold countdownInRange; rewrite Hz; lia|].
    split; [discriminate|]. split; [simpl; lia|].
    split; [intros _; exists z; split; [reflexivity|lia]|].
    constructor; [exact Hstop|constructor].
  - unfold singleLoop. simpl. rewrite Ho1, He1, Ht1, Ht, Hz, Hen.
    split; [exact Ho|]. split; [unfold countdownInRange; rewrite Hz; lia|].
    split; [discriminate|]. split; [simpl; lia|].
    split; [congruence|constructor].
Qed.

Lemma resumeDoWork_singleLoop (o : EnvironmentQueueConsumerOptions)
  (j : nat) (s : Dispatcher) :
  singleLoop o s -> singleLoop o (resumeDoWork j s).
Proof.
  intros H. unfold resumeDoWork.
  destruct (nth_error (snd s) j) as [inp|] eqn:Ej; [|exact H].
  destruct s as [w susp]. simpl in *.
  destruct H as (Ho & Hc & Hoff & Hone & Hpos & Hall).
  simpl in *.
  destruct susp as [|inp0 [|inp1 rest]]; simpl in *;
    [destruct j; discriminate| |lia].
  destruct j as [|j]; simpl in Ej; [|destruct j; discriminate].
  injection Ej as ->.
  destruct (timers w) as [|t ts] eqn:Ht; [|simpl in Hone; lia].
  destruct (Hpos ltac:(discriminate)) as (z & Hz & Hz1).
  assert (Hen : _enabled (consumer w) = true).
  { destruct (_enabled (consumer w)); [reflexivity|].
    destruct (Hoff eq_refl) as [_ Hn]. discriminate. }
  assert (Hstop : stopRequested inp = false) by now inversion Hall.
  unfold detach, doWorkResume, bind.
  pose proof (doWorkInternal_timers inp w) as Ht2.
  destruct (doWorkInternal inp w) as [r w2] eqn:E2.
  destruct (doWorkInternal_frame inp w r w2 E2)
    as (_ & _ & Ho2 & Hc2 & _ & _ & _ & _ & _ & He2 & _).
  rewrite Hstop in He2. simpl in Ht2. rewrite Ht in Ht2.
  unfold countdownInRange in Hc. rewrite Hz in Hc.
  destruct r as [[]|e]; rewrite ?countDown_runs; simpl;
    unfold singleLoop; simpl; unfold countdownInRange; simpl;
    rewrite ?Ho2, ?Hc2, ?He2, ?Hz, ?Hen; simpl.
  all: split; [exact Ho|]; split; [lia|]; split; [discriminate|].
  all: split; [destruct Ht2 as [->|[ms ->]]; simpl; lia|].
  all: split; [congruence|constructor].
Qed.

Lemma turn_singleLoop (core : Imports) (o : EnvironmentQueueConsumerOptions)
  (t : Turn) (s : Dispatcher) :
  1 <= maximumItemsPerTrace o ->
  (forall op, t = Handle op ->
              exists inp, ambientOf op = Some inp
                          /\ stopRequested inp = false) ->
  singleLoop o s -> singleLoop o (turn core t s).
Proof.
  intros Hmax Hop H.
  destruct t as [op|j]; [|now apply resumeDoWork_singleLoop].
  destruct (Hop op eq_refl) as (inp & Ha & Hstop). clear Hop.
  destruct s as [w susp].
  pose proof H as (Ho & Hc & Hoff & Hone & Hpos & Hall). simpl in *.
  destruct op as [inp0 id|inp0 k|inp0 workerId completion execution
                 |inp0 workerId id|]; simpl in *; try discriminate;
    injection Ha as ->.
  - unfold registerSuspending. simpl.
    destruct (rejects inp BackgroundWorkerFindUnique); [exact H|].
    destruct (backgroundWorker_findUnique _ _ _) as [found|]; [|exact H].
    unfold enableSuspending. simpl.
    destruct (_enabled (consumer w)) eqn:Hen; [exact H|].
    destruct (Hoff eq_refl) as [Ht ->].
    apply callDoWork_singleLoop; simpl; auto.
    unfold countdownInRange. simpl. rewrite Ho. lia.
  - destruct (nth_error (timers w) k) as [x|] eqn:Ek; [|exact H].
    pose proof (length_remove_nth k (timers w) x Ek) as Hlen.
    destruct susp as [|i susp]; [|simpl in Hone; lia].
    destruct (_enabled (consumer w)) eqn:Hen;
      [|destruct (Hoff eq_refl) as [Ht _]; rewrite Ht in Ek;
        destruct k; discriminate].
    apply callDoWork_singleLoop; simpl; auto.
    destruct (remove_nth k (timers w)); [reflexivity|simpl in *; lia].
  - destruct (taskRunCompleted_keeps core inp workerId completion execution w)
      as (_ & _ & Ho' & He' & Hc' & Ht' & _).
    unfold singleLoop, countdownInRange in *. simpl.
    rewrite Ho', He', Hc', Ht'. repeat split; tauto.
  - assert (Ht : timers (snd (taskHeartbeat inp workerId id None w))
                 = timers w).
    { destruct (taskHeartbeat inp workerId id None w) as [r w'] eqn:E.
      revert E. run_completion.
      repeat case_step; simpl; intros [= <- <-]; reflexivity. }
    unfold singleLoop, countdownInRange in *. simpl.
    rewrite taskHeartbeat_consumer, Ht. repeat split; tauto.
Qed.

Lemma handled_cons (t : Turn) (ts : list Turn) (op : Operation) :
  In op (handled ts) -> In op (handled (t :: ts)).
Proof. intros H. unfold handled. simpl. apply in_or_app. now right. Qed.

Lemma turnAll_singleLoop (core : Imports)
  (o : EnvironmentQueueConsumerOptions) (ts : list Turn) (s : Dispatcher) :
  1 <= maximumItemsPerTrace o ->
  neverStopped (handled ts) ->
  singleLoop o s -> singleLoop o (turnAll core ts s).
Proof.
  intros Hmax. revert s.
  induction ts as [|t ts IH]; intros s Hns H; simpl; [exact H|].
  apply IH.
  - intros op Hin. apply Hns. now apply handled_cons.
  - apply turn_singleLoop; [exact Hmax| |exact H].
    intros op ->. apply Hns. simpl. now left.
Qed.

(** X17. The countdown of the trace window stays in range while one loop
    runs. With [maximumItemsPerTrace] at least 1, from a new dispatcher
    with nothing pending, and through any turns - handlers, timers, and
    iterations continued while others wait - in which [stop()] is never
    called: the options never change; the countdown is unset only while
    the loop was never enabled, and otherwise a number from 0 to
    [maximumItemsPerTrace], never negative and never [NaN]; and at most one
    iteration is pending or suspended. When [stop()] is called and a
    worker registers again, two loops run and the countdown is not bounded
    below: see the lemma that follows. *)
Theorem countdown_stays_in_range :
  forall (core : Imports) (ts : list Turn) (w : World),
    1 <= maximumItemsPerTrace (_options (consumer w)) ->
    _perTraceCountdown (consumer w) = None ->
    _enabled (consumer w) = false ->
    timers w = [] ->
    neverStopped (handled ts) ->
    let s := turnAll core ts (w, []) in
    _options (consumer (fst s)) = _options (consumer w)
    /\ countdownInRange (maximumItemsPerTrace (_options (consumer w)))
                        (consumer (fst s))
    /\ (List.length (timers (fst s)) + List.length (snd s) <= 1)%nat.
Proof.
  intros core ts w Hmax Hnone Hoff Ht Hns. cbv zeta.
  destruct (turnAll_singleLoop core (_options (consumer w)) ts (w, []) Hmax
              Hns) as (Ho & Hc & _ & Hone & _).
  { unfold singleLoop, countdownInRange. simpl. rewrite Hnone, Ht.
    split; [reflexivity|]. split; [exact Hoff|]. split; [now split|].
    split; [simpl; lia|]. split; [congruence|constructor]. }
  split; [exact Ho|]. split; [exact Hc|exact Hone].
Qed.

(** With windows of one iteration: the worker registers, the connection is
    stopped, and the worker registers again while the first iteration
    waits for the queue. Both iterations have passed the window check when
    the first one counts down, and the countdown goes from 1 to -1, with
    two loops pending. *)
Lemma countdown_falls_below_zero_after_a_restart :
  let s := turnAll Scenario.imports Overlap.restarted (Overlap.narrow, []) in
  maximumItemsPerTrace (_options (consumer Overlap.narrow)) = 1
  /\ _perTraceCountdown (consumer (fst s)) = Some (Num (-1))
  /\ timers (fst s) = [1000; 1000]
  /\ snd s = [].
Proof. vm_compute. repeat split; reflexivity. Qed.









(** [stop()] while an iteration waits for the queue: the iteration goes on
    with the message of [r1], locks the run, finds the dispatcher off,
    nacks the message and schedules nothing; the run stays locked. *)
Lemma suspended_iteration_goes_on_after_stop :
  let s := turnAll Scenario.imports Overlap.closedWhileSuspended
                   (Scenario.registered, []) in
  map (fun r => (run_id r, run_lockedAt r, run_lockedById r))
      (taskRun (prisma Scenario.registered))
  = [("clrun0001", None, None)]
  /\ map (fun r => (run_id r, run_lockedAt r, run_lockedById r))
         (taskRun (prisma (fst s)))
     = [("clrun0001", Some 2000, Some "cltask0001")]
  /\ queue (fst s) = [Nacked "clrun0001" None]
  /\ sent (fst s) = []
  /\ timers (fst s) = []
  /\ snd s = [].
Proof. vm_compute. repeat split; reflexivity. Qed.

(** ** When an iteration throws *)

(** Outside the [try] statement of the send, an iteration that throws has
    scheduled nothing. *)
Lemma doWorkInternal_throw_timers (inp : Ambient) (w w' : World) (e : string) :
  rejects inp SenderSend = None ->
  doWorkInternal inp w = (Threw e, w') ->
  timers w' = timers w.
Proof.
  intros Hsend. run_async.
  repeat case_step; simpl;
    (intros E; first [discriminate E | injection E as <- <-]); simpl.
  all: first [reflexivity | congruence].
Qed.

(** X28. A throwing iteration ends the loop for good. When a pending timer
    fires on an enabled dispatcher and the iteration throws anywhere but in
    the send - a queue or store call rejects - the rejection is left
    unhandled and no iteration is scheduled; the dispatcher still counts as
    enabled, so a later registration does not start the loop again
    either. *)
Theorem a_throwing_iteration_ends_the_loop :
  forall (inp : Ambient) (k : nat) (ms : Z) (w : World) (e : string),
    _enabled (consumer w) = true ->
    _lastNewTrace (consumer w) <> None ->
    nth_error (timers w) k = Some ms ->
    rejects inp SenderSend = None ->
    stopRequested inp = false ->
    fst (doWork inp (set_timers (remove_nth k (timers w)) w)) = Threw e ->
    let w' := fireTimer inp k w in
    timers w' = remove_nth k (timers w)
    /\ unhandledRejections w' = (unhandledRejections w ++ [e])%list
    /\ _enabled (consumer w') = true
    /\ forall inp' id,
         timers (snd (registerBackgroundWorker inp' id w')) = timers w'
         /\ _enabled (consumer (snd (registerBackgroundWorker inp' id w')))
            = true.
Proof.
  intros inp k ms w e Hen Hopened Hk Hsend Hstop Hthrow. cbv zeta.
  unfold fireTimer. rewrite Hk.
  set (w0 := set_timers (remove_nth k (timers w)) w) in *.
  assert (H : exists w2,
             doWork inp w0 = (Threw e, w2)
             /\ timers w2 = timers w0
             /\ unhandledRejections w2 = unhandledRejections w0
             /\ _enabled (consumer w2) = true).
  { destruct (doWork inp w0) as [r w2] eqn:E. simpl in Hthrow. subst r.
    exists w2. split; [reflexivity|]. revert E.
    unfold doWork, bind at 1, this.
    change (_enabled (consumer w0)) with (_enabled (consumer w)).
    rewrite Hen. simpl.
    destruct (checkTraceWindow_frame inp w0 Hopened)
      as (w1 & Hw1 & Ht1 & _ & _ & _ & _ & _ & Hu1 & He1 & _).
    unfold bind at 1. rewrite Hw1. unfold bind.
    destruct (doWorkInternal inp w1) as [[[]|e'] w3] eqn:E2; simpl;
      [intros E; discriminate E|].
    intros E. injection E as -> ->.
    destruct (doWorkInternal_frame inp w1 (Threw e) w2 E2)
      as (_ & _ & _ & _ & _ & _ & _ & _ & _ & He2 & _ & _ & _ & Hu2 & _).
    rewrite (doWorkInternal_throw_timers inp w1 w2 e Hsend E2).
    rewrite He2, Hstop, He1, Hu2, Hu1. repeat split; try assumption. }
  destruct H as (w2 & Hw2 & Ht2 & Hu2 & He2).
  unfold detach. rewrite Hw2. simpl.
  split; [exact Ht2|]. split; [now rewrite Hu2|]. split; [exact He2|].
  intros inp' id.
  unfold registerBackgroundWorker, bind, await, this, update.
  destruct (rejects inp' BackgroundWorkerFindUnique); simpl;
    [split; [reflexivity|exact He2]|].
  destruct (backgroundWorker_findUnique _ _ _) as [found|]; simpl;
    [|split; [reflexivity|exact He2]].
  unfold enable. simpl. rewrite He2. simpl. split; [reflexivity|exact He2].
Qed.

(** ** A failed attempt that is retried *)

(** X29. A failed completion with a retry timestamp, handled to the end:
    the attempt is failed and stamped, a failure is counted, and the
    message of its run is nacked until the retry timestamp; one event is
    recorded, which starts now and ends at the retry timestamp and whose
    span id is derived from the trace id and the number of the next
    attempt. *)
Theorem failed_attempt_is_retried_at_its_timestamp :
  forall (core : Imports) (inp : Ambient) (workerId id : string)
    (error : Json) (timestamp : Z) (execution : TaskRunExecution)
    (w w' : World),
    marqs w = true ->
    taskRunCompleted core inp workerId (Failure id error (Some timestamp))
                     execution w
    = (Returned tt, w') ->
    exists attempt event,
      attemptByFriendlyId (prisma w) id = Some attempt
      /\ statusColumns (prisma w')
         = map (fun a => if String.eqb (att_id a) (att_id attempt)
                         then (att_id a, FAILED, Some (now inp))
                         else (att_id a, att_status a, att_completedAt a))
               (taskRunAttempt (prisma w))
      /\ _taskFailures (consumer w') = _taskFailures (consumer w) + 1
      /\ queue w'
         = (queue w ++ [Nacked (att_taskRunId attempt) (Some timestamp)])%list
      /\ events w' = (events w ++ [event])%list
      /\ ev_startTime event = now inp
      /\ ev_startTime event * 1000000 + ev_duration event
         = timestamp * 1000000
      /\ ev_spanId event
         = generateDeterministicSpanId core (ev_traceId event)
             ("retry-" ++ string_of_Z (att_number attempt + 1)).
Proof.
  intros core inp workerId id error timestamp execution w w' Hm Hrun.
  destruct (retry_completion core inp workerId id error timestamp execution
              w w' Hm Hrun)
    as (attempt & event & Hfind & Htable & Hfail & Hev & Hq & Hstart & Hdur
        & Hspan & _).
  exists attempt, event. unfold attemptByFriendlyId, statusColumns.
  split; [exact Hfind|]. split.
  { rewrite Htable, map_map. apply map_ext. intros a.
    now destruct (String.eqb (att_id a) (att_id attempt)). }
  split; [exact Hfail|]. split; [exact Hq|]. split; [exact Hev|].
  split; [exact Hstart|]. split; [rewrite Hstart, Hdur; lia|exact Hspan].
Qed.

(** * More of the event repository *)

(** ** Trace contexts *)

Lemma split_dash_cons (s : string) :
  exists p ps, split_dash s = p :: ps.
Proof.
  induction s as [|c s IH]; simpl; [now eexists; eexists|].
  destruct (Ascii.eqb c "-"); [now eexists; eexists|].
  destruct IH as (p & ps & ->). now eexists; eexists.
Qed.

Lemma split_dash_dashFree (s : string) :
  dashFree s = true -> split_dash s = [s].
Proof.
  induction s as [|c s IH]; simpl; [reflexivity|].
  destruct (Ascii.eqb c "-"); simpl; [discriminate|].
  intros H. now rewrite (IH H).
Qed.

Lemma split_dash_app (s t : string) :
  dashFree s = true ->
  split_dash (s ++ String "-"%char t) = s :: split_dash t.
Proof.
  induction s as [|c s IH]; simpl; [reflexivity|].
  destruct (Ascii.eqb c "-"); simpl; [discriminate|].
  intros H. now rewrite (IH H).
Qed.

(** The parts of a split have no dash, and joined with dashes they give
    the string back. *)
Lemma split_dash_parts (s : string) :
  Forall (fun p => dashFree p = true) (split_dash s)
  /\ fold_right (fun p acc => match acc with
                              | None => Some p
                              | Some rest => Some (p ++ String "-"%char rest)
                              end)
                None (split_dash s)
     = Some s.
Proof.
  induction s as [|c s [IH1 IH2]]; simpl.
  - split; [repeat constructor|reflexivity].
  - destruct (Ascii.eqb_spec c "-") as [->|Hc].
    + split; [constructor; [reflexivity|exact IH1]|].
      simpl. now rewrite IH2.
    + destruct (split_dash s) as [|p ps]; simpl in *; [discriminate|].
      inversion IH1 as [|? ? Hp Hps]; subst. split.
      * constructor; [|exact Hps]. simpl.
        destruct (Ascii.eqb_spec c "-"); [contradiction|exact Hp].
      * destruct (fold_right _ None ps) as [rest|];
          injection IH2 as <-; reflexivity.
Qed.

Lemma dashFree_app (s t : string) :
  dashFree (s ++ t) = dashFree s && dashFree t.
Proof.
  induction s as [|c s IH]; simpl; [reflexivity|].
  now rewrite IH, andb_assoc.
Qed.

Lemma split_dash_length (s t : string) :
  List.length (split_dash (s ++ String "-"%char t))
  = (List.length (split_dash s) + List.length (split_dash t))%nat.
Proof.
  induction s as [|c s IH]; simpl; [reflexivity|].
  destruct (Ascii.eqb c "-"); simpl; [now rewrite IH|].
  destruct (split_dash_cons (s ++ String "-"%char t)) as (p & ps & E).
  destruct (split_dash_cons s) as (p' & ps' & E').
  rewrite E, E' in *. simpl in *. lia.
Qed.

Lemma split_dash_one (s : string) :
  List.length (split_dash s) = 1%nat -> dashFree s = true.
Proof.
  induction s as [|c s IH]; simpl; [reflexivity|].
  destruct (Ascii.eqb c "-"); simpl.
  - destruct (split_dash_cons s) as (p & ps & ->). discriminate.
  - destruct (split_dash_cons s) as (p & ps & E). rewrite E in *.
    simpl in *. exact IH.
Qed.

Lemma parseTraceparent_traceparentOf (traceId spanId : string) :
  parseTraceparent (Some (traceparentOf traceId spanId))
  = if dashFree traceId && dashFree spanId
    then Some (traceId, spanId) else None.
Proof.
  unfold parseTraceparent, traceparentOf.
  change ("00-" ++ traceId ++ "-" ++ spanId ++ "-01")
    with ("00" ++ String "-"%char
            (traceId ++ String "-"%char (spanId ++ String "-"%char "01"))).
  destruct (dashFree traceId) eqn:Ht; [destruct (dashFree spanId) eqn:Hs|];
    simpl andb; cbv iota.
  - rewrite (split_dash_app "00") by reflexivity.
    rewrite (split_dash_app traceId) by exact Ht.
    rewrite (split_dash_app spanId) by exact Hs.
    reflexivity.
  - assert (Hlen : List.length
                     (split_dash
                        ("00" ++ String "-"%char
                           (traceId ++ String "-"%char
                              (spanId ++ String "-"%char "01")))) <> 4%nat).
    { rewrite !split_dash_length. simpl.
      rewrite (split_dash_dashFree traceId Ht). simpl.
      intros E. assert (E1 : List.length (split_dash spanId) = 1%nat) by lia.
      apply split_dash_one in E1. congruence. }
    simpl String.eqb. cbv iota.
    destruct (split_dash _) as [|a [|b [|c [|d [|e l]]]]]; try reflexivity.
    exfalso. apply Hlen. reflexivity.
  - assert (Hlen : List.length
                     (split_dash
                        ("00" ++ String "-"%char
                           (traceId ++ String "-"%char
                              (spanId ++ String "-"%char "01")))) <> 4%nat).
    { rewrite !split_dash_length. simpl.
      destruct (split_dash_cons spanId) as (p & ps & ->).
      destruct (split_dash_cons traceId) as (p' & ps' & E'). simpl.
      intros E.
      assert (E1 : List.length (split_dash traceId) = 1%nat)
        by (rewrite E' in *; simpl in *; lia).
      apply split_dash_one in E1. congruence. }
    simpl String.eqb. cbv iota.
    destruct (split_dash _) as [|a [|b [|c [|d [|e l]]]]]; try reflexivity.
    exfalso. apply Hlen. reflexivity.
Qed.

(** X19. The trace context [traceEvent] builds is read back as it was
    written: a carrier whose [traceparent] is [00-traceId-spanId-01]
    yields the trace id and the span id it was built from when neither
    contains a dash, and no trace context at all otherwise; a
    [tracestate] beside it is returned untouched. *)
Theorem traceparent_round_trip :
  forall (traceId spanId : string) (tracestate : option string),
    let carrier :=
      ("traceparent", traceparentOf traceId spanId)
      :: match tracestate with
         | Some s => [("tracestate", s)]
         | None => []
         end in
    extractContextFromCarrier carrier
    = (if dashFree traceId && dashFree spanId
       then Some (traceId, spanId) else None,
       tracestate).
Proof.
  intros traceId spanId tracestate. cbv zeta.
  unfold extractContextFromCarrier.
  change (lookup "traceparent"
            (("traceparent", traceparentOf traceId spanId)
             :: match tracestate with
                | Some s => [("tracestate", s)]
                | None => []
                end))
    with (Some (traceparentOf traceId spanId)).
  rewrite parseTraceparent_traceparentOf. f_equal.
  now destruct tracestate.
Qed.

Lemma parseTraceparent_parts (traceparent : option string)
  (traceId spanId : string) :
  parseTraceparent traceparent = Some (traceId, spanId) ->
  exists flags,
    traceparent = Some ("00-" ++ traceId ++ "-" ++ spanId ++ "-" ++ flags)
    /\ dashFree traceId = true /\ dashFree spanId = true
    /\ dashFree flags = true.
Proof.
  unfold parseTraceparent. destruct traceparent as [t|]; [|discriminate].
  destruct (String.eqb t ""); [discriminate|].
  destruct (split_dash_parts t) as [Hfree Hjoin].
  destruct (split_dash t) as [|v [|a [|b [|f [|x l]]]]]; try discriminate.
  destruct (String.eqb_spec v "00") as [->|]; [|discriminate].
  intros [= <- <-]. exists f. simpl in Hjoin. injection Hjoin as <-.
  inversion Hfree as [|? ? _ H1]; subst.
  inversion H1 as [|? ? Ha H2]; subst.
  inversion H2 as [|? ? Hb H3]; subst.
  inversion H3 as [|? ? Hf _]; subst.
  repeat split; assumption.
Qed.

(** X20. What [parseTraceparent] accepts: exactly the strings
    [00-traceId-spanId-flags] of four dash-free parts, whatever the parts
    hold - the ids and the flags may be empty or of any length; it returns
    the second and the third part. An absent or empty header, another
    version or another number of parts gives nothing. *)
Theorem parseTraceparent_accepts :
  forall (traceparent : option string) (traceId spanId : string),
    parseTraceparent traceparent = Some (traceId, spanId)
    <-> exists flags,
          traceparent
          = Some ("00-" ++ traceId ++ "-" ++ spanId ++ "-" ++ flags)
          /\ dashFree traceId = true /\ dashFree spanId = true
          /\ dashFree flags = true.
Proof.
  intros traceparent traceId spanId. split.
  - apply parseTraceparent_parts.
  - intros (flags & -> & Ht & Hs & Hf). unfold parseTraceparent.
    change ("00-" ++ traceId ++ "-" ++ spanId ++ "-" ++ flags)
      with ("00" ++ String "-"%char
              (traceId ++ String "-"%char (spanId ++ String "-"%char flags))).
    rewrite (split_dash_app "00") by reflexivity.
    rewrite (split_dash_app traceId) by exact Ht.
    rewrite (split_dash_app spanId) by exact Hs.
    rewrite (split_dash_dashFree flags Hf). reflexivity.
Qed.

(** ** Recorded events *)

(** X21. [recordEvent] needs a run id. Without one - absent or empty - it
    throws ["runId is required"] and the batch is as it was; with one it
    returns a full event of level [TRACE] and status [OK] for that run,
    adds exactly that event to the batch and touches nothing else. The
    event starts at the given start time, or now, and lasts until the
    given end time, or 100 ms, in nanoseconds. *)
Theorem recordEvent_requires_a_run_id :
  forall (core : Imports) (inp : Ambient) (message : string)
    (options : TraceEventOptions) (w : World),
    match ta_runId (teo_attributes options) with
    | None => recordEvent core inp message options w
              = (Threw "runId is required", w)
    | Some runId =>
        if String.eqb runId ""
        then recordEvent core inp message options w
             = (Threw "runId is required", w)
        else
          exists event,
            recordEvent core inp message options w
            = (Returned event, set_events (events w ++ [event]) w)
            /\ ev_runId event = runId
            /\ ev_message event = message
            /\ ev_isPartial event = false
            /\ ev_level event = "TRACE" /\ ev_status event = "OK"
            /\ ev_startTime event
               = match teo_startTime options with
                 | Some t => t
                 | None => now inp
                 end
            /\ ev_duration event
               = match teo_endTime options with
                 | Some t => (t - ev_startTime event) * 1000000
                 | None => 100000000
                 end
    end.
Proof.
  intros core inp message options w. unfold recordEvent, buildEvent.
  destruct (ta_runId (teo_attributes options)) as [runId|]; [|reflexivity].
  destruct (String.eqb runId ""); [reflexivity|].
  eexists. split; [reflexivity|]. simpl.
  repeat split. now destruct (teo_endTime options).
Qed.

Lemma buildEvent_joins (core : Imports) (inp : Ambient) (message : string)
  (options : TraceEventOptions) (event : CreatableEvent)
  (traceId spanId : string) :
  buildEvent core inp message options = Returned event ->
  lookup "traceparent"
         (match teo_context options with Some c => c | None => [] end)
  = Some (traceparentOf traceId spanId) ->
  dashFree traceId = true -> dashFree spanId = true ->
  ev_traceId event = traceId /\ ev_parentId event = Some spanId.
Proof.
  unfold buildEvent, extractContextFromCarrier. intros H Hl Ht Hs.
  rewrite Hl, parseTraceparent_traceparentOf, Ht, Hs in H.
  destruct (ta_runId (teo_attributes options)) as [runId|]; [|discriminate].
  destruct (String.eqb runId ""); [discriminate|].
  injection H as <-. split; reflexivity.
Qed.

(** X22. A recorded event joins the trace it is given. When the context of
    the options carries a [traceparent] that parses, the event has the
    trace id of the header and the span of the header as its parent - in
    particular with the context [traceEvent] hands to its callback, for
    ids without a dash; without a context, or with a header that does not
    parse, it starts a trace of its own under a random id and has no
    parent. The trace state of the context is carried over as it is. *)
Theorem recorded_event_joins_the_propagated_trace :
  forall (core : Imports) (inp : Ambient) (message : string)
    (options : TraceEventOptions) (event : CreatableEvent),
    buildEvent core inp message options = Returned event ->
    let carrier :=
      match teo_context options with Some c => c | None => [] end in
    ev_tracestate event = lookup "tracestate" carrier
    /\ match parseTraceparent (lookup "traceparent" carrier) with
       | Some (traceId, spanId) =>
           ev_traceId event = traceId /\ ev_parentId event = Some spanId
       | None =>
           ev_traceId event = randomTraceId inp /\ ev_parentId event = None
       end
    /\ (forall traceId spanId,
          lookup "traceparent" carrier
          = Some (traceparentOf traceId spanId) ->
          dashFree traceId = true -> dashFree spanId = true ->
          ev_traceId event = traceId /\ ev_parentId event = Some spanId).
Proof.
  intros core inp message options event H. cbv zeta.
  split; [|split].
  - revert H. unfold buildEvent, extractContextFromCarrier.
    destruct (ta_runId (teo_attributes options)) as [runId|];
      [|discriminate].
    destruct (String.eqb runId ""); [discriminate|].
    now intros [= <-].
  - revert H. unfold buildEvent, extractContextFromCarrier.
    destruct (ta_runId (teo_attributes options)) as [runId|];
      [|discriminate].
    destruct (String.eqb runId ""); [discriminate|].
    intros [= <-]. simpl.
    destruct (parseTraceparent _) as [[traceId spanId]|]; split; reflexivity.
  - intros traceId spanId. now apply buildEvent_joins with core inp message.
Qed.

(** ** Deterministic span ids *)

Lemma length_append (s t : string) :
  String.length (s ++ t) = (String.length s + String.length t)%nat.
Proof. induction s as [|c s IH]; simpl; [reflexivity|now rewrite IH]. Qed.

Lemma isLowerHex_app (s t : string) :
  isLowerHex (s ++ t) = isLowerHex s && isLowerHex t.
Proof.
  induction s as [|c s IH]; simpl; [reflexivity|].
  now rewrite IH, andb_assoc.
Qed.

Lemma dashFree_isLowerHex (s : string) :
  isLowerHex s = true -> dashFree s = true.
Proof.
  induction s as [|c s IH]; simpl; [reflexivity|].
  intros H. apply andb_true_iff in H. destruct H as [Hc Hs].
  rewrite (IH Hs), andb_true_r.
  destruct (Ascii.eqb_spec c "-") as [->|_]; [discriminate Hc|reflexivity].
Qed.

Lemma hexDigit_hex (n : Z) :
  String.length (hexDigit n) = 1%nat /\ isLowerHex (hexDigit n) = true.
Proof.
  unfold hexDigit.
  destruct n as [|p|p]; [split; reflexivity| |split; reflexivity].
  do 4 (destruct p as [p|p|]; try (split; reflexivity)).
Qed.

Lemma hexByte_hex (val : Z) :
  String.length (hexByte val) = 2%nat /\ isLowerHex (hexByte val) = true.
Proof.
  unfold hexByte.
  destruct (hexDigit_hex (val / 16)) as [L1 H1].
  destruct (hexDigit_hex (val mod 16)) as [L2 H2].
  now rewrite length_append, isLowerHex_app, L1, L2, H1, H2.
Qed.

Lemma hexDigit_injective (m n : Z) :
  0 <= m < 16 -> 0 <= n < 16 -> hexDigit m = hexDigit n -> m = n.
Proof.
  set (value := fun s : string =>
         match s with
         | "0" => 0 | "1" => 1 | "2" => 2 | "3" => 3 | "4" => 4 | "5" => 5
         | "6" => 6 | "7" => 7 | "8" => 8 | "9" => 9 | "a" => 10
         | "b" => 11 | "c" => 12 | "d" => 13 | "e" => 14 | _ => 15
         end).
  assert (D : forall k, 0 <= k < 16 -> value (hexDigit k) = k).
  { intros k Hk.
    assert (Ek : k = 0 \/ k = 1 \/ k = 2 \/ k = 3 \/ k = 4 \/ k = 5
                 \/ k = 6 \/ k = 7 \/ k = 8 \/ k = 9 \/ k = 10
                 \/ k = 11 \/ k = 12 \/ k = 13 \/ k = 14 \/ k = 15)
      by lia.
    repeat (destruct Ek as [->|Ek]; [reflexivity|]). subst k. reflexivity. }
  intros Hm Hn E. rewrite <- (D m Hm), <- (D n Hn), E. reflexivity.
Qed.

Lemma append_inj_length (s1 t1 s2 t2 : string) :
  String.length s1 = String.length s2 -> s1 ++ t1 = s2 ++ t2 ->
  s1 = s2 /\ t1 = t2.
Proof.
  revert s2. induction s1 as [|c s1 IH]; intros [|c2 s2]; simpl;
    try discriminate.
  - now split.
  - intros [= L] [= -> E]. destruct (IH s2 L E) as [-> ->]. now split.
Qed.

Lemma append_inj_length_r (s1 t1 s2 t2 : string) :
  String.length t1 = String.length t2 -> s1 ++ t1 = s2 ++ t2 ->
  s1 = s2 /\ t1 = t2.
Proof.
  intros L E. apply append_inj_length; [|exact E].
  apply (f_equal String.length) in E. rewrite !length_append in E. lia.
Qed.

Lemma hexByte_injective (a b : Z) :
  0 <= a < 256 -> 0 <= b < 256 -> hexByte a = hexByte b -> a = b.
Proof.
  intros Ha Hb E. unfold hexByte in E.
  apply append_inj_length in E.
  - destruct E as [E1 E2].
    apply hexDigit_injective in E1;
      [|split; [apply Z.div_pos; lia|apply Z.div_lt_upper_bound; lia]
       |split; [apply Z.div_pos; lia|apply Z.div_lt_upper_bound; lia]].
    apply hexDigit_injective in E2;
      [|apply Z.mod_pos_bound; lia|apply Z.mod_pos_bound; lia].
    rewrite (Z.div_mod a 16), (Z.div_mod b 16) by lia. congruence.
  - destruct (hexDigit_hex (a / 16)) as [-> _].
    destruct (hexDigit_hex (b / 16)) as [-> _]. reflexivity.
Qed.

Lemma fold_append_hex (f : nat -> string) (l : list nat) (acc : string) :
  (forall i, String.length (f i) = 2%nat /\ isLowerHex (f i) = true) ->
  String.length (fold_left (fun h i => h ++ f i) l acc)
  = (String.length acc + 2 * List.length l)%nat
  /\ isLowerHex (fold_left (fun h i => h ++ f i) l acc) = isLowerHex acc.
Proof.
  intros Hf. revert acc. induction l as [|i l IH]; intros acc; simpl.
  - split; [lia|reflexivity].
  - destruct (IH (acc ++ f i)) as [-> ->]. destruct (Hf i) as [L X].
    rewrite length_append, isLowerHex_app, L, X, andb_true_r.
    split; [lia|reflexivity].
Qed.

Lemma fold_append_inj (f g : nat -> string) (l : list nat)
  (acc acc' : string) :
  (forall i, String.length (f i) = String.length (g i)) ->
  fold_left (fun h i => h ++ f i) l acc
  = fold_left (fun h i => h ++ g i) l acc' ->
  acc = acc' /\ forall i, In i l -> f i = g i.
Proof.
  intros Hlen. revert acc acc'.
  induction l as [|i l IH]; intros acc acc'; simpl.
  - intros ->. split; [reflexivity|intros i []].
  - intros E. destruct (IH _ _ E) as [E1 E2].
    apply append_inj_length_r in E1; [|apply Hlen].
    destruct E1 as [-> E1]. split; [reflexivity|].
    intros j [<-|Hj]; [exact E1|now apply E2].
Qed.

Lemma generateDeterministicSpanId_hex (core : Imports)
  (traceId seed : string) :
  String.length (generateDeterministicSpanId core traceId seed) = 16%nat
  /\ isLowerHex (generateDeterministicSpanId core traceId seed) = true.
Proof.
  exact (fold_append_hex
           (fun i => hexByte (nth i (sha1 core (traceId ++ seed)) 0))
           (seq 0 8) "" (fun i => hexByte_hex _)).
Qed.

(** X23. A deterministic span id is 16 lowercase hexadecimal characters -
    so it has no dash, and the trace context built with it parses - and it
    shows the first 8 bytes of the digest: two digests give the same span
    id only if they agree on these bytes. *)
Theorem deterministic_span_id_is_16_hex_characters :
  forall (core : Imports) (traceId seed : string),
    let spanId := generateDeterministicSpanId core traceId seed in
    String.length spanId = 16%nat
    /\ isLowerHex spanId = true
    /\ dashFree spanId = true
    /\ (dashFree traceId = true ->
        parseTraceparent (Some (traceparentOf traceId spanId))
        = Some (traceId, spanId))
    /\ (forall traceId' seed',
          (forall i, (i < 8)%nat ->
                     0 <= nth i (sha1 core (traceId ++ seed)) 0 < 256
                     /\ 0 <= nth i (sha1 core (traceId' ++ seed')) 0 < 256) ->
          generateDeterministicSpanId core traceId' seed' = spanId ->
          forall i, (i < 8)%nat ->
                    nth i (sha1 core (traceId' ++ seed')) 0
                    = nth i (sha1 core (traceId ++ seed)) 0).
Proof.
  intros core traceId seed. cbv zeta.
  destruct (generateDeterministicSpanId_hex core traceId seed) as [HL HX].
  split; [exact HL|]. split; [exact HX|].
  pose proof (dashFree_isLowerHex _ HX) as Hd. split; [exact Hd|].
  split; [intros Ht; now rewrite parseTraceparent_traceparentOf, Ht, Hd|].
  intros traceId' seed' Hbytes E i Hi.
  unfold generateDeterministicSpanId in E. cbv zeta in E.
  apply (fold_append_inj
           (fun i => hexByte (nth i (sha1 core (traceId' ++ seed')) 0))
           (fun i => hexByte (nth i (sha1 core (traceId ++ seed)) 0)))
    in E.
  - destruct E as [_ E]. destruct (Hbytes i Hi) as [H1 H2].
    apply hexByte_injective; try assumption.
    apply E. apply in_seq. lia.
  - intros j. destruct (hexByte_hex (nth j (sha1 core (traceId' ++ seed')) 0))
      as [-> _].
    now destruct (hexByte_hex (nth j (sha1 core (traceId ++ seed)) 0))
      as [-> _].
Qed.

(** ** Attribute prefixes *)

Lemma prefix_app (p s : string) : String.prefix p (p ++ s) = true.
Proof.
  induction p as [|c p IH]; simpl; [now destruct s|].
  destruct (ascii_dec c c) as [_|N]; [exact IH|now contradiction N].
Qed.

Lemma substring_all (s : string) :
  substring 0 (String.length s) s = s.
Proof. induction s as [|c s IH]; simpl; [reflexivity|now rewrite IH]. Qed.

Lemma substring_more (n : nat) (s : string) :
  substring 0 (n + String.length s) s = s.
Proof.
  induction s as [|c s IH]; simpl.
  - now destruct (n + 0)%nat.
  - rewrite Nat.add_succ_r. simpl. now rewrite IH.
Qed.

Lemma substring_skip (p s : string) (n : nat) :
  substring (String.length p) n (p ++ s) = substring 0 n s.
Proof. induction p as [|c p IH]; simpl; [reflexivity|exact IH]. Qed.

(** [key.slice(prefix.length + 1)] on a key made of the prefix, one
    character and a name. *)
Lemma slice_prefixed (p : string) (sep : ascii) (name : string) :
  substring (String.length p + 1)
            (String.length (p ++ String sep name)) (p ++ String sep name)
  = name.
Proof.
  rewrite length_append. simpl String.length.
  replace (String.length p + 1)%nat with (String.length (p ++ String sep ""))
    by (rewrite length_append; reflexivity).
  replace (p ++ String sep name) with ((p ++ String sep "") ++ name)
    by (induction p as [|c p IH]; simpl; [reflexivity|now rewrite IH]).
  rewrite substring_skip.
  replace (String.length p + S (String.length name))%nat
    with ((String.length p + 1) + String.length name)%nat by lia.
  apply substring_more.
Qed.

Lemma set_fresh {A : Type} (k : string) (v : A) (o : list (string * A)) :
  ~ In k (map fst o) -> set k v o = (o ++ [(k, v)])%list.
Proof.
  induction o as [|[k' v'] o IH]; simpl; [reflexivity|].
  intros H. destruct (String.eqb_spec k k') as [->|_].
  - exfalso. apply H. now left.
  - rewrite IH; [reflexivity|]. intros Hin. apply H. now right.
Qed.

(** Writing distinct keys into an object appends them in order. *)
Lemma fold_set_distinct {A : Type} (key : string -> string)
  (o acc : list (string * A)) :
  NoDup (map fst acc ++ map (fun kv => key (fst kv)) o) ->
  fold_left (fun result kv => set (key (fst kv)) (snd kv) result) o acc
  = (acc ++ map (fun kv => (key (fst kv), snd kv)) o)%list.
Proof.
  revert acc. induction o as [|[k v] o IH]; intros acc H; simpl.
  - now rewrite app_nil_r.
  - simpl in H. rewrite set_fresh.
    + rewrite IH; [now rewrite <- app_assoc|].
      rewrite map_app. simpl. rewrite <- app_assoc. exact H.
    + apply NoDup_remove_2 in H. intros Hin. apply H.
      apply in_or_app. now left.
Qed.

(** The entries of the result in the order in which the loop inserts them:
    for an object with distinct keys, listed in the order of its list,
    prefixing every key and stripping the prefix inserts the entries of the
    object in their order; and so does stripping from an object none of
    whose keys starts with the prefix. *)
Lemma stripAttributePrefix_inserts :
  forall (prefix : string) (sep : ascii) (o : Attributes),
    NoDup (map fst o) ->
    stripAttributePrefix
      (map (fun kv => (prefix ++ String sep (fst kv), snd kv)) o) prefix
    = o
    /\ ((forall k, In k (map fst o) -> String.prefix prefix k = false) ->
        stripAttributePrefix o prefix = o).
Proof.
  intros prefix sep o Hnd. unfold stripAttributePrefix. split.
  - transitivity
      (fold_left
         (fun result kv =>
            set ((fun k => substring (String.length prefix + 1)
                                     (String.length k) k) (fst kv))
                (snd kv) result)
         (map (fun kv => (prefix ++ String sep (fst kv), snd kv)) o)
         ([] : Attributes)).
    + assert (G : forall (l : Attributes) acc,
                 (forall kv, In kv l -> String.prefix prefix (fst kv) = true) ->
                 fold_left
                   (fun result kv =>
                      if String.prefix prefix (fst kv)
                      then set (substring (String.length prefix + 1)
                                  (String.length (fst kv)) (fst kv))
                               (snd kv) result
                      else set (fst kv) (snd kv) result) l acc
                 = fold_left
                     (fun result kv =>
                        set (substring (String.length prefix + 1)
                               (String.length (fst kv)) (fst kv))
                            (snd kv) result) l acc).
      { induction l as [|kv l IH]; intros acc Hp; simpl; [reflexivity|].
        rewrite (Hp kv) by now left. apply IH. intros x Hx. apply Hp.
        now right. }
      apply G. intros kv Hin. apply in_map_iff in Hin.
      destruct Hin as (x & <- & _). simpl. apply prefix_app.
    + etransitivity;
        [apply (fold_set_distinct
                  (fun k => substring (String.length prefix + 1)
                                      (String.length k) k))|].
      * simpl. rewrite map_map. simpl.
        erewrite map_ext; [exact Hnd|].
        intros [k v]. simpl. now rewrite slice_prefixed.
      * simpl. rewrite map_map. simpl.
        erewrite map_ext; [apply map_id|].
        intros [k v]. simpl. now rewrite slice_prefixed.
  - intros Hno.
    transitivity
      (fold_left (fun result kv => set ((fun k => k) (fst kv)) (snd kv) result)
                 o ([] : Attributes)).
    + assert (G : forall (l : Attributes) acc,
                 (forall kv, In kv l ->
                             String.prefix prefix (fst kv) = false) ->
                 fold_left
                   (fun result kv =>
                      if String.prefix prefix (fst kv)
                      then set (substring (String.length prefix + 1)
                                  (String.length (fst kv)) (fst kv))
                               (snd kv) result
                      else set (fst kv) (snd kv) result) l acc
                 = fold_left
                     (fun result kv => set (fst kv) (snd kv) result) l acc).
      { induction l as [|kv l IH]; intros acc Hp; simpl; [reflexivity|].
        rewrite (Hp kv) by now left. apply IH. intros x Hx. apply Hp.
        now right. }
      apply G. intros kv Hin. apply Hno. now apply in_map.
    + etransitivity; [apply (fold_set_distinct (fun k => k))|].
      * simpl. erewrite map_ext; [exact Hnd|]. now intros [k v].
      * simpl. erewrite map_ext; [apply map_id|]. now intros [k v].
Qed.

(** X24. Stripping undoes prefixing. For an object with distinct keys,
    none of them [__proto__] (an assignment to it makes no property),
    prefixing every key with the prefix and one separator character and
    stripping the prefix again gives an object with the same entries; and
    it lists them in the same order when no key - prefixed or not - is
    made of digits. An object none of whose keys starts with the prefix
    comes back with the same entries, and in the same order when no key is
    made of digits. *)
Theorem stripAttributePrefix_undoes_prefixing :
  forall (prefix : string) (sep : ascii) (o : Attributes),
    NoDup (map fst o) ->
    ~ In "__proto__" (map fst o) ->
    let prefixed :=
      map (fun kv => (prefix ++ String sep (fst kv), snd kv)) o in
    Permutation (stripAttributePrefix prefixed prefix) o
    /\ (listedAsInserted prefixed -> listedAsInserted o ->
        stripAttributePrefix prefixed prefix = o)
    /\ ((forall k, In k (map fst o) -> String.prefix prefix k = false) ->
        Permutation (stripAttributePrefix o prefix) o
        /\ (listedAsInserted o -> stripAttributePrefix o prefix = o)).
Proof.
  intros prefix sep o Hnd _. cbv zeta.
  destruct (stripAttributePrefix_inserts prefix sep o Hnd) as [H1 H2].
  split; [now rewrite H1|]. split; [intros _ _; exact H1|].
  intros Hno. rewrite (H2 Hno). split; [apply Permutation_refl|].
  intros _. reflexivity.
Qed.

(** ** Flushing a batch *)

Lemma filter_none {A : Type} (f : A -> bool) (l : list A) :
  (forall x, In x l -> f x = false) -> filter f l = [].
Proof.
  induction l as [|x l IH]; simpl; intros H; [reflexivity|].
  rewrite (H x) by now left. apply IH. intros y Hy. apply H. now right.
Qed.

Lemma existsb_spanId (batch : list CreatableEvent) (e : CreatableEvent) :
  existsb (fun f => String.eqb (ev_spanId f) (ev_spanId e))
          (filter (fun x => negb (ev_isPartial x)) batch) = true
  <-> hasFullEvent batch e.
Proof.
  unfold hasFullEvent. rewrite existsb_exists. split.
  - intros (f & Hin & Heq). apply filter_In in Hin. destruct Hin as [Hin Hp].
    exists f. repeat split; [exact Hin| |now apply String.eqb_eq].
    now destruct (ev_isPartial f).
  - intros (f & Hin & Hp & Heq). exists f. split.
    + apply filter_In. split; [exact Hin|now rewrite Hp].
    + now apply String.eqb_eq.
Qed.

(** X25. What a flush stores. Of a batch, every full event is kept, and a
    partial event is kept exactly when the batch holds no full event with
    its span id; the full events come first, in their order, then the
    partial ones in theirs. Filtering twice changes nothing more, and a
    batch without partial events is stored as it is. *)
Theorem flushed_batch_drops_superseded_partial_events :
  forall batch : list CreatableEvent,
    let stored := excludePartialEventsWithCorrespondingFullEvent batch in
    (forall e,
       In e stored
       <-> In e batch
           /\ (ev_isPartial e = true -> ~ hasFullEvent batch e))
    /\ filter (fun e => negb (ev_isPartial e)) stored
       = filter (fun e => negb (ev_isPartial e)) batch
    /\ (exists kept,
          stored = (filter (fun e => negb (ev_isPartial e)) batch ++ kept)%list
          /\ forall e, In e kept -> ev_isPartial e = true)
    /\ excludePartialEventsWithCorrespondingFullEvent stored = stored
    /\ ((forall e, In e batch -> ev_isPartial e = false) -> stored = batch).
Proof.
  intros batch. cbv zeta.
  unfold excludePartialEventsWithCorrespondingFullEvent.
  set (full := filter (fun e => negb (ev_isPartial e)) batch).
  set (keep := fun p : CreatableEvent =>
                 negb (existsb (fun f => String.eqb (ev_spanId f)
                                           (ev_spanId p)) full)).
  set (kept := filter keep (filter (fun e => ev_isPartial e) batch)).
  assert (Hkept : forall e, In e kept -> ev_isPartial e = true).
  { intros e He. unfold kept in He. apply filter_In in He.
    destruct He as [He _]. apply filter_In in He. tauto. }
  assert (Hfull : forall e, In e full -> ev_isPartial e = false).
  { intros e He. unfold full in He. apply filter_In in He.
    destruct He as [_ He]. now destruct (ev_isPartial e). }
  assert (Hf1 : filter (fun e => negb (ev_isPartial e)) full = full).
  { apply forallb_filter_id. apply forallb_forall. intros e He.
    now rewrite (Hfull e He). }
  assert (Hf2 : filter (fun e => negb (ev_isPartial e)) kept = []).
  { apply filter_none. intros e He. now rewrite (Hkept e He). }
  assert (Hp1 : filter (fun e => ev_isPartial e) full = []).
  { apply filter_none. intros e He. now rewrite (Hfull e He). }
  assert (Hp2 : filter (fun e => ev_isPartial e) kept = kept).
  { apply forallb_filter_id. apply forallb_forall. intros e He.
    now rewrite (Hkept e He). }
  split; [|split; [|split; [|split]]].
  - intros e. rewrite in_app_iff. split.
    + intros [H|H].
      * pose proof (Hfull e H) as Hp. unfold full in H.
        apply filter_In in H. destruct H as [H _].
        split; [exact H|]. intros Ht. congruence.
      * unfold kept in H. apply filter_In in H. destruct H as [H Hk].
        apply filter_In in H. destruct H as [H _].
        split; [exact H|]. intros _ Hfe.
        apply (existsb_spanId batch e) in Hfe.
        unfold keep, full in Hk. rewrite Hfe in Hk. discriminate.
    + intros [Hin Hcond]. destruct (ev_isPartial e) eqn:Hp.
      * right. unfold kept. apply filter_In. split.
        -- apply filter_In. now split.
        -- unfold keep, full. apply negb_true_iff, not_true_iff_false.
           intros Hfe. apply (existsb_spanId batch e) in Hfe.
           now apply Hcond.
      * left. unfold full. apply filter_In. split; [exact Hin|].
        now rewrite Hp.
  - rewrite filter_app, Hf1, Hf2. apply app_nil_r.
  - exists kept. split; [reflexivity|exact Hkept].
  - rewrite !filter_app, Hf1, Hf2, Hp1, Hp2, app_nil_r. simpl.
    f_equal. unfold kept at 2. fold full.
    apply forallb_filter_id. apply forallb_forall. intros e He.
    unfold kept in He. apply filter_In in He. tauto.
  - intros Hall.
    assert (E1 : full = batch).
    { apply forallb_filter_id. apply forallb_forall. intros e He.
      now rewrite (Hall e He). }
    assert (E2 : kept = []).
    { unfold kept.
      replace (filter (fun e => ev_isPartial e) batch) with
        ([] : list CreatableEvent); [reflexivity|].
      symmetry. apply filter_none. intros e He. now apply Hall. }
    rewrite E1, E2. apply app_nil_r.
Qed.

(** ** Traced events *)

(** X26. Events recorded inside [traceEvent] are children of its span. When
    the callback records an event with the trace context it is handed, and
    [traceEvent] returns, the batch has gained the event of the callback
    and then the event of [traceEvent]; the two have the same trace id, and
    the parent of the first is the span of the second. The random ids are
    taken to have no dash. *)
Theorem events_recorded_in_the_callback_are_children :
  forall (core : Imports) (STYLE_VARIANT PRIMARY_VARIANT : string)
    (inp inner : Ambient) (duration : Z) (message childMessage : string)
    (options childOptions : TraceEventOptions) (w w' : World)
    (child : CreatableEvent),
    dashFree (randomTraceId inp) = true ->
    dashFree (randomSpanId inp) = true ->
    traceEvent core STYLE_VARIANT PRIMARY_VARIANT inp duration message options
      (fun traceId spanId traceContext =>
         event <- recordEvent core inner childMessage
                    (with_context traceContext childOptions) ;;
         ret ([], event))
      w
    = (Returned child, w') ->
    exists parent,
      events w' = (events w ++ [child; parent])%list
      /\ ev_traceId child = ev_traceId parent
      /\ ev_parentId child = Some (ev_spanId parent)
      /\ ev_message parent = message
      /\ ev_duration parent = duration
      /\ ev_startTime parent = now inp.
Proof.
  intros core STYLE_VARIANT PRIMARY_VARIANT inp inner duration message
    childMessage options childOptions w w' child Hrt Hrs.
  unfold traceEvent, bind, ret, throw, recordEvent. cbv zeta.
  set (traceId :=
         match fst (extractContextFromCarrier
                      match teo_context options with
                      | Some c => c
                      | None => []
                      end) with
         | Some (traceId, _) => traceId
         | None => randomTraceId inp
         end).
  set (spanId :=
         match teo_spanIdSeed options with
         | Some seed =>
             if String.eqb seed "" then randomSpanId inp
             else generateDeterministicSpanId core traceId seed
         | None => randomSpanId inp
         end).
  assert (Ht : dashFree traceId = true).
  { unfold traceId, extractContextFromCarrier. simpl.
    destruct (parseTraceparent _) as [[t s]|] eqn:Ep; [|exact Hrt].
    apply parseTraceparent_parts in Ep. destruct Ep as (f & _ & H & _).
    exact H. }
  assert (Hs : dashFree spanId = true).
  { unfold spanId. destruct (teo_spanIdSeed options) as [seed|]; [|exact Hrs].
    destruct (String.eqb seed ""); [exact Hrs|].
    apply dashFree_isLowerHex, generateDeterministicSpanId_hex. }
  destruct (buildEvent core inner childMessage
              (with_context [("traceparent", traceparentOf traceId spanId)]
                            childOptions)) as [event|e] eqn:Ec;
    [|discriminate].
  simpl.
  destruct (buildTracedEvent core STYLE_VARIANT PRIMARY_VARIANT inp duration
              message options (teo_attributes options) traceId spanId)
    as [parent|e] eqn:Ep; [|intros H; discriminate H].
  intros H. injection H as <- <-.
  exists parent. simpl. rewrite <- app_assoc. simpl.
  split; [reflexivity|].
  destruct (buildEvent_joins core inner childMessage _ event traceId spanId
              Ec eq_refl Ht Hs) as [E1 E2].
  revert Ep. unfold buildTracedEvent.
  destruct (ta_runId (teo_attributes options)) as [runId|]; [|discriminate].
  destruct (String.eqb runId ""); [discriminate|].
  intros [= <-]. simpl. now repeat split.
Qed.



(** ** Random ids *)

Lemma assign_firstn (n : nat) (value : Z) (array : CharCodes) :
  (n <= List.length array)%nat ->
  firstn (S n) (assign n value array) = (firstn n array ++ [Some value])%list.
Proof.
  revert array. induction n as [|n IH]; intros [|x array] H; simpl in *;
    try lia; try reflexivity.
  f_equal. apply IH. lia.
Qed.

Lemma assign_length (n : nat) (value : Z) (array : CharCodes) :
  (List.length array <= List.length (assign n value array))%nat.
Proof.
  revert array. induction n as [|n IH]; intros [|x array]; simpl; try lia.
  specialize (IH array). lia.
Qed.

Lemma filled_firstn (draw : nat -> Z) (n : nat) (shared : CharCodes) :
  firstn n (fold_left (fun array i => assign i (charCode (draw i)) array)
                      (seq 0 n) shared)
  = map (fun i => Some (charCode (draw i))) (seq 0 n).
Proof.
  induction n as [|n IH]; [reflexivity|].
  rewrite seq_S, fold_left_app, map_app. cbn [fold_left map Nat.add].
  rewrite assign_firstn.
  - now rewrite IH.
  - apply (f_equal (@List.length _)) in IH.
    rewrite length_map, length_seq in IH.
    match goal with
    | |- (n <= List.length ?l)%nat =>
        pose proof (firstn_le_length n l) as Hle;
        pose proof (length_firstn n l) as Hlen
    end.
    rewrite Hlen in IH. lia.
Qed.

Lemma fromCharCode_charCode (draw : Z) :
  0 <= draw < 16 ->
  fromCharCode [Some (charCode draw)] = hexDigit draw.
Proof.
  intros H.
  assert (E : draw = 0 \/ draw = 1 \/ draw = 2 \/ draw = 3 \/ draw = 4
              \/ draw = 5 \/ draw = 6 \/ draw = 7 \/ draw = 8 \/ draw = 9
              \/ draw = 10 \/ draw = 11 \/ draw = 12 \/ draw = 13
              \/ draw = 14 \/ draw = 15) by lia.
  repeat (destruct E as [->|E]; [reflexivity|]). subst draw. reflexivity.
Qed.

Lemma fromCharCode_app (a b : CharCodes) :
  fromCharCode (a ++ b)%list = fromCharCode a ++ fromCharCode b.
Proof.
  unfold fromCharCode. rewrite map_app.
  induction (map _ a) as [|c l IH]; simpl; [reflexivity|now rewrite IH].
Qed.

(** X30. A generated id is the hexadecimal writing of its draws. For draws
    from 0 to 15, [getIdGenerator(bytes)()] returns [2 * bytes] lowercase
    hexadecimal characters, the digit of each draw in order, whatever the
    shared array held before: nothing of an earlier id leaks into the
    next. *)
Theorem generated_id_is_the_hex_of_its_draws :
  forall (bytes : nat) (draw : nat -> Z) (shared : CharCodes),
    (forall i, (i < bytes * 2)%nat -> 0 <= draw i < 16) ->
    let id := fst (getIdGenerator bytes draw shared) in
    id = fold_right (fun i rest => hexDigit (draw i) ++ rest) ""
                    (seq 0 (bytes * 2))
    /\ String.length id = (bytes * 2)%nat
    /\ isLowerHex id = true
    /\ id = fst (getIdGenerator bytes draw []).
Proof.
  intros bytes draw shared Hdraw. cbv zeta.
  assert (H : forall shared0,
             fst (getIdGenerator bytes draw shared0)
             = fold_right (fun i rest => hexDigit (draw i) ++ rest) ""
                          (seq 0 (bytes * 2))).
  { intros shared0. unfold getIdGenerator. simpl fst.
    rewrite filled_firstn.
    assert (G : forall l,
               (forall i, In i l -> 0 <= draw i < 16) ->
               fromCharCode (map (fun i => Some (charCode (draw i))) l)
               = fold_right (fun i rest => hexDigit (draw i) ++ rest) "" l).
    { induction l as [|i l IH]; intros Hl; [reflexivity|].
      simpl map. change (Some (charCode (draw i)) :: ?x)
        with ([Some (charCode (draw i))] ++ x)%list.
      rewrite fromCharCode_app, fromCharCode_charCode by (apply Hl; now left).
      simpl. rewrite IH; [reflexivity|]. intros j Hj. apply Hl. now right. }
    apply G. intros i Hi. apply in_seq in Hi. apply Hdraw. lia. }
  rewrite !H. split; [reflexivity|].
  assert (G : forall l,
             String.length
               (fold_right (fun i rest => hexDigit (draw i) ++ rest) "" l)
             = List.length l
             /\ isLowerHex
                  (fold_right (fun i rest => hexDigit (draw i) ++ rest) "" l)
                = true).
  { induction l as [|i l [IH1 IH2]]; simpl; [split; reflexivity|].
    destruct (hexDigit_hex (draw i)) as [L X].
    rewrite length_append, isLowerHex_app, L, X, IH1, IH2.
    split; reflexivity. }
  destruct (G (seq 0 (bytes * 2))) as [G1 G2].
  rewrite length_seq in G1. now repeat split.
Qed.

(** ** More scenarios *)

Ltac reaches :=
  constructor; try (vm_compute; reflexivity);
  try (vm_compute; discriminate);
  try (let a := fresh in let Ha := fresh in
       intros a Ha; vm_compute in Ha; contradiction).

Lemma dispatch_locks_and_sends_witness :
  ReachesSend Cases.delivery Scenario.registered Scenario.execute
    Scenario.r1 Scenario.worker1 Cases.task1 Scenario.q1
  /\ rejects Cases.delivery SenderSend = None
  /\ exists w',
       doWorkInternal Cases.delivery Scenario.registered = (Returned tt, w')
       /\ timers w' = (timers Scenario.registered ++ [100])%list.
Proof.
  assert (Hreach : ReachesSend Cases.delivery Scenario.registered
                     Scenario.execute Scenario.r1 Scenario.worker1
                     Cases.task1 Scenario.q1) by reaches.
  split; [exact Hreach|]. split; [reflexivity|].
  destruct (dispatch_locks_and_sends _ _ _ _ _ _ _ Hreach
              (eq_refl : rejects Cases.delivery SenderSend = None))
    as (w' & locked & attempt & execution & Hrun & _ & _ & _ & _ & _ & _ & _
        & _ & _ & _ & _ & _ & _ & _ & _ & _ & _ & Ht & _).
  exists w'. split; [exact Hrun|exact Ht].
Defined.

Lemma missing_queue_nacks_and_leaves_the_run_locked_witness :
  ReachesLock Cases.delivery Cases.withoutQueue Scenario.execute Scenario.r1
    Scenario.worker1 Cases.task1
  /\ taskQueue_findUnique (prisma Cases.withoutQueue)
       (env_id (env (consumer Cases.withoutQueue)))
       (run_queue Scenario.r1) = None
  /\ exists w',
       doWorkInternal Cases.delivery Cases.withoutQueue = (Returned tt, w')
       /\ queue w'
          = (queue Cases.withoutQueue
             ++ [Nacked (msg_messageId Scenario.execute) None])%list.
Proof.
  assert (Hreach : ReachesLock Cases.delivery Cases.withoutQueue
                     Scenario.execute Scenario.r1 Scenario.worker1
                     Cases.task1) by reaches.
  assert (Hq : taskQueue_findUnique (prisma Cases.withoutQueue)
                 (env_id (env (consumer Cases.withoutQueue)))
                 (run_queue Scenario.r1) = None)
    by (vm_compute; reflexivity).
  split; [exact Hreach|]. split; [exact Hq|].
  destruct (missing_queue_nacks_and_leaves_the_run_locked _ _ _ _ _ _
              Hreach Hq) as (w' & Hrun & Hqueue & _).
  exists w'. split; [exact Hrun|exact Hqueue].
Defined.

Lemma stopped_iteration_nacks_and_schedules_nothing_witness :
  ReachesLock Cases.stopping Scenario.registered Scenario.execute Scenario.r1
    Scenario.worker1 Cases.task1
  /\ taskQueue_findUnique (prisma Scenario.registered)
       (env_id (env (consumer Scenario.registered)))
       (run_queue Scenario.r1) = Some Scenario.q1
  /\ (stopRequested Cases.stopping = true
      \/ _enabled (consumer Scenario.registered) = false)
  /\ exists w',
       doWorkInternal Cases.stopping Scenario.registered = (Returned tt, w')
       /\ timers w' = timers Scenario.registered.
Proof.
  assert (Hreach : ReachesLock Cases.stopping Scenario.registered
                     Scenario.execute Scenario.r1 Scenario.worker1
                     Cases.task1) by reaches.
  assert (Hq : taskQueue_findUnique (prisma Scenario.registered)
                 (env_id (env (consumer Scenario.registered)))
                 (run_queue Scenario.r1) = Some Scenario.q1)
    by (vm_compute; reflexivity).
  assert (Hstop : stopRequested Cases.stopping = true
                  \/ _enabled (consumer Scenario.registered) = false)
    by (left; reflexivity).
  split; [exact Hreach|]. split; [exact Hq|]. split; [exact Hstop|].
  destruct (stopped_iteration_nacks_and_schedules_nothing _ _ _ _ _ _ _
              Hreach Hq Hstop) as (w' & Hrun & _ & Ht & _).
  exists w'. split; [exact Hrun|exact Ht].
Defined.

Lemma idle_iteration_only_reschedules_witness :
  (marqs Scenario.registered = false
   \/ (rejects (Scenario.idle 2000) DequeueMessageInEnv = None
       /\ dequeued (Scenario.idle 2000) = None))
  /\ exists w',
       doWorkInternal (Scenario.idle 2000) Scenario.registered
       = (Returned tt, w')
       /\ timers w' = (timers Scenario.registered ++ [1000])%list.
Proof.
  assert (H : marqs Scenario.registered = false
              \/ (rejects (Scenario.idle 2000) DequeueMessageInEnv = None
                  /\ dequeued (Scenario.idle 2000) = None))
    by (right; split; reflexivity).
  split; [exact H|].
  destruct (idle_iteration_only_reschedules (Scenario.idle 2000)
              Scenario.registered H) as (w' & Hrun & Ht & _).
  exists w'. split; [exact Hrun|exact Ht].
Defined.

Lemma locks_stay_paired_witness :
  lockPaired (prisma Scenario.fresh)
  /\ lockPaired
       (prisma (performAll Scenario.imports Scenario.life Scenario.fresh)).
Proof.
  assert (H : lockPaired (prisma Scenario.fresh)).
  { intros r [<-|[]]. split; reflexivity. }
  split; [exact H|].
  exact (locks_stay_paired Scenario.imports Scenario.life Scenario.fresh H).
Defined.

Lemma spans_are_never_nested_witness :
  tracer Scenario.fresh = []
  /\ _currentSpan (consumer Scenario.fresh) = None
  /\ wellBracketed
       (tracer (performAll Scenario.imports Scenario.life Scenario.fresh)) [].
Proof.
  split; [reflexivity|]. split; [reflexivity|].
  exact (proj1 (spans_are_never_nested Scenario.imports Scenario.life
                  Scenario.fresh eq_refl eq_refl)).
Defined.

Lemma completion_without_retry_acknowledges_witness :
  marqs Scenario.dispatched = true
  /\ retryOf Cases.succeeded = None
  /\ exists attempt,
       attemptByFriendlyId (prisma Scenario.dispatched)
         (attemptOf Cases.succeeded) = Some attempt.
Proof.
  assert (Hm : marqs Scenario.dispatched = true) by (vm_compute; reflexivity).
  split; [exact Hm|]. split; [reflexivity|].
  destruct (completion_without_retry_acknowledges Scenario.imports
              (Scenario.completing 3000) "worker_one" Cases.succeeded
              Scenario.execution1 Scenario.dispatched
              (snd (taskRunCompleted Scenario.imports
                      (Scenario.completing 3000) "worker_one"
                      Cases.succeeded Scenario.execution1
                      Scenario.dispatched))
              Hm eq_refl ltac:(vm_compute; reflexivity))
    as (attempt & Hfind & _).
  exists attempt. exact Hfind.
Defined.

Lemma heartbeat_of_a_dispatched_attempt_witness :
  ReachesSend Cases.delivery Scenario.registered Scenario.execute
    Scenario.r1 Scenario.worker1 Cases.task1 Scenario.q1
  /\ rejects Cases.delivery SenderSend = None
  /\ (forall a, In a (taskRunAttempt (prisma Scenario.registered)) ->
                att_friendlyId a <> freshFriendlyId Cases.delivery)
  /\ rejects (Scenario.completing 2500) TaskRunAttemptFindUnique = None
  /\ rejects (Scenario.completing 2500) HeartbeatMessage = None
  /\ exists w', doWorkInternal Cases.delivery Scenario.registered
                = (Returned tt, w').
Proof.
  assert (Hreach : ReachesSend Cases.delivery Scenario.registered
                     Scenario.execute Scenario.r1 Scenario.worker1
                     Cases.task1 Scenario.q1) by reaches.
  assert (Hfr : forall a, In a (taskRunAttempt (prisma Scenario.registered)) ->
                          att_friendlyId a <> freshFriendlyId Cases.delivery)
    by (intros a Ha; vm_compute in Ha; contradiction).
  split; [exact Hreach|]. split; [reflexivity|]. split; [exact Hfr|].
  split; [reflexivity|]. split; [reflexivity|].
  destruct (heartbeat_of_a_dispatched_attempt Cases.delivery
              (Scenario.completing 2500) Scenario.registered Scenario.execute
              Scenario.r1 Scenario.worker1 Cases.task1 Scenario.q1
              "worker_one" Hreach eq_refl Hfr eq_refl eq_refl)
    as (w' & execution & Hrun & _).
  exists w'. exact Hrun.
Defined.

Lemma completion_of_a_dispatched_attempt_witness :
  ReachesSend Cases.delivery Scenario.registered Scenario.execute
    Scenario.r1 Scenario.worker1 Cases.task1 Scenario.q1
  /\ rejects Cases.delivery SenderSend = None
  /\ (forall a, In a (taskRunAttempt (prisma Scenario.registered)) ->
                att_friendlyId a <> freshFriendlyId Cases.delivery)
  /\ backgroundWorkerTask_findUnique (prisma Scenario.registered)
       (task_id Cases.task1) = Some Cases.task1
  /\ rejects (Scenario.completing 3000) TaskRunAttemptUpdate = None
  /\ rejects (Scenario.completing 3000) AcknowledgeMessage = None
  /\ exists w', doWorkInternal Cases.delivery Scenario.registered
                = (Returned tt, w').
Proof.
  assert (Hreach : ReachesSend Cases.delivery Scenario.registered
                     Scenario.execute Scenario.r1 Scenario.worker1
                     Cases.task1 Scenario.q1) by reaches.
  assert (Hfr : forall a, In a (taskRunAttempt (prisma Scenario.registered)) ->
                          att_friendlyId a <> freshFriendlyId Cases.delivery)
    by (intros a Ha; vm_compute in Ha; contradiction).
  assert (Hstored : backgroundWorkerTask_findUnique
                      (prisma Scenario.registered) (task_id Cases.task1)
                    = Some Cases.task1) by (vm_compute; reflexivity).
  split; [exact Hreach|]. split; [reflexivity|]. split; [exact Hfr|].
  split; [exact Hstored|]. split; [reflexivity|]. split; [reflexivity|].
  destruct (completion_of_a_dispatched_attempt Scenario.imports
              Cases.delivery (Scenario.completing 3000) Scenario.registered
              Scenario.execute Scenario.r1 Scenario.worker1 Cases.task1
              Cases.task1 Scenario.q1 "worker_one" (Some "{}")
              "application/json" Hreach eq_refl Hfr Hstored eq_refl eq_refl)
    as (w' & execution & w'' & Hrun & _).
  exists w'. exact Hrun.
Defined.

Lemma registry_holds_only_workers_of_the_environment_witness :
  _backgroundWorkers (consumer Scenario.fresh) = []
  /\ registryOfEnvironment
       (performAll Scenario.imports Scenario.life Scenario.fresh).
Proof.
  split; [reflexivity|].
  exact (proj1 (registry_holds_only_workers_of_the_environment
                  Scenario.imports Scenario.life Scenario.fresh eq_refl)).
Defined.

Lemma registration_round_trip_witness :
  rejects (Scenario.idle 1000) BackgroundWorkerFindUnique = None
  /\ match backgroundWorker_findUnique (prisma Scenario.fresh) "worker_one"
             (env_id (env (consumer Scenario.fresh))) with
     | Some found =>
         bw_friendlyId found = "worker_one"
         /\ lookup (bw_id found)
              (_backgroundWorkers
                 (consumer (snd (registerBackgroundWorker (Scenario.idle 1000)
                                   "worker_one" Scenario.fresh))))
            = Some found
     | None => False
     end.
Proof.
  split; [reflexivity|].
  pose proof (registration_round_trip (Scenario.idle 1000) "worker_one"
                Scenario.fresh eq_refl) as H.
  cbv zeta in H.
  destruct (backgroundWorker_findUnique (prisma Scenario.fresh) "worker_one"
              (env_id (env (consumer Scenario.fresh)))) as [found|] eqn:E.
  - destruct H as (H1 & H2 & _). split; [exact H1|exact H2].
  - vm_compute in E. discriminate E.
Defined.

Lemma one_loop_unless_stopped_witness :
  timers Scenario.fresh = []
  /\ _enabled (consumer Scenario.fresh) = false
  /\ neverStopped Scenario.life
  /\ (List.length
        (timers (performAll Scenario.imports Scenario.life Scenario.fresh))
      <= 1)%nat.
Proof.
  assert (H : neverStopped Scenario.life).
  { intros op Hin. simpl in Hin.
    repeat (destruct Hin as [<-|Hin];
            [eexists; split; reflexivity|]).
    contradiction. }
  split; [reflexivity|]. split; [reflexivity|]. split; [exact H|].
  exact (proj1 (one_loop_unless_stopped Scenario.imports Scenario.life
                  Scenario.fresh eq_refl eq_refl H)).
Defined.

Lemma restart_keeps_the_pending_timers_witness :
  rejects (Scenario.idle 1500) BackgroundWorkerFindUnique = None
  /\ backgroundWorker_findUnique (prisma Scenario.registered) "worker_two"
       (env_id (env (consumer Scenario.registered)))
     = Some Scenario.worker2
  /\ stopRequested (Scenario.idle 1500) = false
  /\ (marqs Scenario.registered = false
      \/ (rejects (Scenario.idle 1500) DequeueMessageInEnv = None
          /\ dequeued (Scenario.idle 1500) = None))
  /\ timers (snd (registerBackgroundWorker (Scenario.idle 1500) "worker_two"
                    (snd (stop Scenario.registered))))
     = (timers Scenario.registered ++ [1000])%list.
Proof.
  assert (Hf : backgroundWorker_findUnique (prisma Scenario.registered)
                 "worker_two" (env_id (env (consumer Scenario.registered)))
               = Some Scenario.worker2) by (vm_compute; reflexivity).
  assert (Hi : marqs Scenario.registered = false
               \/ (rejects (Scenario.idle 1500) DequeueMessageInEnv = None
                   /\ dequeued (Scenario.idle 1500) = None))
    by (right; split; reflexivity).
  split; [reflexivity|]. split; [exact Hf|]. split; [reflexivity|].
  split; [exact Hi|].
  exact (proj1 (proj2 (restart_keeps_the_pending_timers (Scenario.idle 1500)
                         "worker_two" Scenario.registered Scenario.worker2
                         eq_refl Hf eq_refl Hi))).
Defined.

Lemma countdown_stays_in_range_witness :
  1 <= maximumItemsPerTrace (_options (consumer Scenario.fresh))
  /\ _perTraceCountdown (consumer Scenario.fresh) = None
  /\ _enabled (consumer Scenario.fresh) = false
  /\ timers Scenario.fresh = []
  /\ neverStopped (handled Overlap.steady)
  /\ countdownInRange
       (maximumItemsPerTrace (_options (consumer Scenario.fresh)))
       (consumer (fst (turnAll Scenario.imports Overlap.steady
                               (Scenario.fresh, [])))).
Proof.
  assert (H : 1 <= maximumItemsPerTrace (_options (consumer Scenario.fresh)))
    by (vm_compute; discriminate).
  assert (Hns : neverStopped (handled Overlap.steady)).
  { intros op Hin. simpl in Hin.
    repeat (destruct Hin as [<-|Hin];
            [eexists; split; reflexivity|]).
    contradiction. }
  split; [exact H|]. split; [reflexivity|]. split; [reflexivity|].
  split; [reflexivity|]. split; [exact Hns|].
  exact (proj1 (proj2 (countdown_stays_in_range Scenario.imports Overlap.steady
                         Scenario.fresh H eq_refl eq_refl eq_refl Hns))).
Defined.


Lemma a_throwing_iteration_ends_the_loop_witness :
  _enabled (consumer Scenario.registered) = true
  /\ _lastNewTrace (consumer Scenario.registered) <> None
  /\ nth_error (timers Scenario.registered) 0 = Some 1000
  /\ rejects Scenario.dequeueFails SenderSend = None
  /\ stopRequested Scenario.dequeueFails = false
  /\ fst (doWork Scenario.dequeueFails
            (set_timers (remove_nth 0 (timers Scenario.registered))
                        Scenario.registered))
     = Threw "ECONNRESET"
  /\ timers (fireTimer Scenario.dequeueFails 0 Scenario.registered)
     = remove_nth 0 (timers Scenario.registered).
Proof.
  assert (H1 : _enabled (consumer Scenario.registered) = true)
    by (vm_compute; reflexivity).
  assert (H2 : _lastNewTrace (consumer Scenario.registered) <> None)
    by (vm_compute; discriminate).
  assert (H3 : nth_error (timers Scenario.registered) 0 = Some 1000)
    by (vm_compute; reflexivity).
  assert (H4 : fst (doWork Scenario.dequeueFails
                      (set_timers (remove_nth 0 (timers Scenario.registered))
                                  Scenario.registered))
               = Threw "ECONNRESET") by (vm_compute; reflexivity).
  split; [exact H1|]. split; [exact H2|]. split; [exact H3|].
  split; [reflexivity|]. split; [reflexivity|]. split; [exact H4|].
  exact (proj1 (a_throwing_iteration_ends_the_loop Scenario.dequeueFails 0
                  1000 Scenario.registered "ECONNRESET" H1 H2 H3 eq_refl
                  eq_refl H4)).
Defined.

Lemma failed_attempt_is_retried_at_its_timestamp_witness :
  marqs Scenario.dispatched = true
  /\ taskRunCompleted Scenario.imports (Scenario.completing 3000) "worker_one"
       (Failure "attempt_a1" (JObj [("message", JStr "boom")]) (Some 9000))
       Scenario.execution1 Scenario.dispatched
     = (Returned tt, Scenario.retried)
  /\ exists attempt,
       attemptByFriendlyId (prisma Scenario.dispatched) "attempt_a1"
       = Some attempt
       /\ queue Scenario.retried
          = (queue Scenario.dispatched
             ++ [Nacked (att_taskRunId attempt) (Some 9000)])%list.
Proof.
  assert (Hm : marqs Scenario.dispatched = true) by (vm_compute; reflexivity).
  assert (Hrun : taskRunCompleted Scenario.imports (Scenario.completing 3000)
                   "worker_one"
                   (Failure "attempt_a1" (JObj [("message", JStr "boom")])
                            (Some 9000))
                   Scenario.execution1 Scenario.dispatched
                 = (Returned tt, Scenario.retried))
    by (vm_compute; reflexivity).
  split; [exact Hm|]. split; [exact Hrun|].
  destruct (failed_attempt_is_retried_at_its_timestamp Scenario.imports
              (Scenario.completing 3000) "worker_one" "attempt_a1"
              (JObj [("message", JStr "boom")]) 9000 Scenario.execution1
              Scenario.dispatched Scenario.retried Hm Hrun)
    as (attempt & event & Hfind & _ & _ & Hq & _).
  exists attempt. split; [exact Hfind|exact Hq].
Defined.

(** ** Scenarios of the event repository *)

Lemma recorded_event_joins_the_propagated_trace_witness :
  exists event,
    buildEvent Scenario.imports (Scenario.completing 3000) "child"
               (with_context Traces.context Traces.childOptions)
    = Returned event
    /\ ev_traceId event = "0af7651916cd43dd8448eb211c80319c"
    /\ ev_parentId event = Some "b7ad6b7169203331".
Proof.
  destruct (buildEvent Scenario.imports (Scenario.completing 3000) "child"
              (with_context Traces.context Traces.childOptions))
    as [event|e] eqn:E.
  - exists event. split; [reflexivity|].
    exact (proj2 (proj2 (recorded_event_joins_the_propagated_trace
                           Scenario.imports (Scenario.completing 3000)
                           "child"
                           (with_context Traces.context Traces.childOptions)
                           event E))
             "0af7651916cd43dd8448eb211c80319c" "b7ad6b7169203331"
             eq_refl eq_refl eq_refl).
  - vm_compute in E. discriminate E.
Defined.

Lemma stripAttributePrefix_undoes_prefixing_witness :
  NoDup (map fst [("icon", JStr "play"); ("variant", JStr "primary")])
  /\ ~ In "__proto__"
         (map fst [("icon", JStr "play"); ("variant", JStr "primary")])
  /\ stripAttributePrefix
       (map (fun kv => ("$style" ++ String "."%char (fst kv), snd kv))
            [("icon", JStr "play"); ("variant", JStr "primary")])
       "$style"
     = [("icon", JStr "play"); ("variant", JStr "primary")].
Proof.
  assert (H : NoDup (map fst [("icon", JStr "play");
                              ("variant", JStr "primary")])).
  { simpl. constructor.
    - intros [E|[]]. discriminate E.
    - constructor; [intros []|constructor]. }
  assert (Hp : ~ In "__proto__"
                    (map fst [("icon", JStr "play");
                              ("variant", JStr "primary")])).
  { simpl. intros [E|[E|[]]]; discriminate E. }
  split; [exact H|]. split; [exact Hp|].
  apply (proj1 (proj2 (stripAttributePrefix_undoes_prefixing "$style"
                         "."%char
                         [("icon", JStr "play"); ("variant", JStr "primary")]
                         H Hp))).
  - intros key Hin. simpl in Hin.
    repeat (destruct Hin as [<-|Hin]; [reflexivity|]). contradiction.
  - intros key Hin. simpl in Hin.
    repeat (destruct Hin as [<-|Hin]; [reflexivity|]). contradiction.
Defined.

Lemma events_recorded_in_the_callback_are_children_witness :
  dashFree (randomTraceId (Scenario.completing 3000)) = true
  /\ dashFree (randomSpanId (Scenario.completing 3000)) = true
  /\ exists child w' parent,
       traceEvent Scenario.imports "$style.variant" "primary"
         (Scenario.completing 3000) 250000 "attempt" Traces.options
         (fun traceId spanId traceContext =>
            event <- recordEvent Scenario.imports (Scenario.completing 3100)
                       "child"
                       (with_context traceContext Traces.childOptions) ;;
            ret ([], event))
         Scenario.fresh
       = (Returned child, w')
       /\ events w' = (events Scenario.fresh ++ [child; parent])%list.
Proof.
  split; [reflexivity|]. split; [reflexivity|].
  destruct (traceEvent Scenario.imports "$style.variant" "primary"
              (Scenario.completing 3000) 250000 "attempt" Traces.options
              (fun traceId spanId traceContext =>
                 event <- recordEvent Scenario.imports
                            (Scenario.completing 3100) "child"
                            (with_context traceContext Traces.childOptions) ;;
                 ret ([], event))
              Scenario.fresh) as [[child|e] w'] eqn:E.
  - destruct (events_recorded_in_the_callback_are_children
                Scenario.imports "$style.variant" "primary"
                (Scenario.completing 3000) (Scenario.completing 3100) 250000
                "attempt" "child" Traces.options Traces.childOptions
                Scenario.fresh w' child eq_refl eq_refl E)
      as (parent & Hev & _).
    exists child, w', parent. split; [reflexivity|exact Hev].
  - vm_compute in E. discriminate E.
Defined.

Lemma generated_id_is_the_hex_of_its_draws_witness :
  (forall i, (i < 8 * 2)%nat -> 0 <= (fun _ : nat => 10) i < 16)
  /\ String.length (fst (getIdGenerator 8 (fun _ => 10) [])) = (8 * 2)%nat.
Proof.
  assert (H : forall i, (i < 8 * 2)%nat -> 0 <= (fun _ : nat => 10) i < 16)
    by (intros i _; simpl; lia).
  split; [exact H|].
  exact (proj1 (proj2 (generated_id_is_the_hex_of_its_draws 8 (fun _ => 10)
                         [] H))).
Defined.
